(** * BizTime data-access layer and invoice routes

    A shallow embedding of [src/dbFunctions.js] and of the handlers of
    [src/routes/invoices.js] that the properties below are about.

    JavaScript values are untyped, objects live in a heap and are passed by
    reference, and every operation may throw.  The embedding keeps all three:
    a [value] is a primitive or a reference, a [world] holds the heap together
    with the log of the statements sent to the store, and a computation is a
    function from worlds to an outcome and a new world. *)

From Stdlib Require Import ZArith.
From stdpp Require Import base list strings gmap pretty.

Open Scope Z_scope.

(** ** Values, objects, worlds *)

(** A location of the heap. *)
Abbreviation loc := nat.

(** Numbers are the integers plus [NaN]; the code computes nothing else. *)
Inductive value : Type :=
| VUndefined
| VNull
| VBool (b : bool)
| VNum (n : Z)
| VNaN
| VStr (s : string)
| VRef (l : loc).

(** Arrays, plain objects and error objects (with the name of their class).
    Functions are not values of the model, so no property is callable except
    the built-in methods the code uses, which are primitives below. *)
Inductive object : Type :=
| OArr (elems : list value)
| OObj (props : gmap string value)
| OErr (name : string) (props : gmap string value).

(** One call of [db.query]: the text, the second argument as passed, and the
    content of that argument at the time of the call when it is an array. *)
Record statement : Type := Statement {
  sql_text : string;
  sql_values : value;
  bound : option (list value)
}.

Record world : Type := World {
  heap : list object;
  issued : list statement
}.

#[global] Instance value_eq_dec : EqDecision value.
Proof. solve_decision. Defined.

(** ** Computations that read and write the world and may throw *)

Inductive outcome (A : Type) : Type :=
| Ok (a : A)
| Throw (e : value).
Arguments Ok {A} a.
Arguments Throw {A} e.

Definition M (A : Type) : Type := world -> outcome A * world.

Definition ret {A} (a : A) : M A := fun w => (Ok a, w).

Definition bind {A B} (m : M A) (k : A -> M B) : M B :=
  fun w => match m w with
           | (Ok a, w') => k a w'
           | (Throw e, w') => (Throw e, w')
           end.

Definition throw {A} (e : value) : M A := fun w => (Throw e, w).

(** [try { body } catch (err) { handler }] *)
Definition try_catch {A} (body : M A) (handler : value -> M A) : M A :=
  fun w => match body w with
           | (Ok a, w') => (Ok a, w')
           | (Throw e, w') => handler e w'
           end.

Declare Scope js_scope.
Delimit Scope js_scope with js.
Notation "x <- m ;; k" := (bind m (fun x => k))
  (at level 100, m at next level, right associativity) : js_scope.
Open Scope js_scope.

(** A new object goes to the end of the heap. *)
Definition alloc (o : object) : M value :=
  fun w => (Ok (VRef (length (heap w))), World (heap w ++ [o]) (issued w)).

Fixpoint alloc_all (os : list object) : M (list value) :=
  match os with
  | [] => ret []
  | o :: os' => v <- alloc o ;; vs <- alloc_all os' ;; ret (v :: vs)
  end.

(** An error raised by the language itself. *)
Definition throw_error {A} (name msg : string) : M A :=
  e <- alloc (OErr name {[ "message" := VStr msg ]}) ;; throw e.

Definition new_Error (msg : string) : M value :=
  alloc (OErr "Error" {[ "message" := VStr msg ]}).

Definition new_object (ps : gmap string value) : M value := alloc (OObj ps).

Definition new_array (xs : list value) : M value := alloc (OArr xs).

(** ** Reading *)

(** The own properties of whatever a value refers to. *)
Definition props_at (h : list object) (v : value) : gmap string value :=
  match v with
  | VRef l => match h !! l with
              | Some (OObj ps) | Some (OErr _ ps) => ps
              | _ => ∅
              end
  | _ => ∅
  end.

Definition elems_at (h : list object) (v : value) : option (list value) :=
  match v with
  | VRef l => match h !! l with
              | Some (OArr xs) => Some xs
              | _ => None
              end
  | _ => None
  end.

Definition string_length (s : string) : Z := Z.of_nat (String.length s).

Definition char_at (s : string) (i : nat) : value :=
  match String.get i s with
  | Some c => VStr (String c EmptyString)
  | None => VUndefined
  end.

(** What [v.k] yields when [v] is neither [undefined] nor [null]: arrays and
    strings answer [length]; objects answer their own properties; everything
    else, and every absent property, is [undefined].  The names read by the
    code are none of the inherited method names, so prototypes are left out. *)
Definition read_prop (h : list object) (v : value) (k : string) : value :=
  match v with
  | VStr s => if String.eqb k "length" then VNum (string_length s) else VUndefined
  | VRef l =>
      match h !! l with
      | Some (OArr xs) =>
          if String.eqb k "length" then VNum (Z.of_nat (length xs))
          else VUndefined
      | Some (OObj ps) | Some (OErr _ ps) => default VUndefined (ps !! k)
      | None => VUndefined
      end
  | _ => VUndefined
  end.

(** What [v[i]] yields on the same values, for a number [i] that the code
    counts itself, hence a natural. *)
Definition read_index (h : list object) (v : value) (i : nat) : value :=
  match v with
  | VStr s => char_at s i
  | VRef l =>
      match h !! l with
      | Some (OArr xs) => default VUndefined (xs !! i)
      | Some (OObj ps) | Some (OErr _ ps) => default VUndefined (ps !! pretty i)
      | None => VUndefined
      end
  | _ => VUndefined
  end.

(** [v.k]: a read on [undefined] or [null] throws. *)
Definition get_prop (v : value) (k : string) : M value :=
  fun w =>
    match v with
    | VUndefined =>
        throw_error "TypeError"
          ("Cannot read properties of undefined (reading '" +:+ k +:+ "')") w
    | VNull =>
        throw_error "TypeError"
          ("Cannot read properties of null (reading '" +:+ k +:+ "')") w
    | _ => (Ok (read_prop (heap w) v k), w)
    end.

(** [v[i]] *)
Definition get_index (v : value) (i : nat) : M value :=
  fun w =>
    match v with
    | VUndefined =>
        throw_error "TypeError"
          ("Cannot read properties of undefined (reading '" +:+ pretty i +:+ "')") w
    | VNull =>
        throw_error "TypeError"
          ("Cannot read properties of null (reading '" +:+ pretty i +:+ "')") w
    | _ => (Ok (read_index (heap w) v i), w)
    end.

Definition chars (s : string) : list value :=
  (fun c => VStr (String c EmptyString)) <$> String.list_ascii_of_string s.

(** What [for (x of v)] iterates over: the elements of an array, the
    characters of a string; nothing else in the model is iterable. *)
Definition elements_of (h : list object) (v : value) : option (list value) :=
  match v with
  | VStr s => Some (chars s)
  | VRef l => match h !! l with
              | Some (OArr xs) => Some xs
              | _ => None
              end
  | _ => None
  end.

Definition iterate (v : value) : M (list value) :=
  fun w =>
    match elements_of (heap w) v with
    | Some xs => (Ok xs, w)
    | None => throw_error "TypeError" "value is not iterable" w
    end.

(** ** Writing *)

(** [a.push(v)]: only an array has the method. *)
Definition array_push (a v : value) : M value :=
  fun w =>
    match a with
    | VUndefined =>
        throw_error "TypeError"
          "Cannot read properties of undefined (reading 'push')" w
    | VNull =>
        throw_error "TypeError"
          "Cannot read properties of null (reading 'push')" w
    | VRef l =>
        match heap w !! l with
        | Some (OArr xs) =>
            (Ok (VNum (Z.of_nat (length xs) + 1)),
             World (<[l := OArr (xs ++ [v])]> (heap w)) (issued w))
        | _ => throw_error "TypeError" "push is not a function" w
        end
    | _ => throw_error "TypeError" "push is not a function" w
    end.

(** [o.k = v] (also written [o["k"] = v]).  Outside strict mode a write to a
    primitive is dropped.  A named property written to an array is not kept by
    the model: it is read by nothing, and JSON leaves it out. *)
Definition set_prop (o : value) (k : string) (v : value) : M unit :=
  fun w =>
    match o with
    | VUndefined =>
        throw_error "TypeError"
          ("Cannot set properties of undefined (setting '" +:+ k +:+ "')") w
    | VNull =>
        throw_error "TypeError"
          ("Cannot set properties of null (setting '" +:+ k +:+ "')") w
    | VRef l =>
        match heap w !! l with
        | Some (OObj ps) =>
            (Ok (), World (<[l := OObj (<[k := v]> ps)]> (heap w)) (issued w))
        | Some (OErr n ps) =>
            (Ok (), World (<[l := OErr n (<[k := v]> ps)]> (heap w)) (issued w))
        | _ => (Ok (), w)
        end
    | _ => (Ok (), w)
    end.

(** [delete o.k] *)
Definition delete_prop (o : value) (k : string) : M unit :=
  fun w =>
    match o with
    | VUndefined =>
        throw_error "TypeError"
          ("Cannot convert undefined or null to object") w
    | VNull =>
        throw_error "TypeError"
          ("Cannot convert undefined or null to object") w
    | VRef l =>
        match heap w !! l with
        | Some (OObj ps) =>
            (Ok (), World (<[l := OObj (delete k ps)]> (heap w)) (issued w))
        | Some (OErr n ps) =>
            (Ok (), World (<[l := OErr n (delete k ps)]> (heap w)) (issued w))
        | _ => (Ok (), w)
        end
    | _ => (Ok (), w)
    end.

(** ** Tests *)

(** The truth value of a condition. *)
Definition to_boolean (v : value) : bool :=
  match v with
  | VUndefined | VNull | VNaN => false
  | VBool b => b
  | VNum n => negb (n =? 0)
  | VStr s => negb (String.eqb s "")
  | VRef _ => true
  end.

(** [a === b] *)
Definition strict_eq (a b : value) : bool :=
  match a, b with
  | VUndefined, VUndefined | VNull, VNull => true
  | VBool x, VBool y => Bool.eqb x y
  | VNum x, VNum y => x =? y
  | VStr x, VStr y => String.eqb x y
  | VRef x, VRef y => Nat.eqb x y
  | _, _ => false
  end.

(** [v > n].  The code compares only the [length] of the [rows] array of a
    store result, a number; the conversions of strings and objects that the
    language would attempt are not modelled and count as [NaN]. *)
Definition greater_than (v : value) (n : Z) : bool :=
  match v with
  | VNum m => n <? m
  | VBool b => n <? (if b then 1 else 0)
  | VNull => n <? 0
  | _ => false
  end.

(** ** The store *)

(** What the store answers to one statement: the rows it returns, each a
    record of column values, or the error object it raises.  A store that
    never answers is not modelled. *)
Inductive store_reply : Type :=
| SRows (rows : list (gmap string value))
| SFail (err : object).

(** [await db.query(sql, params)]: the call is logged, then the driver
    builds its result object, or throws the store's error. *)
Definition db_query (reply : store_reply) (sql : string) (params : value)
  : M value :=
  fun w =>
    let w1 := World (heap w)
                (issued w ++ [Statement sql params (elems_at (heap w) params)]) in
    match reply with
    | SRows rows =>
        (rs <- alloc_all (OObj <$> rows) ;;
         arr <- new_array rs ;;
         new_object {[ "rows" := arr;
                       "rowCount" := VNum (Z.of_nat (length rows)) ]}) w1
    | SFail err => (e <- alloc err ;; throw e) w1
    end.

(** ** Promises *)

Inductive settled : Type :=
| Resolved (v : value)
| Rejected (e : value)
| Pending.

Definition resolve (v : value) : M settled := ret (Resolved v).

(** [new Promise(async function (resolve, reject) { ... })]: the promise
    takes the settlement the executor performs.  An exception escaping an
    asynchronous executor is lost and leaves the promise pending. *)
Definition new_Promise (executor : M settled) : M settled :=
  fun w => match executor w with
           | (Ok s, w') => (Ok s, w')
           | (Throw _, w') => (Ok Pending, w')
           end.

(** [async function f(...) { body }]: calling it never throws; an exception
    in the body rejects the promise it returns. *)
Definition async (body : M settled) : M settled :=
  fun w => match body w with
           | (Ok s, w') => (Ok s, w')
           | (Throw e, w') => (Ok (Rejected e), w')
           end.

(** ** Text *)

Definition nl : string := String (Ascii.ascii_of_nat 10) EmptyString.
Definition sp12 : string := "            ".
Definition sp16 : string := "                ".

Section BizTime.

(** The text of an object ([Array.prototype.join], [Error.prototype.toString],
    ["[object Object]"]) is whatever the run-time yields for it. *)
Variable object_to_string : list object -> loc -> string.

(** The values of the names bound to functions, modules and host objects
    ([res], [next], [express], ...), which the model does not look into. *)
Variable host : string -> value.

(** The text a template literal puts for a value. *)
Definition text (h : list object) (v : value) : string :=
  match v with
  | VUndefined => "undefined"
  | VNull => "null"
  | VBool true => "true"
  | VBool false => "false"
  | VNum n => pretty n
  | VNaN => "NaN"
  | VStr s => s
  | VRef l => object_to_string h l
  end.

Definition to_string (v : value) : M string :=
  fun w => (Ok (text (heap w) v), w).

(** [v + 1]: a sum of numbers, or else the text of [v] followed by "1". *)
Definition add_one (h : list object) (v : value) : value :=
  match v with
  | VNum n => VNum (n + 1)
  | VUndefined | VNaN => VNaN
  | VNull => VNum 1
  | VBool b => VNum (if b then 2 else 1)
  | VStr s => VStr (s +:+ "1")
  | VRef l => VStr (object_to_string h l +:+ "1")
  end.

Definition plus_one (v : value) : M value :=
  fun w => (Ok (add_one (heap w) v), w).

(** ** The data-access functions of [dbFunctions.js] *)

(** Each function returns a promise that it only ever resolves: the whole of
    its executor sits inside one [try], and the [catch] resolves too. *)
Definition dbSelectAll (selectFields table : value) (reply : store_reply)
  : M settled :=
  async (new_Promise (
    try_catch
      (fields <- to_string selectFields ;;
       tbl <- to_string table ;;
       result <- db_query reply
         (nl +:+ sp16 +:+ "SELECT " +:+ fields +:+ " " +:+ nl +:+
          sp16 +:+ "FROM " +:+ tbl +:+ "  " +:+ nl +:+ sp12) VUndefined ;;
       rows <- get_prop result "rows" ;;
       error <- new_object {[ "message" := VStr "" ]} ;;
       envelope <- new_object {[ "success" := VBool true;
                                 "sqlReturn" := rows;
                                 "error" := error ]} ;;
       resolve envelope)
      (fun err =>
         error <- new_object {[ "message" := err ]} ;;
         envelope <- new_object {[ "success" := VBool false;
                                   "sqlReturn" := VStr "";
                                   "error" := error ]} ;;
         resolve envelope))).

Definition dbSelect (selectData table : value) (reply : store_reply)
  : M settled :=
  async (new_Promise (
    try_catch
      (f <- get_prop selectData "selectFields" ;;
       fields <- to_string f ;;
       tbl <- to_string table ;;
       c <- get_prop selectData "criteria" ;;
       criteria <- to_string c ;;
       criteriaValues <- get_prop selectData "criteriaValues" ;;
       result <- db_query reply
         (nl +:+ sp16 +:+ "SELECT " +:+ fields +:+ " " +:+ nl +:+
          sp16 +:+ "FROM " +:+ tbl +:+ " " +:+ nl +:+
          sp16 +:+ "WHERE " +:+ criteria +:+ " " +:+ nl +:+ sp12)
         criteriaValues ;;
       rows <- get_prop result "rows" ;;
       len <- get_prop rows "length" ;;
       if greater_than len 0 then
         rows <- get_prop result "rows" ;;
         len <- get_prop rows "length" ;;
         if strict_eq len (VNum 1) then
           rows <- get_prop result "rows" ;;
           row <- get_index rows 0 ;;
           error <- new_object {[ "message" := VStr "" ]} ;;
           envelope <- new_object {[ "success" := VBool true;
                                     "sqlReturn" := row;
                                     "error" := error ]} ;;
           resolve envelope
         else
           rows <- get_prop result "rows" ;;
           error <- new_object {[ "message" := VStr "" ]} ;;
           envelope <- new_object {[ "success" := VBool true;
                                     "sqlReturn" := rows;
                                     "error" := error ]} ;;
           resolve envelope
       else
         error <- new_object {[ "message" := VStr "not found" ]} ;;
         envelope <- new_object {[ "success" := VBool false;
                                   "sqlReturn" := VStr "";
                                   "error" := error ]} ;;
         resolve envelope)
      (fun err =>
         error <- new_object {[ "message" := err ]} ;;
         envelope <- new_object {[ "success" := VBool false;
                                   "sqlReturn" := VStr "";
                                   "error" := error ]} ;;
         resolve envelope))).

(** [returnFields = "*"]: the default stands in for an absent argument. *)
Definition dbInsert (insertData table returnFields : value)
  (reply : store_reply) : M settled :=
  async (
    let returnFields :=
      match returnFields with VUndefined => VStr "*" | v => v end in
    new_Promise (
      try_catch
        (tbl <- to_string table ;;
         n <- get_prop insertData "argumentsName" ;;
         names <- to_string n ;;
         p <- get_prop insertData "argumentsNbr" ;;
         nbrs <- to_string p ;;
         returning <- to_string returnFields ;;
         argumentsValues <- get_prop insertData "argumentsValues" ;;
         result <- db_query reply
           (nl +:+ sp16 +:+ "INSERT INTO " +:+ tbl +:+ " (" +:+ names +:+
            ")  " +:+ nl +:+
            sp16 +:+ "VALUES (" +:+ nbrs +:+ ") " +:+ nl +:+
            sp16 +:+ "RETURNING " +:+ returning +:+ " " +:+ nl +:+ sp12)
           argumentsValues ;;
         rows <- get_prop result "rows" ;;
         row <- get_index rows 0 ;;
         error <- new_object {[ "message" := VStr "" ]} ;;
         envelope <- new_object {[ "success" := VBool true;
                                   "sqlReturn" := row;
                                   "error" := error ]} ;;
         resolve envelope)
        (fun err =>
           error <- new_object {[ "message" := err ]} ;;
           envelope <- new_object {[ "success" := VBool false;
                                     "insertReturn" := VStr "";
                                     "error" := error ]} ;;
           resolve envelope))).

(** The variables of the loop of [dbUpdate]. *)
Record clauses : Type := Clauses {
  setClause : string;
  returningClause : string;
  delim : string;
  idx : nat
}.

(** [for (field of updateData.argumentsName) { ... }], one turn per element.
    The loop variable is declared nowhere, so it is a property of the global
    object; nothing reads it. *)
Fixpoint build_clauses (updateData : value) (fields : list value)
  (cl : clauses) : M clauses :=
  match fields with
  | [] => ret cl
  | field :: rest =>
      name <- to_string field ;;
      nbrs <- get_prop updateData "argumentsNbr" ;;
      nbr <- get_index nbrs (idx cl) ;;
      placeholder <- to_string nbr ;;
      name' <- to_string field ;;
      build_clauses updateData rest
        {| setClause :=
             setClause cl +:+ delim cl +:+ name +:+ " = " +:+ placeholder;
           returningClause := returningClause cl +:+ delim cl +:+ name';
           delim := ", ";
           idx := S (idx cl) |}
  end.

(** The function handed to [new Promise] by [dbUpdate]; it closes over the
    arguments and the three clauses. *)
Definition dbUpdate_executor (updateData table : value)
  (setClause whereClause returningClause : string) (reply : store_reply)
  : M settled :=
  try_catch
    (tbl <- to_string table ;;
     argumentsValues <- get_prop updateData "argumentsValues" ;;
     result <- db_query reply
       (nl +:+ sp16 +:+ "UPDATE " +:+ tbl +:+ " " +:+ nl +:+
        sp16 +:+ "SET " +:+ setClause +:+ " " +:+ nl +:+
        sp16 +:+ "WHERE " +:+ whereClause +:+ nl +:+
        sp16 +:+ "RETURNING " +:+ returningClause +:+ " " +:+ nl +:+
        sp12)
       argumentsValues ;;
     rows <- get_prop result "rows" ;;
     len <- get_prop rows "length" ;;
     if greater_than len 0 then
       rows <- get_prop result "rows" ;;
       row <- get_index rows 0 ;;
       error <- new_object {[ "message" := VStr "" ]} ;;
       envelope <- new_object {[ "success" := VBool true;
                                 "sqlReturn" := row;
                                 "error" := error ]} ;;
       resolve envelope
     else
       empty <- new_object ∅ ;;
       error <- new_object {[ "message" := VStr "not found" ]} ;;
       envelope <- new_object {[ "success" := VBool false;
                                 "sqlReturn" := empty;
                                 "error" := error ]} ;;
       resolve envelope)
    (fun err =>
       error <- new_object {[ "message" := err ]} ;;
       envelope <- new_object {[ "success" := VBool false;
                                 "sqlReturn" := VStr "";
                                 "error" := error ]} ;;
       resolve envelope).

Definition dbUpdate (whereCriteria updateData table : value)
  (reply : store_reply) : M settled :=
  async (
    pk <- get_prop whereCriteria "pk" ;;
    pk_text <- to_string pk ;;
    argumentsName <- get_prop updateData "argumentsName" ;;
    fields <- iterate argumentsName ;;
    cl <- build_clauses updateData fields
            {| setClause := ""; returningClause := pk_text +:+ ", ";
               delim := ""; idx := 0 |} ;;
    pk <- get_prop whereCriteria "pk" ;;
    pk_text <- to_string pk ;;
    nbrs <- get_prop updateData "argumentsNbr" ;;
    len <- get_prop nbrs "length" ;;
    next <- plus_one len ;;
    next_text <- to_string next ;;
    let whereClause := pk_text +:+ " = $" +:+ next_text in
    argumentsValues <- get_prop updateData "argumentsValues" ;;
    pk_value <- get_prop whereCriteria "value" ;;
    _ <- array_push argumentsValues pk_value ;;
    new_Promise (dbUpdate_executor updateData table
                   (setClause cl) whereClause (returningClause cl) reply)).

Definition dbDelete (deleteData table : value) (reply : store_reply)
  : M settled :=
  async (new_Promise (
    try_catch
      (tbl <- to_string table ;;
       c <- get_prop deleteData "criteria" ;;
       criteria <- to_string c ;;
       n <- get_prop deleteData "argumentsName" ;;
       names <- to_string n ;;
       criteriaValues <- get_prop deleteData "criteriaValues" ;;
       result <- db_query reply
         (nl +:+ sp16 +:+ "DELETE FROM " +:+ tbl +:+ "  " +:+ nl +:+
          sp16 +:+ "WHERE " +:+ criteria +:+ " " +:+ nl +:+
          sp16 +:+ "RETURNING " +:+ names +:+ nl +:+ sp12)
         criteriaValues ;;
       rows <- get_prop result "rows" ;;
       len <- get_prop rows "length" ;;
       if greater_than len 0 then
         status <- new_object {[ "status" := VStr "deleted" ]} ;;
         rows <- get_prop result "rows" ;;
         error <- new_object {[ "message" := VStr "" ]} ;;
         envelope <- new_object {[ "success" := VBool true;
                                   "message" := status;
                                   "deleted" := rows;
                                   "error" := error ]} ;;
         resolve envelope
       else
         empty <- new_object ∅ ;;
         error <- new_object {[ "message" := VStr "not found" ]} ;;
         envelope <- new_object {[ "success" := VBool false;
                                   "message" := empty;
                                   "error" := error ]} ;;
         resolve envelope)
      (fun err =>
         empty <- new_object ∅ ;;
         error <- new_object {[ "message" := err ]} ;;
         envelope <- new_object {[ "success" := VBool false;
                                   "message" := empty;
                                   "error" := error ]} ;;
         resolve envelope))).

(** ** The handlers of [routes/invoices.js] *)

(** What a handler does with a request: it sends a JSON body (with the
    status of the response, 200 as no handler sets another), or hands an error
    to [next], or its own promise is rejected, or it waits for ever. *)
Inductive handled : Type :=
| SendJson (status : Z) (body : value)
| CallNext (err : value)
| Uncaught (err : value)
| NoAnswer.

Definition res_json (body : value) : M handled := ret (SendJson 200 body).

Definition next (err : value) : M handled := ret (CallNext err).

(** [async function (req, res, next) { body }] *)
Definition handler (body : M handled) : world -> handled * world :=
  fun w => match body w with
           | (Ok r, w') => (r, w')
           | (Throw e, w') => (Uncaught e, w')
           end.

(** [x = await p; rest] *)
Definition await (p : settled) (rest : value -> M handled) : M handled :=
  match p with
  | Resolved v => rest v
  | Rejected e => throw e
  | Pending => ret NoAnswer
  end.

(** [new Error(v)]: the message is the text of [v], absent for [undefined]. *)
Definition new_Error_of (v : value) : M value :=
  match v with
  | VUndefined => alloc (OErr "Error" ∅)
  | _ => msg <- to_string v ;; new_Error msg
  end.

(** A name read where [scope] lists the bindings in sight, innermost first.
    Beyond them lies the global object, with the names of the platform and,
    once the loop of [dbUpdate] has run, [field]. *)
Definition variable (scope : list (string * value)) (x : string) : M value :=
  match list_find (fun b => b.1 = x) scope with
  | Some (_, (_, v)) => ret v
  | None => throw_error "ReferenceError" (x +:+ " is not defined")
  end.

(** The bindings of the module: its [require]s and the arguments of the
    wrapper every module runs in. *)
Definition module_scope : list (string * value) :=
  (fun x => (x, host x)) <$>
    [ "db"; "express"; "ExpressError"; "checkNumbers"; "prepareInsertData";
      "prepareUpdateData"; "dbSelect"; "dbSelectAll"; "dbDelete"; "dbInsert";
      "dbUpdate"; "response"; "router";
      "exports"; "require"; "module"; "__filename"; "__dirname" ].

(** [GET /invoices/:id].  [nbrTest] is what [checkNumbers(req.params.id)]
    returned; the helper belongs to [helperFx.js]. *)
Definition get_invoice (req nbrTest : value)
  (replyInvoice replyCompany : store_reply) : world -> handled * world :=
  handler (
    params <- get_prop req "params" ;;
    _ <- get_prop params "id" ;;
    valid <- get_prop nbrTest "numberIsValid" ;;
    if to_boolean valid then
      idIn <- get_prop nbrTest "validatedNumber" ;;
      values <- new_array [idIn] ;;
      selectData <- new_object
        {[ "criteria" := VStr "id = $1";
           "criteriaValues" := values;
           "selectFields" :=
             VStr "id, amt, paid, add_date, paid_date, comp_code" ]} ;;
      p <- dbSelect selectData (VStr "invoices") replyInvoice ;;
      await p (fun resultsInvoice =>
        ok <- get_prop resultsInvoice "success" ;;
        if to_boolean ok then
          _ <- set_prop selectData "criteria" (VStr "code = $1") ;;
          invoice <- get_prop resultsInvoice "sqlReturn" ;;
          code <- get_prop invoice "comp_code" ;;
          values <- new_array [code] ;;
          _ <- set_prop selectData "criteriaValues" values ;;
          _ <- set_prop selectData "selectFields"
                 (VStr "code, name, description") ;;
          p <- dbSelect selectData (VStr "companies") replyCompany ;;
          await p (fun resultsCompany =>
            ok <- get_prop resultsCompany "success" ;;
            _ <- (if to_boolean ok then
                    invoice <- get_prop resultsInvoice "sqlReturn" ;;
                    _ <- delete_prop invoice "comp_code" ;;
                    invoice <- get_prop resultsInvoice "sqlReturn" ;;
                    company <- get_prop resultsCompany "sqlReturn" ;;
                    set_prop invoice "company" company
                  else ret ()) ;;
            invoice <- get_prop resultsInvoice "sqlReturn" ;;
            body <- new_object {[ "invoice" := invoice ]} ;;
            res_json body)
        else
          error <- get_prop resultsInvoice "error" ;;
          message <- get_prop error "message" ;;
          if strict_eq message (VStr "not found") then
            params <- get_prop req "params" ;;
            id <- get_prop params "id" ;;
            id_text <- to_string id ;;
            errorSelect <- new_Error
              ("Invoice '" +:+ id_text +:+ "' was not found.") ;;
            _ <- set_prop errorSelect "status" (VNum 404) ;;
            next errorSelect
          else
            error <- get_prop resultsInvoice "error" ;;
            message <- get_prop error "message" ;;
            errorSelect <- new_Error_of message ;;
            _ <- set_prop errorSelect "status" (VNum 400) ;;
            next errorSelect)
    else
      message <- get_prop nbrTest "message" ;;
      text <- to_string message ;;
      errorSelect <- new_Error ("Invoice id " +:+ text) ;;
      _ <- set_prop errorSelect "status" (VNum 400) ;;
      next errorSelect).

(** [PUT /invoices/:id].  [verifyNumber] is what [checkNumbers(req.params.id)]
    returned and [resultsPreparation] what
    [prepareUpdateData(optionalKeys, req.body)] returned; both helpers belong
    to [helperFx.js]. *)
Definition put_invoice (req res_ next_ verifyNumber resultsPreparation : value)
  (reply : store_reply) : world -> handled * world :=
  handler (
    params <- get_prop req "params" ;;
    _ <- get_prop params "id" ;;
    valid <- get_prop verifyNumber "numberIsValid" ;;
    if strict_eq valid (VBool false) then
      message <- get_prop verifyNumber "message" ;;
      text <- to_string message ;;
      errorIdNotNumeric <- new_Error ("Invoice id " +:+ text) ;;
      _ <- set_prop errorIdNotNumeric "status" (VNum 400) ;;
      next errorIdNotNumeric
    else
      optionalKeys <- new_array
        [VStr "comp_code"; VStr "amt"; VStr "paid"; VStr "paid_date"] ;;
      _ <- get_prop req "body" ;;
      ok <- get_prop resultsPreparation "success" ;;
      if strict_eq ok (VBool false) then
        error <- get_prop resultsPreparation "error" ;;
        errorUpdate <- new_Error_of error ;;
        _ <- set_prop errorUpdate "status" (VNum 404) ;;
        next errorUpdate
      else
        number <- get_prop verifyNumber "validatedNumber" ;;
        criteria <- new_object {[ "pk" := VStr "id"; "value" := number ]} ;;
        updateData <- get_prop resultsPreparation "updateData" ;;
        p <- dbUpdate criteria updateData (VStr "invoices") reply ;;
        await p (fun resultsUpdate =>
          let function_scope :=
            [ ("verifyNumber", verifyNumber); ("optionalKeys", optionalKeys);
              ("resultsPreparation", resultsPreparation);
              ("criteria", criteria); ("resultsUpdate", resultsUpdate);
              ("req", req); ("res", res_); ("next", next_) ] in
          ok <- get_prop resultsUpdate "success" ;;
          if to_boolean ok then
            invoice <- get_prop resultsUpdate "sqlReturn" ;;
            body <- new_object {[ "invoice" := invoice ]} ;;
            res_json body
          else
            error <- get_prop resultsUpdate "error" ;;
            message <- get_prop error "message" ;;
            if strict_eq message (VStr "not found") then
              params <- get_prop req "params" ;;
              id <- get_prop params "id" ;;
              id_text <- to_string id ;;
              errorUpdate <- new_Error
                ("Invoice '" +:+ id_text +:+ "' was not found.") ;;
              let block_scope :=
                ("errorUpdate", errorUpdate) :: function_scope ++ module_scope in
              errorSelect <- variable block_scope "errorSelect" ;;
              _ <- set_prop errorSelect "status" (VNum 404) ;;
              errorSelect <- variable block_scope "errorSelect" ;;
              next errorSelect
            else
              error <- get_prop resultsUpdate "error" ;;
              message <- get_prop error "message" ;;
              errorSelect <- new_Error_of message ;;
              _ <- set_prop errorSelect "status" (VNum 400) ;;
              next errorSelect)).

(** [GET /invoices] *)
Definition get_invoices (reply : store_reply) : world -> handled * world :=
  handler (
    p <- dbSelectAll (VStr "id, comp_code") (VStr "invoices") reply ;;
    await p (fun results =>
      ok <- get_prop results "success" ;;
      if to_boolean ok then
        invoices <- get_prop results "sqlReturn" ;;
        body <- new_object {[ "invoices" := invoices ]} ;;
        res_json body
      else
        error <- get_prop results "error" ;;
        message <- get_prop error "message" ;;
        errorSelect <- new_Error_of message ;;
        _ <- set_prop errorSelect "status" (VNum 400) ;;
        next errorSelect)).

(** [POST /invoices].  [resultsPreparation] is what
    [prepareInsertData(requiredKeys, optionalKeys, req.body)] returned; the
    helper belongs to [helperFx.js]. *)
Definition post_invoice (req resultsPreparation : value) (reply : store_reply)
  : world -> handled * world :=
  handler (
    requiredKeys <- new_array [VStr "comp_code"; VStr "amt"] ;;
    optionalKeys <- new_array
      [VStr "paid"; VStr "add_date"; VStr "paid_date"] ;;
    _ <- get_prop req "body" ;;
    ok <- get_prop resultsPreparation "success" ;;
    if strict_eq ok (VBool false) then
      error <- get_prop resultsPreparation "error" ;;
      errorValidation <- new_Error_of error ;;
      _ <- set_prop errorValidation "status" (VNum 400) ;;
      next errorValidation
    else
      insertData <- get_prop resultsPreparation "insertData" ;;
      returnFields <- to_string requiredKeys ;;
      p <- dbInsert insertData (VStr "invoices") (VStr returnFields) reply ;;
      await p (fun resultsInsert =>
        ok <- get_prop resultsInsert "success" ;;
        if to_boolean ok then
          invoice <- get_prop resultsInsert "sqlReturn" ;;
          body <- new_object {[ "invoice" := invoice ]} ;;
          res_json body
        else
          error <- get_prop resultsInsert "error" ;;
          message <- get_prop error "message" ;;
          errorInsert <- new_Error_of message ;;
          _ <- set_prop errorInsert "status" (VNum 400) ;;
          next errorInsert)).

(** [DELETE /invoices/:id].  [nbrTest] is what [checkNumbers(req.params.id)]
    returned. *)
Definition delete_invoice (req nbrTest : value) (reply : store_reply)
  : world -> handled * world :=
  handler (
    params <- get_prop req "params" ;;
    _ <- get_prop params "id" ;;
    valid <- get_prop nbrTest "numberIsValid" ;;
    if to_boolean valid then
      idIn <- get_prop nbrTest "validatedNumber" ;;
      values <- new_array [idIn] ;;
      deleteData <- new_object
        {[ "criteria" := VStr "id = $1";
           "criteriaValues" := values;
           "argumentsName" :=
             VStr "id, amt, paid, add_date, paid_date, comp_code" ]} ;;
      p <- dbDelete deleteData (VStr "invoices") reply ;;
      await p (fun resultsDelete =>
        ok <- get_prop resultsDelete "success" ;;
        if to_boolean ok then
          deleted <- get_prop resultsDelete "deleted" ;;
          body <- new_object {[ "deleted" := deleted ]} ;;
          res_json body
        else
          error <- get_prop resultsDelete "error" ;;
          message <- get_prop error "message" ;;
          if strict_eq message (VStr "not found") then
            params <- get_prop req "params" ;;
            id <- get_prop params "id" ;;
            id_text <- to_string id ;;
            errorSelect <- new_Error
              ("Invoice '" +:+ id_text +:+ "' was not found.") ;;
            _ <- set_prop errorSelect "status" (VNum 404) ;;
            next errorSelect
          else
            error <- get_prop resultsDelete "error" ;;
            message <- get_prop error "message" ;;
            errorSelect <- new_Error_of message ;;
            _ <- set_prop errorSelect "status" (VNum 400) ;;
            next errorSelect)
    else
      message <- get_prop nbrTest "message" ;;
      text <- to_string message ;;
      errorDelete <- new_Error ("Invoice id " +:+ text) ;;
      _ <- set_prop errorDelete "status" (VNum 400) ;;
      next errorDelete).

(** * The vocabulary of the properties *)

(** ** Looking into the heap *)

Definition nullish (v : value) : bool :=
  match v with
  | VUndefined | VNull => true
  | _ => false
  end.

(** A value that is no reference to a place beyond the heap. *)
Definition live (h : list object) (v : value) : bool :=
  match v with
  | VRef l => bool_decide (l < length h)%nat
  | _ => true
  end.

(** The record a value refers to, and the records of the array it refers to. *)
Definition record_at (h : list object) (v : value)
  : option (gmap string value) :=
  match v with
  | VRef l => match h !! l with
              | Some (OObj ps) => Some ps
              | _ => None
              end
  | _ => None
  end.

Definition sequence_at (h : list object) (v : value)
  : option (list (gmap string value)) :=
  match elems_at h v with
  | Some xs => mapM (record_at h) xs
  | None => None
  end.

Definition is_array (h : list object) (v : value) : bool :=
  match elems_at h v with Some _ => true | None => false end.

(** The error object a value refers to. *)
Definition error_at (h : list object) (v : value)
  : option (string * gmap string value) :=
  match v with
  | VRef l => match h !! l with
              | Some (OErr name ps) => Some (name, ps)
              | _ => None
              end
  | _ => None
  end.

(** An array that, like its elements, came to the heap after [h0]. *)
Definition fresh_sequence (h0 h : list object) (v : value) : Prop :=
  live h0 v = false /\
  exists xs, elems_at h v = Some xs /\ Forall (fun x => live h0 x = false) xs.

(** ** Envelopes *)

Definition success_of (h : list object) (envelope : value) : value :=
  read_prop h envelope "success".

Definition message_of (h : list object) (envelope : value) : value :=
  read_prop h (read_prop h envelope "error") "message".

(** [envelope] is an object with the properties [ps], and its [error] is an
    object with the properties [eps]. *)
Definition is_envelope (h : list object) (envelope : value)
  (ps eps : gmap string value) : Prop :=
  record_at h envelope = Some ps /\
  record_at h (default VUndefined (ps !! "error")) = Some eps.

(** The envelopes most paths build. *)
Definition success_envelope (payload error : value) : gmap string value :=
  {[ "success" := VBool true; "sqlReturn" := payload; "error" := error ]}.

Definition failure_envelope (payload error : value) : gmap string value :=
  {[ "success" := VBool false; "sqlReturn" := payload; "error" := error ]}.

Definition insert_failure (error : value) : gmap string value :=
  {[ "success" := VBool false; "insertReturn" := VStr ""; "error" := error ]}.

Definition delete_success (status deleted error : value)
  : gmap string value :=
  {[ "success" := VBool true; "message" := status; "deleted" := deleted;
     "error" := error ]}.

Definition delete_failure (message error : value) : gmap string value :=
  {[ "success" := VBool false; "message" := message; "error" := error ]}.

Definition grows (h h' : list object) : Prop := exists ext, h' = h ++ ext.

(** A call that resolves its promise with an envelope. *)
Definition returns_envelope (r : outcome settled * world) : Prop :=
  match r with
  | (Ok (Resolved envelope), w') =>
      exists ps eps,
        is_envelope (heap w') envelope ps eps /\
        (exists b, ps !! "success" = Some (VBool b)) /\
        is_Some (eps !! "message")
  | _ => False
  end.

(** A call whose promise is rejected with a [TypeError]. *)
Definition rejects_with_TypeError (r : outcome settled * world) : Prop :=
  match r with
  | (Ok (Rejected e), w') => exists ps, error_at (heap w') e = Some ("TypeError", ps)
  | _ => False
  end.

(** A call that resolves with a failure envelope saying "not found". *)
Definition reports_not_found (r : outcome settled * world) : Prop :=
  match r with
  | (Ok (Resolved envelope), w') =>
      success_of (heap w') envelope = VBool false /\
      message_of (heap w') envelope = VStr "not found"
  | _ => False
  end.


(** What [error.message] is on a failure: the text "not found", said only
    when the store returned no row; or the error that was thrown, be it the
    one the store raised or the [TypeError] of a read on a missing
    argument. *)
Definition failure_message (reply : store_reply) (h : list object)
  (m : value) : Prop :=
  (m = VStr "not found" /\ reply = SRows []) \/
  (exists e err, m = VRef e /\ reply = SFail err /\ h !! e = Some err) \/
  (exists ps, error_at h m = Some ("TypeError", ps)).

(** The [error] field as the code builds it: always there, an object with a
    [message] and nothing else; the message is the empty string when
    [success] is true, and a failure message when it is false. *)
Definition error_with_message (reply : store_reply) (h : list object)
  (envelope : value) : Prop :=
  exists ps m,
    is_envelope h envelope ps {[ "message" := m ]} /\
    (ps !! "success" = Some (VBool true) /\ m = VStr "" \/
     ps !! "success" = Some (VBool false) /\ failure_message reply h m).


Definition resolves_with (P : list object -> value -> Prop)
  (r : outcome settled * world) : Prop :=
  match r with
  | (Ok (Resolved envelope), w') => P (heap w') envelope
  | _ => False
  end.


(** The heap once [o.k = v] has run. *)
Definition updated (h : list object) (o : value) (k : string) (v : value)
  : list object :=
  match o with
  | VRef l => match h !! l with
              | Some (OObj ps) => <[l := OObj (<[k := v]> ps)]> h
              | Some (OErr n ps) => <[l := OErr n (<[k := v]> ps)]> h
              | _ => h
              end
  | _ => h
  end.

(** A lookup that finds no row or that the store refuses. *)
Definition lookup_fails (reply : store_reply) : bool :=
  match reply with
  | SRows (_ :: _) => false
  | _ => true
  end.

(** ** The store *)

(** The rows the driver hands over, as laid out in the heap [h ++ _]. *)
Definition driver_result (h : list object) (rows : list (gmap string value))
  : list object :=
  (OObj <$> rows) ++
  [ OArr (VRef <$> seq (length h) (length rows));
    OObj {[ "rows" := VRef (length h + length rows)%nat;
            "rowCount" := VNum (Z.of_nat (length rows)) ]} ].

(** ** The statement of an update *)

(** The arguments on which the code of [dbUpdate] that runs before its
    promise does not throw: both are objects, [argumentsName] can be iterated,
    [argumentsNbr] can be read and [argumentsValues] is an array. *)
Definition update_ready (h : list object) (whereCriteria updateData : value)
  : bool :=
  negb (nullish whereCriteria) && negb (nullish updateData) &&
  match elements_of h (read_prop h updateData "argumentsName") with
  | Some _ => true
  | None => false
  end &&
  negb (nullish (read_prop h updateData "argumentsNbr")) &&
  is_array h (read_prop h updateData "argumentsValues").

(** The clauses after the loop has run over [fields]. *)
Fixpoint clauses_of (h : list object) (nbrs : value) (fields : list value)
  (cl : clauses) : clauses :=
  match fields with
  | [] => cl
  | field :: rest =>
      clauses_of h nbrs rest
        {| setClause :=
             setClause cl +:+ delim cl +:+ text h field +:+ " = " +:+
             text h (read_index h nbrs (idx cl));
           returningClause := returningClause cl +:+ delim cl +:+ text h field;
           delim := ", ";
           idx := S (idx cl) |}
  end.

(** The heap once [v] has been pushed on the array [a]. *)
Definition pushed (h : list object) (a v : value) : list object :=
  match a with
  | VRef l => match h !! l with
              | Some (OArr xs) => <[l := OArr (xs ++ [v])]> h
              | _ => h
              end
  | _ => h
  end.

Definition update_fields (h : list object) (updateData : value) : list value :=
  default [] (elements_of h (read_prop h updateData "argumentsName")).

Definition update_clauses (h : list object) (whereCriteria updateData : value)
  : clauses :=
  clauses_of h (read_prop h updateData "argumentsNbr")
    (update_fields h updateData)
    {| setClause := "";
       returningClause := text h (read_prop h whereCriteria "pk") +:+ ", ";
       delim := ""; idx := 0 |}.

Definition update_where (h : list object) (whereCriteria updateData : value)
  : string :=
  text h (read_prop h whereCriteria "pk") +:+ " = $" +:+
  text h (add_one h
            (read_prop h (read_prop h updateData "argumentsNbr") "length")).

Definition update_pushed (h : list object) (whereCriteria updateData : value)
  : list object :=
  pushed h (read_prop h updateData "argumentsValues")
    (read_prop h whereCriteria "value").

(** The text of the statement, as the template of [dbUpdate] lays it out. *)
Definition update_sql (tbl setClause whereClause returningClause : string)
  : string :=
  nl +:+ sp16 +:+ "UPDATE " +:+ tbl +:+ " " +:+ nl +:+
  sp16 +:+ "SET " +:+ setClause +:+ " " +:+ nl +:+
  sp16 +:+ "WHERE " +:+ whereClause +:+ nl +:+
  sp16 +:+ "RETURNING " +:+ returningClause +:+ " " +:+ nl +:+ sp12.

(** [xs] joined: the first element behind [d], each other one behind ", ". *)
Fixpoint separated (d : string) (xs : list string) : string :=
  match xs with
  | [] => ""
  | x :: rest => d +:+ x +:+ separated ", " rest
  end.

Definition comma_separated (xs : list string) : string := separated "" xs.

Definition assignment (column placeholder : string) : string :=
  column +:+ " = " +:+ placeholder.

Arguments record_at : simpl never.
Arguments sequence_at : simpl never.
Arguments error_at : simpl never.

(** ** The statements of the other functions *)

Definition select_all_sql (fields tbl : string) : string :=
  nl +:+ sp16 +:+ "SELECT " +:+ fields +:+ " " +:+ nl +:+
  sp16 +:+ "FROM " +:+ tbl +:+ "  " +:+ nl +:+ sp12.

Definition select_sql (fields tbl criteria : string) : string :=
  nl +:+ sp16 +:+ "SELECT " +:+ fields +:+ " " +:+ nl +:+
  sp16 +:+ "FROM " +:+ tbl +:+ " " +:+ nl +:+
  sp16 +:+ "WHERE " +:+ criteria +:+ " " +:+ nl +:+ sp12.

Definition insert_sql (tbl names nbrs returning : string) : string :=
  nl +:+ sp16 +:+ "INSERT INTO " +:+ tbl +:+ " (" +:+ names +:+ ")  " +:+ nl +:+
  sp16 +:+ "VALUES (" +:+ nbrs +:+ ") " +:+ nl +:+
  sp16 +:+ "RETURNING " +:+ returning +:+ " " +:+ nl +:+ sp12.

Definition delete_sql (tbl criteria names : string) : string :=
  nl +:+ sp16 +:+ "DELETE FROM " +:+ tbl +:+ "  " +:+ nl +:+
  sp16 +:+ "WHERE " +:+ criteria +:+ " " +:+ nl +:+
  sp16 +:+ "RETURNING " +:+ names +:+ nl +:+ sp12.

(** One statement with the text [sql] and the values of property [k] of
    [data], as they are when the call is made. *)
Definition statement_of (h : list object) (sql : string) (data : value)
  (k : string) : statement :=
  Statement sql (read_prop h data k) (elems_at h (read_prop h data k)).

(** A call that resolves with a failure envelope whose message is a
    [TypeError], and sends nothing to the store. *)
Definition reports_TypeError (w : world) (r : outcome settled * world) : Prop :=
  match r with
  | (Ok (Resolved envelope), w') =>
      success_of (heap w') envelope = VBool false /\
      (exists ps, error_at (heap w') (message_of (heap w') envelope)
                  = Some ("TypeError", ps)) /\
      issued w' = issued w
  | _ => False
  end.

(** Every object of [h] is in [h'] as it was. *)
Definition keeps (h h' : list object) : Prop :=
  forall l o, h !! l = Some o -> h' !! l = Some o.

(** Every object of [h] but the one [a] refers to is in [h'] as it was. *)
Definition keeps_but (a : value) (h h' : list object) : Prop :=
  forall l o, VRef l <> a -> h !! l = Some o -> h' !! l = Some o.

(** ** What a handler answers *)

(** The properties of the error a handler builds. *)
Definition next_error (status : Z) (message : string) : gmap string value :=
  <[ "status" := VNum status ]> {[ "message" := VStr message ]}.

(** The handler hands [next] an [Error] with this status and message. *)
Definition passes_error (status : Z) (message : string)
  (r : handled * world) : Prop :=
  match r with
  | (CallNext e, w') =>
      error_at (heap w') e = Some ("Error", next_error status message)
  | _ => False
  end.

(** The handler hands [next] an [Error] with this status. *)
Definition passes_status (status : Z) (r : handled * world) : Prop :=
  match r with
  | (CallNext e, w') =>
      exists ps, error_at (heap w') e = Some ("Error", ps) /\
                 ps !! "status" = Some (VNum status)
  | _ => False
  end.

(** The handler sends, with status 200, a body that satisfies [P]. *)
Definition sends_json (P : list object -> value -> Prop)
  (r : handled * world) : Prop :=
  match r with
  | (SendJson status body, w') => status = 200 /\ P (heap w') body
  | _ => False
  end.

(** The handler hands [next] an [Error] with this status and message, and
    has sent the store nothing. *)
Definition refuses (status : Z) (message : string) (w : world)
  (r : handled * world) : Prop :=
  passes_error status message r /\ issued r.2 = issued w.

(** The heap once [delete o.k] has run. *)
Definition removed (h : list object) (o : value) (k : string) : list object :=
  match o with
  | VRef l => match h !! l with
              | Some (OObj ps) => <[l := OObj (delete k ps)]> h
              | Some (OErr n ps) => <[l := OErr n (delete k ps)]> h
              | _ => h
              end
  | _ => h
  end.

(** The placeholders that [argumentsNbr] lacks read as the text of
    [undefined]. *)
Definition padded (n : nat) (placeholders : list string) : list string :=
  placeholders ++ replicate (n - length placeholders) "undefined".

(** ** Sample data *)

(** An object whose text is the one of a plain object. *)
Definition plain_text (h : list object) (l : loc) : string := "[object Object]".

(** Host bindings the sample does not look into. *)
Definition no_host (x : string) : value := VNull.

Definition invoice_1 : gmap string value :=
  {[ "id" := VNum 1; "comp_code" := VStr "apple"; "amt" := VNum 100;
     "paid" := VBool false ]}.

Definition invoice_2 : gmap string value :=
  {[ "id" := VNum 2; "comp_code" := VStr "ibm"; "amt" := VNum 200;
     "paid" := VBool true ]}.

(** A heap holding, in this order: the criteria of an update of invoice 1
    and its three arrays and [updateData]; the values and the [selectData]
    (also fit as [deleteData]) of a lookup of invoice 1; the parameters, the
    request and its body; what [checkNumbers] and [prepareUpdateData]
    return for that request. *)
Definition sample_world : world :=
  World
    [ OObj {[ "pk" := VStr "id"; "value" := VNum 1 ]};
      OArr [VStr "$1"];
      OArr [VNum 500];
      OArr [VStr "amt"];
      OObj {[ "argumentsNbr" := VRef 1; "argumentsValues" := VRef 2;
              "argumentsName" := VRef 3 ]};
      OArr [VNum 1];
      OObj {[ "criteria" := VStr "id = $1"; "criteriaValues" := VRef 5;
              "selectFields" := VStr "id, comp_code, amt, paid";
              "argumentsName" := VStr "id, comp_code, amt, paid" ]};
      OObj {[ "id" := VStr "1" ]};
      OObj {[ "params" := VRef 7; "body" := VRef 9 ]};
      OObj {[ "amt" := VNum 500 ]};
      OObj {[ "numberIsValid" := VBool true; "validatedNumber" := VNum 1 ]};
      OObj {[ "success" := VBool true; "updateData" := VRef 4 ]} ]
    [].

Definition sample_criteria : value := VRef 0.
Definition sample_updateData : value := VRef 4.
Definition sample_selectData : value := VRef 6.
Definition sample_req : value := VRef 8.
Definition sample_number : value := VRef 10.
Definition sample_preparation : value := VRef 11.

(** An update whose [updateData] carries none of its arrays. *)
Definition bare_world : world :=
  World [ OObj {[ "pk" := VStr "id"; "value" := VNum 1 ]}; OObj ∅ ] [].

(** An update that names two columns and gives one placeholder. *)
Definition short_world : world :=
  World
    [ OObj {[ "pk" := VStr "id"; "value" := VNum 1 ]};
      OArr [VStr "$1"];
      OArr [VNum 500; VBool true];
      OArr [VStr "amt"; VStr "paid"];
      OObj {[ "argumentsNbr" := VRef 1; "argumentsValues" := VRef 2;
              "argumentsName" := VRef 3 ]} ]
    [].

Definition company_apple : gmap string value :=
  {[ "code" := VStr "apple"; "name" := VStr "Apple Computer";
     "description" := VStr "Maker of OSX." ]}.

(** A heap holding, in this order: a request whose id is no number, with a
    body that lacks [amt], and what [checkNumbers] returns for it; a request
    for invoice 7 with the same body, and what [checkNumbers] returns for it;
    what the preparation of that body returns; the values and the
    [insertData] of a full body, that body, its request, and what its
    preparation returns. *)
Definition request_world : world :=
  World
    [ OObj {[ "id" := VStr "abc" ]};
      OObj {[ "comp_code" := VStr "apple" ]};
      OObj {[ "params" := VRef 0; "body" := VRef 1 ]};
      OObj {[ "numberIsValid" := VBool false;
              "message" := VStr "is not a number" ]};
      OObj {[ "id" := VStr "7" ]};
      OObj {[ "params" := VRef 4; "body" := VRef 1 ]};
      OObj {[ "numberIsValid" := VBool true; "validatedNumber" := VNum 7 ]};
      OObj {[ "success" := VBool false; "error" := VStr "amt is required" ]};
      OArr [VStr "apple"; VNum 100];
      OObj {[ "argumentsName" := VStr "comp_code, amt";
              "argumentsNbr" := VStr "$1, $2";
              "argumentsValues" := VRef 8 ]};
      OObj {[ "comp_code" := VStr "apple"; "amt" := VNum 100 ]};
      OObj {[ "body" := VRef 10 ]};
      OObj {[ "success" := VBool true; "insertData" := VRef 9 ]} ]
    [].

Definition unnumbered_req : value := VRef 2.
Definition unnumbered_check : value := VRef 3.
Definition numbered_req : value := VRef 5.
Definition numbered_check : value := VRef 6.
Definition failed_preparation : value := VRef 7.
Definition sample_insertData : value := VRef 9.
Definition post_req : value := VRef 11.
Definition insert_preparation : value := VRef 12.
(** * The heap under allocation *)

Lemma lookup_alloc (h : list object) (o : object) :
  (h ++ [o]) !! length h = Some o.
Proof. by apply list_lookup_middle. Qed.

Lemma lookup_alloc_2 (h : list object) (o1 o2 : object) :
  (h ++ [o1; o2]) !! S (length h) = Some o2.
Proof.
  change (h ++ [o1; o2]) with (h ++ [o1] ++ [o2]).
  rewrite app_assoc. apply list_lookup_middle. rewrite length_app. simpl. lia.
Qed.

Lemma record_at_app (h ext : list object) v r :
  record_at h v = Some r -> record_at (h ++ ext) v = Some r.
Proof.
  unfold record_at. destruct v; try done.
  destruct (h !! l) as [o|] eqn:E; [|done].
  by rewrite (lookup_app_l_Some _ _ _ _ E).
Qed.

Lemma error_at_app (h ext : list object) v r :
  error_at h v = Some r -> error_at (h ++ ext) v = Some r.
Proof.
  unfold error_at. destruct v; try done.
  destruct (h !! l) as [o|] eqn:E; [|done].
  by rewrite (lookup_app_l_Some _ _ _ _ E).
Qed.

Lemma elems_at_app (h ext : list object) v xs :
  elems_at h v = Some xs -> elems_at (h ++ ext) v = Some xs.
Proof.
  unfold elems_at. destruct v; try done.
  destruct (h !! l) as [o|] eqn:E; [|done].
  by rewrite (lookup_app_l_Some _ _ _ _ E).
Qed.

Lemma sequence_at_app (h ext : list object) v rs :
  sequence_at h v = Some rs -> sequence_at (h ++ ext) v = Some rs.
Proof.
  unfold sequence_at. destruct (elems_at h v) as [xs|] eqn:E; [|done].
  rewrite (elems_at_app _ ext _ _ E). intros H.
  apply mapM_Some in H. apply mapM_Some.
  eapply Forall2_impl; [exact H|]. intros x y. apply record_at_app.
Qed.

Lemma record_not_sequence (h : list object) (v : value) r :
  record_at h v = Some r -> sequence_at h v = None.
Proof.
  unfold sequence_at, record_at, elems_at. destruct v; try done.
  by destruct (h !! l) as [[]|].
Qed.

Lemma read_prop_app (h ext : list object) l o k :
  h !! l = Some o -> read_prop (h ++ ext) (VRef l) k = read_prop h (VRef l) k.
Proof. intros E. unfold read_prop. by rewrite (lookup_app_l_Some _ _ _ _ E), E. Qed.

Lemma read_prop_record (h : list object) (v : value) ps (k : string) :
  record_at h v = Some ps -> read_prop h v k = default VUndefined (ps !! k).
Proof.
  unfold record_at, read_prop. destruct v; try done.
  destruct (h !! l) as [[]|]; try done. by intros [= ->].
Qed.

Lemma props_at_record (h : list object) (v : value) ps :
  record_at h v = Some ps -> props_at h v = ps.
Proof.
  unfold record_at, props_at. destruct v; try done.
  destruct (h !! l) as [[]|]; try done. by intros [= ->].
Qed.

Lemma read_prop_live_app (h ext : list object) (v : value) (k : string) :
  live h v = true -> read_prop (h ++ ext) v k = read_prop h v k.
Proof.
  unfold live, read_prop. destruct v as [| | | | | |l]; try done.
  intros Hl%bool_decide_eq_true. by rewrite lookup_app_l.
Qed.

Lemma live_app (h ext : list object) (v : value) :
  live h v = true -> live (h ++ ext) v = true.
Proof.
  unfold live. destruct v as [| | | | | |l]; try done.
  rewrite !bool_decide_eq_true, length_app. lia.
Qed.

Lemma read_last (h : list object) (ps : gmap string value) (k : string) :
  read_prop (h ++ [OObj ps]) (VRef (length h)) k = default VUndefined (ps !! k).
Proof. unfold read_prop. by rewrite lookup_alloc. Qed.

(** An envelope and its error object, allocated last. *)
Lemma is_envelope_fresh (h : list object) (eps ps : gmap string value) :
  ps !! "error" = Some (VRef (length h)) ->
  is_envelope ((h ++ [OObj eps]) ++ [OObj ps])
    (VRef (length (h ++ [OObj eps]))) ps eps.
Proof.
  intros E. split.
  - unfold record_at. by rewrite lookup_alloc.
  - rewrite E. cbn [from_option id]. apply record_at_app.
    unfold record_at. by rewrite lookup_alloc.
Qed.

Lemma is_envelope_success (h : list object) (envelope : value) ps eps :
  is_envelope h envelope ps eps ->
  success_of h envelope = default VUndefined (ps !! "success").
Proof. intros [H _]. by apply read_prop_record. Qed.

Lemma is_envelope_message (h : list object) (envelope : value) ps eps :
  is_envelope h envelope ps eps ->
  message_of h envelope = default VUndefined (eps !! "message").
Proof.
  intros [H1 H2]. unfold message_of.
  rewrite (read_prop_record _ _ _ _ H1). by apply read_prop_record.
Qed.

Lemma is_envelope_field (h : list object) (envelope : value) ps eps k :
  is_envelope h envelope ps eps ->
  read_prop h envelope k = default VUndefined (ps !! k).
Proof. intros [H _]. by apply read_prop_record. Qed.

(** * Running the primitives *)

Lemma get_prop_ok (v : value) (k : string) (w : world) :
  nullish v = false -> get_prop v k w = (Ok (read_prop (heap w) v k), w).
Proof. by destruct v. Qed.

Lemma get_index_ok (v : value) (i : nat) (w : world) :
  nullish v = false -> get_index v i w = (Ok (read_index (heap w) v i), w).
Proof. by destruct v. Qed.

(** A read on [undefined] or [null] throws a [TypeError]. *)
Lemma get_prop_nullish (v : value) (k : string) (w : world) :
  nullish v = true ->
  exists msg,
    get_prop v k w =
      (Throw (VRef (length (heap w))),
       World (heap w ++ [OErr "TypeError" {[ "message" := VStr msg ]}])
             (issued w)).
Proof. destruct v; try done; intros _; by eexists. Qed.

Lemma get_index_nullish (v : value) (i : nat) (w : world) :
  nullish v = true ->
  exists msg,
    get_index v i w =
      (Throw (VRef (length (heap w))),
       World (heap w ++ [OErr "TypeError" {[ "message" := VStr msg ]}])
             (issued w)).
Proof. destruct v; try done; intros _; by eexists. Qed.

Lemma alloc_all_run (os : list object) (w : world) :
  alloc_all os w =
    (Ok (VRef <$> seq (length (heap w)) (length os)),
     World (heap w ++ os) (issued w)).
Proof.
  revert w. induction os as [|o os IH]; intros w.
  - simpl. unfold ret. rewrite app_nil_r. by destruct w.
  - cbn [alloc_all]. unfold bind. cbn [alloc]. rewrite IH.
    cbn [heap issued ret length seq fmap list_fmap].
    rewrite length_app, <- app_assoc. simpl.
    by replace (length (heap w) + 1)%nat with (S (length (heap w))) by lia.
Qed.

Lemma db_query_rows rows sql params (w : world) :
  db_query (SRows rows) sql params w =
    (Ok (VRef (S (length (heap w) + length rows))),
     World (heap w ++ driver_result (heap w) rows)
           (issued w ++ [Statement sql params (elems_at (heap w) params)])).
Proof.
  unfold db_query, bind. rewrite alloc_all_run.
  unfold new_array, new_object, alloc, driver_result. cbn [heap issued].
  rewrite length_fmap. rewrite <- !app_assoc. cbn [app].
  rewrite !length_app, length_fmap. cbn [length].
  by replace (length (heap w) + (length rows + 1))%nat
    with (S (length (heap w) + length rows)) by lia.
Qed.

Lemma db_query_fail err sql params (w : world) :
  db_query (SFail err) sql params w =
    (Throw (VRef (length (heap w))),
     World (heap w ++ [err])
           (issued w ++ [Statement sql params (elems_at (heap w) params)])).
Proof. reflexivity. Qed.

(** * What the driver's result looks like *)

Lemma driver_lookup_result (h : list object) (rows : list (gmap string value)) :
  (h ++ driver_result h rows) !! S (length h + length rows) =
    Some (OObj {[ "rows" := VRef (length h + length rows)%nat;
                  "rowCount" := VNum (Z.of_nat (length rows)) ]}).
Proof.
  unfold driver_result. rewrite app_assoc.
  rewrite <- (lookup_alloc_2 (h ++ (OObj <$> rows))
                (OArr (VRef <$> seq (length h) (length rows)))).
  by rewrite length_app, length_fmap.
Qed.

Lemma driver_lookup_array (h : list object) (rows : list (gmap string value)) :
  (h ++ driver_result h rows) !! (length h + length rows)%nat =
    Some (OArr (VRef <$> seq (length h) (length rows))).
Proof.
  unfold driver_result. rewrite app_assoc.
  apply list_lookup_middle. by rewrite length_app, length_fmap.
Qed.

Lemma driver_lookup_row (h : list object) (rows : list (gmap string value))
  (i : nat) (r : gmap string value) :
  rows !! i = Some r ->
  (h ++ driver_result h rows) !! (length h + i)%nat = Some (OObj r).
Proof.
  intros E. unfold driver_result. rewrite lookup_app_r by lia.
  replace (length h + i - length h)%nat with i by lia.
  apply lookup_app_l_Some. by rewrite list_lookup_fmap, E.
Qed.

Lemma driver_rows_prop (h : list object) (rows : list (gmap string value)) :
  read_prop (h ++ driver_result h rows)
    (VRef (S (length h + length rows))) "rows"
  = VRef (length h + length rows)%nat.
Proof. unfold read_prop. rewrite driver_lookup_result. by simplify_map_eq. Qed.

Lemma driver_rows_length (h : list object) (rows : list (gmap string value)) :
  read_prop (h ++ driver_result h rows)
    (VRef (length h + length rows)%nat) "length"
  = VNum (Z.of_nat (length rows)).
Proof.
  unfold read_prop. rewrite driver_lookup_array. simpl.
  by rewrite length_fmap, length_seq.
Qed.

Lemma driver_rows_first (h : list object) (rows : list (gmap string value)) :
  read_index (h ++ driver_result h rows)
    (VRef (length h + length rows)%nat) 0
  = match rows with
    | [] => VUndefined
    | _ :: _ => VRef (length h)
    end.
Proof. unfold read_index. rewrite driver_lookup_array. by destruct rows. Qed.

Lemma driver_record (h : list object) (rows : list (gmap string value))
  (i : nat) (r : gmap string value) :
  rows !! i = Some r ->
  record_at (h ++ driver_result h rows) (VRef (length h + i)%nat) = Some r.
Proof. intros E. unfold record_at. by rewrite (driver_lookup_row _ _ _ _ E). Qed.

Lemma driver_record_first (h : list object) (r : gmap string value) rest :
  record_at (h ++ driver_result h (r :: rest)) (VRef (length h)) = Some r.
Proof.
  pose proof (driver_record h (r :: rest) 0 r eq_refl) as H.
  by rewrite Nat.add_0_r in H.
Qed.

Lemma driver_sequence (h : list object) (rows : list (gmap string value)) :
  sequence_at (h ++ driver_result h rows) (VRef (length h + length rows)%nat)
  = Some rows.
Proof.
  unfold sequence_at, elems_at. rewrite driver_lookup_array.
  apply mapM_Some. apply Forall2_same_length_lookup_2.
  - by rewrite length_fmap, length_seq.
  - intros i v r Hv Hr. rewrite list_lookup_fmap in Hv.
    destruct (seq (length h) (length rows) !! i) as [n|] eqn:En; [|done].
    apply lookup_seq in En as [-> _]. injection Hv as <-.
    by apply driver_record.
Qed.

Lemma driver_fresh_sequence (h ext : list object)
  (rows : list (gmap string value)) :
  fresh_sequence h ((h ++ driver_result h rows) ++ ext)
    (VRef (length h + length rows)%nat).
Proof.
  split.
  - unfold live. apply bool_decide_eq_false. lia.
  - exists (VRef <$> seq (length h) (length rows)). split.
    + apply elems_at_app. unfold elems_at. by rewrite driver_lookup_array.
    + apply Forall_fmap, Forall_forall. intros n Hn%elem_of_seq.
      unfold live. cbn. apply bool_decide_eq_false. lia.
Qed.

(** Reading the driver's result where the code does. *)
Ltac driver :=
  repeat first
    [ rewrite driver_rows_prop
    | rewrite driver_rows_length
    | rewrite driver_rows_first
    | progress cbn [get_prop get_index heap] ].

(** Reading the properties of an argument that is there. *)
Ltac reads v :=
  repeat first
    [ rewrite (get_prop_ok v) by done
    | progress cbn [to_string] ].

(** Building the envelope and resolving with it. *)
Ltac envelope :=
  cbn [new_object alloc resolve ret heap issued];
  eexists _, _; split; [reflexivity|]; cbn [heap issued].

(** * What each function does *)

Lemma grows_refl (h : list object) : grows h h.
Proof. exists []. by rewrite app_nil_r. Qed.

Lemma grows_app (h h' ext : list object) : grows h h' -> grows h (h' ++ ext).
Proof. intros [e ->]. exists (e ++ ext). by rewrite app_assoc. Qed.

Lemma grows_app_r (h ext : list object) : grows h (h ++ ext).
Proof. by exists ext. Qed.

Lemma lookup_kept (h : list object) (o : object) (ext1 ext2 : list object) :
  (((h ++ [o]) ++ ext1) ++ ext2) !! length h = Some o.
Proof. do 2 apply lookup_app_l_Some. apply lookup_alloc. Qed.

Lemma error_at_kept (h : list object) name ps (ext1 ext2 : list object) :
  error_at (((h ++ [OErr name ps]) ++ ext1) ++ ext2) (VRef (length h))
  = Some (name, ps).
Proof. unfold error_at. by rewrite lookup_kept. Qed.

Create HintDb heap.
#[local] Hint Resolve grows_refl grows_app grows_app_r : heap.

(** ** select-all *)

Lemma dbSelectAll_run (selectFields table : value) (reply : store_reply)
  (w : world) :
  exists envelope w',
    dbSelectAll selectFields table reply w = (Ok (Resolved envelope), w') /\
    grows (heap w) (heap w') /\
    exists payload error,
      match reply with
      | SRows rows =>
          is_envelope (heap w') envelope (success_envelope payload error)
            {[ "message" := VStr "" ]} /\
          sequence_at (heap w') payload = Some rows
      | SFail err =>
          is_envelope (heap w') envelope (failure_envelope (VStr "") error)
            {[ "message" := payload ]} /\
          exists e, payload = VRef e /\ heap w' !! e = Some err
      end.
Proof.
  unfold dbSelectAll, async, new_Promise, try_catch, bind.
  cbn [to_string].
  destruct reply as [rows|err].
  - rewrite db_query_rows. driver. envelope.
    split; [auto with heap|]. eexists _, _. split.
    + by apply is_envelope_fresh.
    + rewrite <- app_assoc. apply sequence_at_app, driver_sequence.
  - rewrite db_query_fail. envelope.
    split; [auto with heap|]. eexists _, _. split.
    + by apply is_envelope_fresh.
    + eexists. split; [done|]. apply lookup_kept.
Qed.

(** ** select-by-criteria *)

Lemma fresh_envelope (h ext : list object) (o : object) :
  live h (VRef (length ((h ++ ext) ++ [o]))) = false.
Proof. unfold live. apply bool_decide_eq_false. rewrite !length_app. lia. Qed.


Lemma dbSelect_run (selectData table : value) (reply : store_reply)
  (w : world) :
  nullish selectData = false ->
  exists envelope w',
    dbSelect selectData table reply w = (Ok (Resolved envelope), w') /\
    grows (heap w) (heap w') /\
    live (heap w) envelope = false /\
    exists payload error,
      match reply with
      | SRows [] =>
          is_envelope (heap w') envelope (failure_envelope (VStr "") error)
            {[ "message" := VStr "not found" ]}
      | SRows [row] =>
          is_envelope (heap w') envelope (success_envelope payload error)
            {[ "message" := VStr "" ]} /\
          record_at (heap w') payload = Some row /\
          live (heap w') payload = true /\ live (heap w) payload = false
      | SRows rows =>
          is_envelope (heap w') envelope (success_envelope payload error)
            {[ "message" := VStr "" ]} /\
          sequence_at (heap w') payload = Some rows /\
          fresh_sequence (heap w) (heap w') payload
      | SFail err =>
          is_envelope (heap w') envelope (failure_envelope (VStr "") error)
            {[ "message" := payload ]} /\
          exists e, payload = VRef e /\ heap w' !! e = Some err
      end.
Proof.
  intros Hsel.
  unfold dbSelect, async, new_Promise, try_catch, bind.
  rewrite !(get_prop_ok selectData) by done. cbn [to_string].
  rewrite (get_prop_ok selectData) by done.
  rewrite (get_prop_ok selectData) by done.
  destruct reply as [[|row [|row' rows']]|err].
  - rewrite db_query_rows. driver.
    cbn [greater_than length Z.of_nat Z.ltb Z.compare]. envelope.
    split; [auto with heap|]. split; [apply fresh_envelope|]. exists VUndefined. eexists.
    by apply is_envelope_fresh.
  - rewrite db_query_rows. driver.
    change (greater_than (VNum (Z.of_nat (length [row]))) 0) with true.
    cbn iota. driver.
    change (strict_eq (VNum (Z.of_nat (length [row]))) (VNum 1)) with true.
    cbn iota. driver. envelope.
    split; [auto with heap|]. split; [apply fresh_envelope|]. eexists _, _. split_and!.
    + by apply is_envelope_fresh.
    + rewrite <- app_assoc. apply record_at_app, driver_record_first.
    + unfold live. apply bool_decide_eq_true. rewrite !length_app. simpl. lia.
    + unfold live. apply bool_decide_eq_false. lia.
  - rewrite db_query_rows. driver.
    replace (greater_than (VNum (Z.of_nat (length (row :: row' :: rows')))) 0)
      with true by (symmetry; apply Z.ltb_lt; simpl length; lia).
    cbn iota. driver.
    replace (strict_eq (VNum (Z.of_nat (length (row :: row' :: rows')))) (VNum 1))
      with false by (symmetry; apply Z.eqb_neq; simpl length; lia).
    cbn iota. driver. envelope.
    split; [auto with heap|]. split; [apply fresh_envelope|].
    eexists _, _. split_and!.
    + by apply is_envelope_fresh.
    + rewrite <- app_assoc. apply sequence_at_app, driver_sequence.
    + rewrite <- app_assoc. apply driver_fresh_sequence.
  - rewrite db_query_fail. envelope.
    split; [auto with heap|]. split; [apply fresh_envelope|]. eexists _, _. split.
    + by apply is_envelope_fresh.
    + eexists. split; [done|]. apply lookup_kept.
Qed.

(** A read on an absent argument is caught like an error of the store. *)
Lemma dbSelect_run_nullish (selectData table : value) (reply : store_reply)
  (w : world) :
  nullish selectData = true ->
  exists envelope w',
    dbSelect selectData table reply w = (Ok (Resolved envelope), w') /\
    grows (heap w) (heap w') /\
    exists e error ps,
      is_envelope (heap w') envelope (failure_envelope (VStr "") error)
        {[ "message" := VRef e ]} /\
      error_at (heap w') (VRef e) = Some ("TypeError", ps).
Proof.
  intros Hsel.
  unfold dbSelect, async, new_Promise, try_catch, bind.
  destruct (get_prop_nullish selectData "selectFields" w Hsel) as [msg ->].
  envelope. split; [auto with heap|]. eexists _, _, _. split.
  - by apply is_envelope_fresh.
  - apply error_at_kept.
Qed.
(** ** insert *)

Lemma dbInsert_run (insertData table returnFields : value)
  (reply : store_reply) (w : world) :
  nullish insertData = false ->
  exists envelope w',
    dbInsert insertData table returnFields reply w
      = (Ok (Resolved envelope), w') /\
    grows (heap w) (heap w') /\
    exists payload error,
      match reply with
      | SRows rows =>
          is_envelope (heap w') envelope (success_envelope payload error)
            {[ "message" := VStr "" ]} /\
          match rows with
          | [] => payload = VUndefined
          | row :: _ => record_at (heap w') payload = Some row
          end
      | SFail err =>
          is_envelope (heap w') envelope (insert_failure error)
            {[ "message" := payload ]} /\
          exists e, payload = VRef e /\ heap w' !! e = Some err
      end.
Proof.
  intros Hins.
  unfold dbInsert, async, new_Promise, try_catch, bind.
  reads insertData.
  destruct reply as [rows|err].
  - rewrite db_query_rows. driver. envelope.
    split; [auto with heap|]. eexists _, _. split.
    + by apply is_envelope_fresh.
    + destruct rows as [|row rows]; [done|].
      rewrite <- app_assoc. apply record_at_app, driver_record_first.
  - rewrite db_query_fail. envelope.
    split; [auto with heap|]. eexists _, _. split.
    + by apply is_envelope_fresh.
    + eexists. split; [done|]. apply lookup_kept.
Qed.

Lemma dbInsert_run_nullish (insertData table returnFields : value)
  (reply : store_reply) (w : world) :
  nullish insertData = true ->
  exists envelope w',
    dbInsert insertData table returnFields reply w
      = (Ok (Resolved envelope), w') /\
    grows (heap w) (heap w') /\
    exists e error ps,
      is_envelope (heap w') envelope (insert_failure error)
        {[ "message" := VRef e ]} /\
      error_at (heap w') (VRef e) = Some ("TypeError", ps).
Proof.
  intros Hins.
  unfold dbInsert, async, new_Promise, try_catch, bind. cbn [to_string].
  destruct (get_prop_nullish insertData "argumentsName" w Hins) as [msg ->].
  envelope. split; [auto with heap|]. eexists _, _, _. split.
  - by apply is_envelope_fresh.
  - apply error_at_kept.
Qed.

(** ** delete *)

Lemma dbDelete_run (deleteData table : value) (reply : store_reply)
  (w : world) :
  nullish deleteData = false ->
  exists envelope w',
    dbDelete deleteData table reply w = (Ok (Resolved envelope), w') /\
    grows (heap w) (heap w') /\
    exists status payload error,
      match reply with
      | SRows [] =>
          is_envelope (heap w') envelope (delete_failure status error)
            {[ "message" := VStr "not found" ]}
      | SRows rows =>
          is_envelope (heap w') envelope (delete_success status payload error)
            {[ "message" := VStr "" ]} /\
          sequence_at (heap w') payload = Some rows
      | SFail err =>
          is_envelope (heap w') envelope (delete_failure status error)
            {[ "message" := payload ]} /\
          exists e, payload = VRef e /\ heap w' !! e = Some err
      end /\
      record_at (heap w') status
        = Some match reply with
               | SRows (_ :: _) => {[ "status" := VStr "deleted" ]}
               | _ => ∅
               end.
Proof.
  intros Hdel.
  unfold dbDelete, async, new_Promise, try_catch, bind.
  reads deleteData.
  destruct reply as [[|row rows]|err].
  - rewrite db_query_rows. driver.
    cbn [greater_than length Z.of_nat Z.ltb Z.compare]. envelope.
    split; [auto with heap|]. eexists _, VUndefined, _. split.
    + by apply is_envelope_fresh.
    + do 2 apply record_at_app. unfold record_at. by rewrite lookup_alloc.
  - rewrite db_query_rows. driver.
    replace (greater_than (VNum (Z.of_nat (length (row :: rows)))) 0)
      with true by (symmetry; apply Z.ltb_lt; simpl length; lia).
    cbn iota. cbn [new_object alloc bind]. driver.
    rewrite (read_prop_app _ [_] _ _ _ (driver_lookup_result _ _)).
    driver. envelope.
    split; [auto with heap|]. eexists _, _, _. split_and!.
    + by apply is_envelope_fresh.
    + do 3 apply sequence_at_app. apply driver_sequence.
    + do 2 apply record_at_app. unfold record_at. by rewrite lookup_alloc.
  - rewrite db_query_fail. envelope.
    split; [auto with heap|]. eexists _, _, _. split_and!.
    + by apply is_envelope_fresh.
    + eexists. split; [done|].
      do 3 apply lookup_app_l_Some. apply lookup_alloc.
    + do 2 apply record_at_app. unfold record_at. by rewrite lookup_alloc.
Qed.

Lemma dbDelete_run_nullish (deleteData table : value) (reply : store_reply)
  (w : world) :
  nullish deleteData = true ->
  exists envelope w',
    dbDelete deleteData table reply w = (Ok (Resolved envelope), w') /\
    grows (heap w) (heap w') /\
    exists e message error ps,
      is_envelope (heap w') envelope (delete_failure message error)
        {[ "message" := VRef e ]} /\
      error_at (heap w') (VRef e) = Some ("TypeError", ps).
Proof.
  intros Hdel.
  unfold dbDelete, async, new_Promise, try_catch, bind. cbn [to_string].
  destruct (get_prop_nullish deleteData "criteria" w Hdel) as [msg ->].
  envelope. split; [auto with heap|]. eexists _, _, _, _. split.
  - by apply is_envelope_fresh.
  - apply error_at_app, error_at_kept.
Qed.
(** ** update *)

Lemma append_assoc (a b c : string) : (a +:+ b) +:+ c = a +:+ b +:+ c.
Proof.
  induction a as [|x a IH]; [done|].
  change (String x ((a +:+ b) +:+ c) = String x (a +:+ b +:+ c)). by f_equal.
Qed.

Lemma append_empty_r (a : string) : a +:+ "" = a.
Proof.
  induction a as [|x a IH]; [done|].
  change (String x (a +:+ "") = String x a). by f_equal.
Qed.

Lemma build_clauses_ok (updateData : value) (fields : list value)
  (cl : clauses) (w : world) :
  nullish updateData = false ->
  nullish (read_prop (heap w) updateData "argumentsNbr") = false ->
  build_clauses updateData fields cl w =
    (Ok (clauses_of (heap w) (read_prop (heap w) updateData "argumentsNbr")
           fields cl), w).
Proof.
  intros Hu Hn. revert cl. induction fields as [|f fields IH]; intros cl.
  - reflexivity.
  - cbn [build_clauses clauses_of]. unfold bind at 1. cbn [to_string].
    unfold bind at 1. rewrite get_prop_ok by done.
    unfold bind at 1. rewrite get_index_ok by done.
    unfold bind at 1. cbn [to_string]. unfold bind at 1. cbn [to_string].
    apply IH.
Qed.

(** With no [argumentsNbr] to index, the first turn of the loop throws. *)
Lemma build_clauses_throws (updateData field : value) (rest : list value)
  (cl : clauses) (w : world) :
  nullish updateData = false ->
  nullish (read_prop (heap w) updateData "argumentsNbr") = true ->
  exists msg,
    build_clauses updateData (field :: rest) cl w =
      (Throw (VRef (length (heap w))),
       World (heap w ++ [OErr "TypeError" {[ "message" := VStr msg ]}])
             (issued w)).
Proof.
  intros Hu Hn. cbn [build_clauses]. unfold bind at 1. cbn [to_string].
  unfold bind at 1. rewrite get_prop_ok by done.
  unfold bind at 1.
  destruct (get_index_nullish _ (idx cl) w Hn) as [msg ->]. by eexists.
Qed.

Lemma array_push_ok (a v : value) (w : world) :
  is_array (heap w) a = true ->
  exists n, array_push a v w = (Ok n, World (pushed (heap w) a v) (issued w)).
Proof.
  unfold is_array, elems_at, array_push, pushed.
  destruct a as [| | | | | |l]; try done.
  destruct (heap w !! l) as [[xs|ps|n ps]|]; try done. eauto.
Qed.

Lemma array_push_throws (a v : value) (w : world) :
  is_array (heap w) a = false ->
  exists msg,
    array_push a v w =
      (Throw (VRef (length (heap w))),
       World (heap w ++ [OErr "TypeError" {[ "message" := VStr msg ]}])
             (issued w)).
Proof.
  unfold is_array, elems_at, array_push.
  destruct a as [| | | | | |l]; try (intros _; by eexists).
  destruct (heap w !! l) as [[xs|ps|n ps]|]; try done; intros _; by eexists.
Qed.

Lemma iterate_throws (v : value) (w : world) :
  elements_of (heap w) v = None ->
  exists msg,
    iterate v w =
      (Throw (VRef (length (heap w))),
       World (heap w ++ [OErr "TypeError" {[ "message" := VStr msg ]}])
             (issued w)).
Proof. intros E. unfold iterate. rewrite E. by eexists. Qed.

(** On ready arguments [dbUpdate] pushes the key value and goes on to its
    promise with the clauses it has built. *)
Lemma dbUpdate_prefix (whereCriteria updateData table : value)
  (reply : store_reply) (w : world) :
  update_ready (heap w) whereCriteria updateData = true ->
  dbUpdate whereCriteria updateData table reply w =
    async (new_Promise
      (dbUpdate_executor updateData table
         (setClause (update_clauses (heap w) whereCriteria updateData))
         (update_where (heap w) whereCriteria updateData)
         (returningClause (update_clauses (heap w) whereCriteria updateData))
         reply))
      (World (update_pushed (heap w) whereCriteria updateData) (issued w)).
Proof.
  unfold update_ready. rewrite !andb_true_iff, !negb_true_iff.
  intros [[[[Hw Hu] Hn] Hb] Ha].
  destruct (elements_of (heap w) (read_prop (heap w) updateData "argumentsName"))
    as [fields|] eqn:Ef; [|done].
  destruct (array_push_ok _ (read_prop (heap w) whereCriteria "value") w Ha)
    as [n Hpush].
  unfold dbUpdate, async at 1.
  unfold bind at 1. rewrite get_prop_ok by done.
  unfold bind at 1. cbn [to_string].
  unfold bind at 1. rewrite get_prop_ok by done.
  unfold bind at 1. unfold iterate. rewrite Ef.
  unfold bind at 1. rewrite build_clauses_ok by done.
  unfold bind at 1. rewrite get_prop_ok by done.
  unfold bind at 1. cbn [to_string].
  unfold bind at 1. rewrite get_prop_ok by done.
  unfold bind at 1. rewrite get_prop_ok by done.
  unfold bind at 1. cbn [plus_one].
  unfold bind at 1. cbn [to_string].
  unfold bind at 1. rewrite get_prop_ok by done.
  unfold bind at 1. rewrite get_prop_ok by done.
  unfold bind at 1. rewrite Hpush.
  unfold async, update_clauses, update_fields, update_where, update_pushed.
  by rewrite Ef.
Qed.

(** On any other arguments the code before the promise throws, and the
    promise that [dbUpdate] returns is rejected. *)
Lemma dbUpdate_rejects (whereCriteria updateData table : value)
  (reply : store_reply) (w : world) :
  update_ready (heap w) whereCriteria updateData = false ->
  rejects_with_TypeError (dbUpdate whereCriteria updateData table reply w).
Proof.
  assert (forall msg s,
    rejects_with_TypeError
      (Ok (Rejected (VRef (length (heap w)))),
       World (heap w ++ [OErr "TypeError" {[ "message" := VStr msg ]}]) s))
    as Hrej.
  { intros msg s. eexists. unfold error_at. cbn [heap]. by rewrite lookup_alloc. }
  unfold update_ready. intros Hready.
  unfold dbUpdate, async.
  destruct (nullish whereCriteria) eqn:Hw.
  { unfold bind at 1.
    destruct (get_prop_nullish whereCriteria "pk" w Hw) as [msg ->]. apply Hrej. }
  unfold bind at 1. rewrite get_prop_ok by done.
  unfold bind at 1. cbn [to_string].
  destruct (nullish updateData) eqn:Hu.
  { unfold bind at 1.
    destruct (get_prop_nullish updateData "argumentsName" w Hu) as [msg ->].
    apply Hrej. }
  unfold bind at 1. rewrite get_prop_ok by done.
  destruct (elements_of (heap w) (read_prop (heap w) updateData "argumentsName"))
    as [fields|] eqn:Ef; cycle 1.
  { unfold bind at 1.
    destruct (iterate_throws _ w Ef) as [msg ->]. apply Hrej. }
  unfold bind at 1. unfold iterate. rewrite Ef.
  destruct (nullish (read_prop (heap w) updateData "argumentsNbr")) eqn:Hn.
  { destruct fields as [|f fields].
    - unfold bind at 1. cbn [build_clauses ret].
      unfold bind at 1. rewrite get_prop_ok by done.
      unfold bind at 1. cbn [to_string].
      unfold bind at 1. rewrite get_prop_ok by done.
      unfold bind at 1.
      destruct (get_prop_nullish _ "length" w Hn) as [msg ->]. apply Hrej.
    - unfold bind at 1.
      destruct (build_clauses_throws updateData f fields
        {| setClause := "";
           returningClause := text (heap w) (read_prop (heap w) whereCriteria "pk") +:+ ", ";
           delim := ""; idx := 0 |} w Hu Hn) as [msg ->].
      apply Hrej. }
  unfold bind at 1. rewrite build_clauses_ok by done.
  unfold bind at 1. rewrite get_prop_ok by done.
  unfold bind at 1. cbn [to_string].
  unfold bind at 1. rewrite get_prop_ok by done.
  unfold bind at 1. rewrite get_prop_ok by done.
  unfold bind at 1. cbn [plus_one].
  unfold bind at 1. cbn [to_string].
  unfold bind at 1. rewrite get_prop_ok by done.
  unfold bind at 1. rewrite get_prop_ok by done.
  cbn [negb andb] in Hready.
  unfold bind at 1.
  destruct (array_push_throws _ (read_prop (heap w) whereCriteria "value") w Hready)
    as [msg ->].
  apply Hrej.
Qed.

(** What the promise of [dbUpdate] does, whatever the store replies: one
    statement is issued, the heap only grows, and an envelope comes back. *)
Lemma dbUpdate_executor_run (updateData table : value)
  (setC whereC returningC : string) (reply : store_reply) (w : world) :
  nullish updateData = false ->
  exists envelope w',
    new_Promise
      (dbUpdate_executor updateData table setC whereC returningC reply) w
      = (Ok (Resolved envelope), w') /\
    issued w' = issued w ++
      [ Statement (update_sql (text (heap w) table) setC whereC returningC)
          (read_prop (heap w) updateData "argumentsValues")
          (elems_at (heap w) (read_prop (heap w) updateData "argumentsValues")) ] /\
    grows (heap w) (heap w') /\
    exists payload error,
      match reply with
      | SRows [] =>
          is_envelope (heap w') envelope (failure_envelope payload error)
            {[ "message" := VStr "not found" ]} /\
          record_at (heap w') payload = Some ∅
      | SRows (row :: _) =>
          is_envelope (heap w') envelope (success_envelope payload error)
            {[ "message" := VStr "" ]} /\
          record_at (heap w') payload = Some row
      | SFail err =>
          is_envelope (heap w') envelope (failure_envelope (VStr "") error)
            {[ "message" := payload ]} /\
          exists e, payload = VRef e /\ heap w' !! e = Some err
      end.
Proof.
  intros Hu.
  unfold dbUpdate_executor, new_Promise, try_catch, bind.
  reads updateData.
  destruct reply as [[|row rows]|err].
  - rewrite db_query_rows. driver.
    cbn [greater_than length Z.of_nat Z.ltb Z.compare]. envelope.
    split; [done|]. split; [auto with heap|]. eexists _, _. split.
    + by apply is_envelope_fresh.
    + do 2 apply record_at_app. unfold record_at. by rewrite lookup_alloc.
  - rewrite db_query_rows. driver.
    replace (greater_than (VNum (Z.of_nat (length (row :: rows)))) 0)
      with true by (symmetry; apply Z.ltb_lt; simpl length; lia).
    cbn iota. driver. envelope.
    split; [done|]. split; [auto with heap|]. eexists _, _. split.
    + by apply is_envelope_fresh.
    + do 2 apply record_at_app. apply driver_record_first.
  - rewrite db_query_fail. envelope.
    split; [done|]. split; [auto with heap|]. eexists _, _. split.
    + by apply is_envelope_fresh.
    + eexists. split; [done|]. apply lookup_kept.
Qed.

(** *** Pushing leaves every read but [length] as it was *)

Lemma read_prop_pushed (h : list object) (a v x : value) (k : string) :
  k <> "length" -> read_prop (pushed h a v) x k = read_prop h x k.
Proof.
  intros Hk. unfold pushed.
  destruct a as [| | | | | |l]; try done.
  destruct (h !! l) as [[xs|ps|n ps]|] eqn:El; try done.
  destruct x as [| | | | | |l']; try done. unfold read_prop.
  destruct (decide (l = l')) as [<-|Hne].
  - rewrite list_lookup_insert_eq by (by eapply lookup_lt_Some).
    rewrite El. by destruct (String.eqb_spec k "length").
  - by rewrite list_lookup_insert_ne.
Qed.

Lemma elems_at_pushed (h : list object) (a v : value) (xs : list value) :
  elems_at h a = Some xs -> elems_at (pushed h a v) a = Some (xs ++ [v]).
Proof.
  unfold pushed, elems_at.
  destruct a as [| | | | | |l]; try done.
  destruct (h !! l) as [[ys|ps|n ps]|] eqn:El; try done. intros [= ->].
  by rewrite list_lookup_insert_eq by (by eapply lookup_lt_Some).
Qed.

Lemma length_pushed (h : list object) (a v : value) :
  length (pushed h a v) = length h.
Proof.
  unfold pushed. destruct a as [| | | | | |l]; try done.
  destruct (h !! l) as [[ys|ps|n ps]|]; try done. apply length_insert.
Qed.

(** The whole call on ready arguments. *)
Lemma dbUpdate_run (whereCriteria updateData table : value)
  (reply : store_reply) (w : world) :
  update_ready (heap w) whereCriteria updateData = true ->
  exists envelope w',
    dbUpdate whereCriteria updateData table reply w
      = (Ok (Resolved envelope), w') /\
    issued w' = issued w ++
      [ Statement
          (update_sql
             (text (update_pushed (heap w) whereCriteria updateData) table)
             (setClause (update_clauses (heap w) whereCriteria updateData))
             (update_where (heap w) whereCriteria updateData)
             (returningClause (update_clauses (heap w) whereCriteria updateData)))
          (read_prop (heap w) updateData "argumentsValues")
          (elems_at (update_pushed (heap w) whereCriteria updateData)
             (read_prop (heap w) updateData "argumentsValues")) ] /\
    grows (update_pushed (heap w) whereCriteria updateData) (heap w') /\
    exists payload error,
      match reply with
      | SRows [] =>
          is_envelope (heap w') envelope (failure_envelope payload error)
            {[ "message" := VStr "not found" ]} /\
          record_at (heap w') payload = Some ∅
      | SRows (row :: _) =>
          is_envelope (heap w') envelope (success_envelope payload error)
            {[ "message" := VStr "" ]} /\
          record_at (heap w') payload = Some row
      | SFail err =>
          is_envelope (heap w') envelope (failure_envelope (VStr "") error)
            {[ "message" := payload ]} /\
          exists e, payload = VRef e /\ heap w' !! e = Some err
      end.
Proof.
  intros Hready. rewrite dbUpdate_prefix by done.
  assert (nullish updateData = false) as Hu.
  { unfold update_ready in Hready.
    rewrite !andb_true_iff, !negb_true_iff in Hready. tauto. }
  destruct (dbUpdate_executor_run updateData table
    (setClause (update_clauses (heap w) whereCriteria updateData))
    (update_where (heap w) whereCriteria updateData)
    (returningClause (update_clauses (heap w) whereCriteria updateData))
    reply
    (World (update_pushed (heap w) whereCriteria updateData) (issued w)) Hu)
    as (envelope & w' & Hrun & Hissued & Hgrows & Hshape).
  exists envelope, w'. unfold async. rewrite Hrun. split; [done|].
  cbn [heap issued] in *. split; [|done].
  rewrite Hissued. unfold update_pushed.
  by rewrite read_prop_pushed.
Qed.
(** * Reading the envelopes *)

Lemma envelope_message (h : list object) (envelope : value) ps (m : value) :
  is_envelope h envelope ps {[ "message" := m ]} -> message_of h envelope = m.
Proof. intros H. rewrite (is_envelope_message _ _ _ _ H). by simplify_map_eq. Qed.

Lemma success_envelope_fields (h : list object) (envelope payload error : value)
  eps :
  is_envelope h envelope (success_envelope payload error) eps ->
  success_of h envelope = VBool true /\
  read_prop h envelope "sqlReturn" = payload.
Proof.
  intros H. rewrite (is_envelope_success _ _ _ _ H).
  rewrite (is_envelope_field _ _ _ _ "sqlReturn" H).
  unfold success_envelope. by simplify_map_eq.
Qed.

Lemma failure_envelope_fields (h : list object) (envelope payload error : value)
  eps :
  is_envelope h envelope (failure_envelope payload error) eps ->
  success_of h envelope = VBool false /\
  read_prop h envelope "sqlReturn" = payload.
Proof.
  intros H. rewrite (is_envelope_success _ _ _ _ H).
  rewrite (is_envelope_field _ _ _ _ "sqlReturn" H).
  unfold failure_envelope. by simplify_map_eq.
Qed.

(** * The properties *)

(** C1.  [dbSelect] shapes its result by the number of rows: none gives a
    failure whose message is "not found"; one gives a success whose payload
    is that record itself, not a sequence; two or more give a success whose
    payload is the sequence of exactly those rows, in the store's order. *)
Theorem dbSelect_shaped_by_cardinality
  (selectData table : value) (rows : list (gmap string value)) (w : world) :
  nullish selectData = false ->
  exists envelope w',
    dbSelect selectData table (SRows rows) w = (Ok (Resolved envelope), w') /\
    match rows with
    | [] =>
        success_of (heap w') envelope = VBool false /\
        message_of (heap w') envelope = VStr "not found"
    | [row] =>
        success_of (heap w') envelope = VBool true /\
        record_at (heap w') (read_prop (heap w') envelope "sqlReturn")
          = Some row /\
        sequence_at (heap w') (read_prop (heap w') envelope "sqlReturn")
          = None
    | _ =>
        success_of (heap w') envelope = VBool true /\
        sequence_at (heap w') (read_prop (heap w') envelope "sqlReturn")
          = Some rows
    end.
Proof.
  intros Hsel.
  destruct (dbSelect_run selectData table (SRows rows) w Hsel)
    as (envelope & w' & Hrun & _ & _ & payload & error & H).
  exists envelope, w'. split; [done|].
  destruct rows as [|row [|row' rows']].
  - destruct (failure_envelope_fields _ _ _ _ _ H) as [-> _].
    by rewrite (envelope_message _ _ _ _ H).
  - destruct H as (H & Hrec & _).
    destruct (success_envelope_fields _ _ _ _ _ H) as [-> ->].
    split_and!; [done|done|by eapply record_not_sequence].
  - destruct H as (H & Hseq & _).
    by destruct (success_envelope_fields _ _ _ _ _ H) as [-> ->].
Qed.

(** C3.  When no row matches, select-by-criteria, update and delete each
    resolve with a failure envelope whose message is "not found", never with
    a success. *)
Theorem no_rows_reports_not_found
  (selectData whereCriteria updateData deleteData table : value) (w : world) :
  nullish selectData = false ->
  update_ready (heap w) whereCriteria updateData = true ->
  nullish deleteData = false ->
  reports_not_found (dbSelect selectData table (SRows []) w) /\
  reports_not_found (dbUpdate whereCriteria updateData table (SRows []) w) /\
  reports_not_found (dbDelete deleteData table (SRows []) w).
Proof.
  intros Hsel Hupd Hdel. split_and!.
  - destruct (dbSelect_run selectData table (SRows []) w Hsel)
      as (envelope & w' & -> & _ & _ & payload & error & H).
    destruct (failure_envelope_fields _ _ _ _ _ H) as [Hs _].
    split; [done|]. by apply (envelope_message _ _ _ _ H).
  - destruct (dbUpdate_run whereCriteria updateData table (SRows []) w Hupd)
      as (envelope & w' & -> & _ & _ & payload & error & H & _).
    destruct (failure_envelope_fields _ _ _ _ _ H) as [Hs _].
    split; [done|]. by apply (envelope_message _ _ _ _ H).
  - destruct (dbDelete_run deleteData table (SRows []) w Hdel)
      as (envelope & w' & -> & _ & status & payload & error & H & _).
    split.
    + unfold reports_not_found. rewrite (is_envelope_success _ _ _ _ H).
      unfold delete_failure. by simplify_map_eq.
    + by apply (envelope_message _ _ _ _ H).
Qed.

(** C5.  [dbSelectAll] resolves with a success envelope holding the rows the
    store returned, in order, also when there are none; it resolves with a
    failure envelope only when the store raises an error, and the envelope
    then carries that very error. *)
Theorem dbSelectAll_rows_or_store_error
  (selectFields table : value) (reply : store_reply) (w : world) :
  exists envelope w',
    dbSelectAll selectFields table reply w = (Ok (Resolved envelope), w') /\
    match reply with
    | SRows rows =>
        success_of (heap w') envelope = VBool true /\
        sequence_at (heap w') (read_prop (heap w') envelope "sqlReturn")
          = Some rows
    | SFail err =>
        success_of (heap w') envelope = VBool false /\
        exists e, message_of (heap w') envelope = VRef e /\
                  heap w' !! e = Some err
    end.
Proof.
  destruct (dbSelectAll_run selectFields table reply w)
    as (envelope & w' & Hrun & _ & payload & error & H).
  exists envelope, w'. split; [done|].
  destruct reply as [rows|err].
  - destruct H as [H Hseq].
    by destruct (success_envelope_fields _ _ _ _ _ H) as [-> ->].
  - destruct H as (H & e & -> & He).
    destruct (failure_envelope_fields _ _ _ _ _ H) as [-> _].
    split; [done|]. exists e. split; [|done].
    by apply (envelope_message _ _ _ _ H).
Qed.

(** C7.  When its criteria match one or more rows, [dbDelete] resolves with a
    success envelope that holds the deleted records, in the order the store
    returned them, and the status marker "deleted". *)
Theorem dbDelete_returns_deleted
  (deleteData table : value) (rows : list (gmap string value)) (w : world) :
  nullish deleteData = false ->
  rows <> [] ->
  exists envelope w',
    dbDelete deleteData table (SRows rows) w = (Ok (Resolved envelope), w') /\
    success_of (heap w') envelope = VBool true /\
    sequence_at (heap w') (read_prop (heap w') envelope "deleted")
      = Some rows /\
    read_prop (heap w') (read_prop (heap w') envelope "message") "status"
      = VStr "deleted".
Proof.
  intros Hdel Hrows.
  destruct (dbDelete_run deleteData table (SRows rows) w Hdel)
    as (envelope & w' & Hrun & _ & status & payload & error & H & Hstatus).
  exists envelope, w'. split; [done|].
  destruct rows as [|row rows]; [done|]. destruct H as [H Hseq].
  rewrite (is_envelope_success _ _ _ _ H).
  rewrite !(is_envelope_field _ _ _ _ _ H).
  unfold delete_success. simplify_map_eq. split_and!; [done|done|].
  rewrite (read_prop_record _ _ _ _ Hstatus). by simplify_map_eq.
Qed.
(** * The statement of an update in closed form *)

Lemma elems_at_read_index (h : list object) (v : value) (xs : list value) i :
  elems_at h v = Some xs -> read_index h v i = default VUndefined (xs !! i).
Proof.
  unfold elems_at, read_index. destruct v as [| | | | | |l]; try done.
  destruct (h !! l) as [[ys|ps|n ps]|]; try done. by intros [= ->].
Qed.

Lemma elems_at_read_length (h : list object) (v : value) (xs : list value) :
  elems_at h v = Some xs ->
  read_prop h v "length" = VNum (Z.of_nat (length xs)).
Proof.
  unfold elems_at, read_prop. destruct v as [| | | | | |l]; try done.
  destruct (h !! l) as [[ys|ps|n ps]|]; try done. by intros [= ->].
Qed.

Lemma elems_at_elements_of (h : list object) (v : value) (xs : list value) :
  elems_at h v = Some xs -> elements_of h v = Some xs.
Proof.
  unfold elems_at, elements_of. destruct v as [| | | | | |l]; try done.
Qed.

Lemma elems_at_not_nullish (h : list object) (v : value) (xs : list value) :
  elems_at h v = Some xs -> nullish v = false.
Proof. by destruct v. Qed.

Lemma elems_at_prop_not_nullish (h : list object) (v : value) k xs :
  elems_at h (read_prop h v k) = Some xs -> nullish v = false.
Proof. by destruct v. Qed.

Lemma clauses_of_strings (h : list object) (nbrs : value)
  (placeholders : list string) (cols ps : list string) (cl : clauses) :
  elems_at h nbrs = Some (VStr <$> placeholders) ->
  drop (idx cl) placeholders = ps ->
  length ps = length cols ->
  setClause (clauses_of h nbrs (VStr <$> cols) cl) =
    setClause cl +:+ separated (delim cl) (zip_with assignment cols ps) /\
  returningClause (clauses_of h nbrs (VStr <$> cols) cl) =
    returningClause cl +:+ separated (delim cl) cols.
Proof.
  intros Hn. revert ps cl.
  induction cols as [|c cols IH]; intros ps cl Hd Hl.
  - simpl. by rewrite !append_empty_r.
  - destruct ps as [|p ps]; [done|].
    assert (placeholders !! idx cl = Some p) as Hp.
    { rewrite <- (Nat.add_0_r (idx cl)), <- lookup_drop. by rewrite Hd. }
    cbn [fmap list_fmap clauses_of].
    rewrite (elems_at_read_index _ _ _ _ Hn), list_lookup_fmap, Hp.
    cbn [fmap option_fmap option_map default text].
    edestruct (IH ps) as [-> ->]; cycle 2.
    + cbn [setClause returningClause delim zip_with separated].
      unfold assignment. by rewrite !append_assoc.
    + cbn [idx]. rewrite (drop_S _ _ _ Hp) in Hd. by injection Hd.
    + simpl in Hl. lia.
Qed.

(** Arguments of the documented shape are ready. *)
Lemma documented_shape_ready (h : list object) (whereCriteria updateData : value)
  (names nbrs vals : list value) :
  nullish whereCriteria = false ->
  elems_at h (read_prop h updateData "argumentsName") = Some names ->
  elems_at h (read_prop h updateData "argumentsNbr") = Some nbrs ->
  elems_at h (read_prop h updateData "argumentsValues") = Some vals ->
  update_ready h whereCriteria updateData = true.
Proof.
  intros Hw Hnames Hnbrs Hvals. unfold update_ready, is_array.
  rewrite Hw, (elems_at_prop_not_nullish _ _ _ _ Hnames).
  rewrite (elems_at_elements_of _ _ _ Hnames).
  by rewrite (elems_at_not_nullish _ _ _ Hnbrs), Hvals.
Qed.

(** C2.  With [n] columns to update, [dbUpdate] sends a statement whose
    WHERE clause puts the primary key against placeholder [n + 1], whose
    RETURNING clause names the primary key and then every updated column,
    and whose bound values are the update values in order with the value of
    the primary key as the last one; this for every [n]. *)
Theorem dbUpdate_statement
  (whereCriteria updateData : value) (table pk : string) (n : nat)
  (cols placeholders : list string) (vals : list value)
  (reply : store_reply) (w : world) :
  read_prop (heap w) whereCriteria "pk" = VStr pk ->
  elems_at (heap w) (read_prop (heap w) updateData "argumentsName")
    = Some (VStr <$> cols) ->
  elems_at (heap w) (read_prop (heap w) updateData "argumentsNbr")
    = Some (VStr <$> placeholders) ->
  elems_at (heap w) (read_prop (heap w) updateData "argumentsValues")
    = Some vals ->
  length cols = n -> length placeholders = n -> length vals = n ->
  exists result w',
    dbUpdate whereCriteria updateData (VStr table) reply w = (Ok result, w') /\
    issued w' = issued w ++
      [ Statement
          (update_sql table
             (comma_separated (zip_with assignment cols placeholders))
             (pk +:+ " = $" +:+ pretty (Z.of_nat n + 1))
             (pk +:+ ", " +:+ comma_separated cols))
          (read_prop (heap w) updateData "argumentsValues")
          (Some (vals ++ [read_prop (heap w) whereCriteria "value"])) ].
Proof.
  intros Hpk Hnames Hnbrs Hvals Hcols Hph _.
  assert (nullish whereCriteria = false) as Hw by (by destruct whereCriteria).
  pose proof (documented_shape_ready _ _ _ _ _ _ Hw Hnames Hnbrs Hvals) as Hready.
  destruct (dbUpdate_run whereCriteria updateData (VStr table) reply w Hready)
    as (envelope & w' & Hrun & Hissued & _).
  exists (Resolved envelope), w'. split; [done|].
  rewrite Hissued. do 2 f_equal.
  unfold update_pushed. rewrite (elems_at_pushed _ _ _ _ Hvals).
  f_equal. cbn [text].
  destruct (clauses_of_strings (heap w)
    (read_prop (heap w) updateData "argumentsNbr") placeholders cols
    placeholders
    {| setClause := "";
       returningClause := text (heap w) (read_prop (heap w) whereCriteria "pk") +:+ ", ";
       delim := ""; idx := 0 |} Hnbrs eq_refl ltac:(lia)) as [Hset Hret].
  unfold update_clauses, update_fields, update_where.
  rewrite (elems_at_elements_of _ _ _ Hnames). cbn [default from_option id].
  rewrite Hset, Hret. cbn [setClause returningClause delim].
  rewrite (elems_at_read_length _ _ _ Hnbrs), length_fmap, Hph, Hpk.
  cbn [text add_one]. by rewrite append_assoc.
Qed.
(** * A second call on the same objects *)

Lemma read_not_nullish_live (h : list object) (v : value) (k : string) :
  nullish (read_prop h v k) = false -> live h v = true.
Proof.
  unfold live, read_prop. destruct v as [| | | | | |l]; try done.
  destruct (h !! l) as [o|] eqn:E; [|done]. intros _.
  apply bool_decide_eq_true. by eapply lookup_lt_Some.
Qed.

Lemma live_pushed (h : list object) (a v x : value) :
  live (pushed h a v) x = live h x.
Proof. unfold live. by rewrite length_pushed. Qed.

Lemma elements_of_app (h ext : list object) (v : value) xs :
  elements_of h v = Some xs -> elements_of (h ++ ext) v = Some xs.
Proof.
  unfold elements_of. destruct v as [| | | | | |l]; try done.
  destruct (h !! l) as [o|] eqn:E; [|done].
  by rewrite (lookup_app_l_Some _ _ _ _ E).
Qed.

Lemma elements_of_pushed (h : list object) (a v x : value) xs :
  elements_of h x = Some xs -> is_Some (elements_of (pushed h a v) x).
Proof.
  unfold pushed. destruct a as [| | | | | |l]; eauto.
  destruct (h !! l) as [[ys|ps|n ps]|] eqn:El; eauto.
  unfold elements_of. destruct x as [| | | | | |l']; eauto.
  destruct (decide (l = l')) as [<-|Hne].
  - rewrite list_lookup_insert_eq by (by eapply lookup_lt_Some). eauto.
  - rewrite list_lookup_insert_ne by done. eauto.
Qed.

(** After a call, the arguments read as before, but for the array. *)
Lemma read_prop_after (h ext : list object) (a v x : value) (k : string) :
  live h x = true -> k <> "length" ->
  read_prop (pushed h a v ++ ext) x k = read_prop h x k.
Proof.
  intros Hl Hk. rewrite read_prop_live_app by (by rewrite live_pushed).
  by apply read_prop_pushed.
Qed.

Lemma update_ready_after (h ext : list object)
  (whereCriteria updateData : value) :
  update_ready h whereCriteria updateData = true ->
  update_ready (update_pushed h whereCriteria updateData ++ ext)
    whereCriteria updateData = true.
Proof.
  unfold update_ready, update_pushed.
  rewrite !andb_true_iff, !negb_true_iff.
  intros [[[[Hw Hu] Hn] Hb] Ha].
  pose proof (read_not_nullish_live _ _ _ Hb) as Hlive.
  rewrite !(read_prop_after _ _ _ _ updateData) by done.
  split_and!; try done.
  - destruct (elements_of h (read_prop h updateData "argumentsName"))
      as [fields|] eqn:Ef; [|done].
    destruct (elements_of_pushed h (read_prop h updateData "argumentsValues")
      (read_prop h whereCriteria "value") _ _ Ef) as [ys Hys].
    by rewrite (elements_of_app _ ext _ _ Hys).
  - unfold is_array in *.
    destruct (elems_at h (read_prop h updateData "argumentsValues"))
      as [vals|] eqn:Ev; [|done].
    by rewrite (elems_at_app _ ext _ _ (elems_at_pushed _ _ _ _ Ev)).
Qed.

(** C9.  [dbUpdate] appends the value of the primary key to the very array
    its caller passed as [updateData.argumentsValues], before the statement
    is sent: after the call that array is one element longer, and a second
    call with the same [updateData] object binds a longer array. *)
Theorem dbUpdate_grows_caller_array
  (whereCriteria updateData table : value) (vals : list value)
  (reply1 reply2 : store_reply) (w : world) :
  update_ready (heap w) whereCriteria updateData = true ->
  live (heap w) whereCriteria = true ->
  elems_at (heap w) (read_prop (heap w) updateData "argumentsValues")
    = Some vals ->
  exists r1 w1 s1 r2 w2 s2,
    dbUpdate whereCriteria updateData table reply1 w = (Ok r1, w1) /\
    issued w1 = issued w ++ [s1] /\
    dbUpdate whereCriteria updateData table reply2 w1 = (Ok r2, w2) /\
    issued w2 = issued w1 ++ [s2] /\
    sql_values s1 = read_prop (heap w) updateData "argumentsValues" /\
    sql_values s2 = read_prop (heap w) updateData "argumentsValues" /\
    bound s1 = Some (vals ++ [read_prop (heap w) whereCriteria "value"]) /\
    bound s2 = Some (vals ++ [read_prop (heap w) whereCriteria "value";
                              read_prop (heap w) whereCriteria "value"]) /\
    elems_at (heap w1) (read_prop (heap w) updateData "argumentsValues")
      = Some (vals ++ [read_prop (heap w) whereCriteria "value"]) /\
    elems_at (heap w2) (read_prop (heap w) updateData "argumentsValues")
      = Some (vals ++ [read_prop (heap w) whereCriteria "value";
                       read_prop (heap w) whereCriteria "value"]).
Proof.
  intros Hready Hlive Hvals.
  destruct (dbUpdate_run whereCriteria updateData table reply1 w Hready)
    as (e1 & w1 & Hrun1 & Hissued1 & [ext1 Hheap1] & _).
  assert (live (heap w) updateData = true) as Hlive'.
  { unfold update_ready in Hready.
    rewrite !andb_true_iff, !negb_true_iff in Hready.
    eapply read_not_nullish_live. apply Hready. }
  assert (update_ready (heap w1) whereCriteria updateData = true) as Hready1.
  { rewrite Hheap1. by apply update_ready_after. }
  assert (read_prop (heap w1) updateData "argumentsValues"
          = read_prop (heap w) updateData "argumentsValues") as Hsame.
  { rewrite Hheap1. by apply read_prop_after. }
  assert (read_prop (heap w1) whereCriteria "value"
          = read_prop (heap w) whereCriteria "value") as Hkey.
  { rewrite Hheap1. by apply read_prop_after. }
  assert (elems_at (heap w1) (read_prop (heap w) updateData "argumentsValues")
          = Some (vals ++ [read_prop (heap w) whereCriteria "value"])) as Hvals1.
  { rewrite Hheap1. by apply elems_at_app, elems_at_pushed. }
  destruct (dbUpdate_run whereCriteria updateData table reply2 w1 Hready1)
    as (e2 & w2 & Hrun2 & Hissued2 & [ext2 Hheap2] & _).
  unfold update_pushed in Hissued2, Hheap2. rewrite Hsame, Hkey in *.
  pose proof (elems_at_pushed _ _ (read_prop (heap w) whereCriteria "value")
                _ Hvals1) as Hvals2.
  rewrite <- app_assoc in Hvals2.
  do 6 eexists. split_and!; try done.
  - cbn [bound]. unfold update_pushed. by apply elems_at_pushed.
  - rewrite Hheap2. by apply elems_at_app.
Qed.
(** * What every envelope looks like *)

Lemma error_with_message_success (reply : store_reply) (h : list object)
  (envelope : value) ps :
  is_envelope h envelope ps {[ "message" := VStr "" ]} ->
  ps !! "success" = Some (VBool true) ->
  error_with_message reply h envelope.
Proof. intros H Hs. exists ps, (VStr ""). auto. Qed.

Lemma error_with_message_failure (reply : store_reply) (h : list object)
  (envelope : value) ps m :
  is_envelope h envelope ps {[ "message" := m ]} ->
  ps !! "success" = Some (VBool false) ->
  failure_message reply h m ->
  error_with_message reply h envelope.
Proof. intros H Hs Hm. exists ps, m. auto. Qed.

Lemma error_with_message_envelope (reply : store_reply)
  (r : outcome settled * world) :
  resolves_with (error_with_message reply) r -> returns_envelope r.
Proof.
  destruct r as [[[envelope| |]|] w']; try done.
  intros (ps & m & H & Hs). exists ps, {[ "message" := m ]}.
  split; [done|]. split.
  - destruct Hs as [[-> _]|[-> _]]; eauto.
  - by simplify_map_eq.
Qed.


(** The three failure messages. *)
Lemma not_found_message (h : list object) :
  failure_message (SRows []) h (VStr "not found").
Proof. by left. Qed.

Lemma store_error_message (h : list object) (e : loc) (err : object) :
  h !! e = Some err -> failure_message (SFail err) h (VRef e).
Proof. intros He. right. left. by exists e, err. Qed.

Lemma type_error_message (reply : store_reply) (h : list object) (m : value)
  ps :
  error_at h m = Some ("TypeError", ps) -> failure_message reply h m.
Proof. intros He. right. right. by exists ps. Qed.

(** Closing a goal on the shape of an envelope just described. *)
Ltac shape :=
  first
    [ eapply error_with_message_success; [eassumption|]
    | eapply error_with_message_failure;
      [ eassumption
      |
      | first [ apply not_found_message
              | by apply store_error_message
              | by eapply type_error_message ] ] ];
  unfold success_envelope, failure_envelope, insert_failure,
    delete_success, delete_failure;
  by simplify_map_eq.

Lemma dbSelectAll_law (selectFields table : value) (reply : store_reply)
  (w : world) :
  resolves_with (error_with_message reply)
    (dbSelectAll selectFields table reply w).
Proof.
  destruct (dbSelectAll_run selectFields table reply w)
    as (envelope & w' & -> & _ & payload & error & H).
  destruct reply as [rows|err]; cbn [resolves_with].
  - destruct H as [H _]. shape.
  - destruct H as (H & e & -> & He). shape.
Qed.

Lemma dbSelect_law (selectData table : value) (reply : store_reply)
  (w : world) :
  resolves_with (error_with_message reply)
    (dbSelect selectData table reply w).
Proof.
  destruct (nullish selectData) eqn:Hsel.
  - destruct (dbSelect_run_nullish selectData table reply w Hsel)
      as (envelope & w' & -> & _ & e & error & ps & H & He).
    cbn [resolves_with]. shape.
  - destruct (dbSelect_run selectData table reply w Hsel)
      as (envelope & w' & -> & _ & _ & payload & error & H).
    cbn [resolves_with].
    destruct reply as [[|row [|row' rows]]|err].
    + shape.
    + destruct H as [H _]. shape.
    + destruct H as [H _]. shape.
    + destruct H as (H & e & -> & He). shape.
Qed.

Lemma dbInsert_law (insertData table returnFields : value)
  (reply : store_reply) (w : world) :
  resolves_with (error_with_message reply)
    (dbInsert insertData table returnFields reply w).
Proof.
  destruct (nullish insertData) eqn:Hins.
  - destruct (dbInsert_run_nullish insertData table returnFields reply w Hins)
      as (envelope & w' & -> & _ & e & error & ps & H & He).
    cbn [resolves_with]. shape.
  - destruct (dbInsert_run insertData table returnFields reply w Hins)
      as (envelope & w' & -> & _ & payload & error & H).
    cbn [resolves_with].
    destruct reply as [rows|err].
    + destruct H as [H _]. shape.
    + destruct H as (H & e & -> & He). shape.
Qed.

Lemma dbDelete_law (deleteData table : value) (reply : store_reply)
  (w : world) :
  resolves_with (error_with_message reply)
    (dbDelete deleteData table reply w).
Proof.
  destruct (nullish deleteData) eqn:Hdel.
  - destruct (dbDelete_run_nullish deleteData table reply w Hdel)
      as (envelope & w' & -> & _ & e & message & error & ps & H & He).
    cbn [resolves_with]. shape.
  - destruct (dbDelete_run deleteData table reply w Hdel)
      as (envelope & w' & -> & _ & status & payload & error & H & _).
    cbn [resolves_with].
    destruct reply as [[|row rows]|err].
    + shape.
    + destruct H as [H _]. shape.
    + destruct H as (H & e & -> & He). shape.
Qed.

Lemma dbUpdate_law (whereCriteria updateData table : value)
  (reply : store_reply) (w : world) :
  update_ready (heap w) whereCriteria updateData = true ->
  resolves_with (error_with_message reply)
    (dbUpdate whereCriteria updateData table reply w).
Proof.
  intros Hready.
  destruct (dbUpdate_run whereCriteria updateData table reply w Hready)
    as (envelope & w' & -> & _ & _ & payload & error & H).
  cbn [resolves_with].
  destruct reply as [[|row rows]|err].
  - destruct H as [H _]. shape.
  - destruct H as [H _]. shape.
  - destruct H as (H & e & -> & He). shape.
Qed.

(** Where the five functions do return an envelope.  [dbSelectAll],
    [dbSelect], [dbInsert] and [dbDelete] resolve with one on every input and
    every reply of the store: each read of their arguments sits inside their
    [try].  [dbUpdate] does so on every reply when its arguments are ready;
    on other arguments the promise it returns is rejected. *)
Lemma returns_envelope_where_caught
  (selectFields selectData insertData returnFields whereCriteria updateData
     deleteData table : value) (reply : store_reply) (w : world) :
  returns_envelope (dbSelectAll selectFields table reply w) /\
  returns_envelope (dbSelect selectData table reply w) /\
  returns_envelope (dbInsert insertData table returnFields reply w) /\
  returns_envelope (dbDelete deleteData table reply w) /\
  if update_ready (heap w) whereCriteria updateData
  then returns_envelope (dbUpdate whereCriteria updateData table reply w)
  else rejects_with_TypeError
         (dbUpdate whereCriteria updateData table reply w).
Proof.
  split_and!.
  - eapply error_with_message_envelope, dbSelectAll_law.
  - eapply error_with_message_envelope, dbSelect_law.
  - eapply error_with_message_envelope, dbInsert_law.
  - eapply error_with_message_envelope, dbDelete_law.
  - destruct (update_ready (heap w) whereCriteria updateData) eqn:Hready.
    + by eapply error_with_message_envelope, dbUpdate_law.
    + by apply dbUpdate_rejects.
Qed.

Lemma rejected_is_no_envelope (r : outcome settled * world) :
  rejects_with_TypeError r -> ~ returns_envelope r.
Proof. destruct r as [[[envelope|e|]|e] w']; cbn; tauto. Qed.

(** C4.  The code breaks the claim on
    [dbUpdate({ pk: "id", value: 1 }, {}, "invoices")]: whatever the store
    would reply, the loop over the [argumentsName] that is not there throws
    before the promise is made, where no [try] is open.  The promise that
    [dbUpdate] returns is rejected with a [TypeError]: the error crosses the
    boundary, no envelope is returned, and the store is sent nothing. *)
Theorem dbUpdate_bare_updateData_rejected (reply : store_reply) :
  rejects_with_TypeError
    (dbUpdate (VRef 0) (VRef 1) (VStr "invoices") reply bare_world) /\
  ~ returns_envelope
      (dbUpdate (VRef 0) (VRef 1) (VStr "invoices") reply bare_world) /\
  issued (dbUpdate (VRef 0) (VRef 1) (VStr "invoices") reply bare_world).2
    = issued bare_world.
Proof.
  pose proof (dbUpdate_rejects (VRef 0) (VRef 1) (VStr "invoices") reply
                bare_world eq_refl) as Hrej.
  split; [done|]. split; [by apply rejected_is_no_envelope|].
  clear Hrej. by destruct reply.
Qed.

(** * The handlers *)

Lemma set_prop_ok (o : value) (k : string) (v : value) (w : world) :
  nullish o = false ->
  set_prop o k v w = (Ok (), World (updated (heap w) o k v) (issued w)).
Proof.
  destruct w as [h s]. unfold set_prop, updated. cbn [heap issued].
  destruct o as [| | | | | |l]; try done.
  by destruct (h !! l) as [[xs|ps|n ps]|].
Qed.

Lemma lookup_updated_other (h : list object) (l l' : nat) k v :
  l <> l' -> updated h (VRef l) k v !! l' = h !! l'.
Proof.
  intros Hne. unfold updated.
  destruct (h !! l) as [[xs|ps|n ps]|]; try done;
    by rewrite list_lookup_insert_ne.
Qed.

Lemma record_at_updated_other (h : list object) (o x : value) k v :
  x <> o -> record_at (updated h o k v) x = record_at h x.
Proof.
  intros Hne. destruct o as [| | | | | |l]; try done.
  destruct x as [| | | | | |l']; try done. unfold record_at.
  rewrite lookup_updated_other; [done|congruence].
Qed.

Lemma read_prop_updated_other (h : list object) (o x : value) k v k' :
  x <> o -> read_prop (updated h o k v) x k' = read_prop h x k'.
Proof.
  intros Hne. destruct o as [| | | | | |l]; try done.
  destruct x as [| | | | | |l']; try done. unfold read_prop.
  rewrite lookup_updated_other; [done|congruence].
Qed.

Lemma elems_at_updated (h : list object) (o x : value) k v :
  elems_at (updated h o k v) x = elems_at h x.
Proof.
  destruct o as [| | | | | |l]; try done.
  destruct x as [| | | | | |l']; try done. unfold elems_at, updated.
  destruct (decide (l = l')) as [<-|Hne].
  - destruct (h !! l) as [[xs|ps|n ps]|] eqn:E; rewrite ?E; try done;
      by rewrite list_lookup_insert_eq by (by eapply lookup_lt_Some).
  - destruct (h !! l) as [[xs|ps|n ps]|] eqn:E; rewrite ?E; try done;
      by rewrite list_lookup_insert_ne.
Qed.

Lemma sequence_at_updated_other (h : list object) (o x : value) k v xs rs :
  elems_at h x = Some xs ->
  Forall (fun y => y <> o) xs ->
  sequence_at h x = Some rs ->
  sequence_at (updated h o k v) x = Some rs.
Proof.
  intros Hxs Hall. unfold sequence_at. rewrite elems_at_updated, Hxs.
  clear Hxs. intros H%mapM_Some. apply mapM_Some.
  induction H as [|y r ys rs' Hy _ IH]; [constructor|].
  inversion Hall; subst. constructor; [|by apply IH].
  by rewrite record_at_updated_other.
Qed.

Lemma record_at_grows (h h' : list object) (v : value) r :
  grows h h' -> record_at h v = Some r -> record_at h' v = Some r.
Proof. intros [ext ->]. apply record_at_app. Qed.

Lemma record_not_nullish (h : list object) (v : value) r :
  record_at h v = Some r -> nullish v = false.
Proof. by destruct v. Qed.

Lemma read_not_nullish (h : list object) (v : value) (k : string) :
  nullish (read_prop h v k) = false -> nullish v = false.
Proof. by destruct v. Qed.

Lemma live_not_fresh (h : list object) (x y : value) :
  live h x = true -> live h y = false -> y <> x.
Proof. intros Hx Hy ->. congruence. Qed.

Lemma success_envelope_success (payload error : value) :
  success_envelope payload error !! "success" = Some (VBool true).
Proof. unfold success_envelope. by simplify_map_eq. Qed.

Lemma success_envelope_payload (payload error : value) :
  success_envelope payload error !! "sqlReturn" = Some payload.
Proof. unfold success_envelope. by simplify_map_eq. Qed.

Lemma failure_envelope_success (payload error : value) :
  failure_envelope payload error !! "success" = Some (VBool false).
Proof. unfold failure_envelope. by simplify_map_eq. Qed.

Lemma failure_envelope_error (payload error : value) :
  failure_envelope payload error !! "error" = Some error.
Proof. unfold failure_envelope. by simplify_map_eq. Qed.

(** C10.  In [GET /invoices/:id], when the lookup of the invoice succeeds
    and the lookup of the company then fails, be it for no row or for an
    error of the store, the handler still answers with status 200 and a body
    whose [invoice] is what the store returned for the invoice, untouched:
    the record (or, were there several rows, their sequence) keeps its
    [comp_code] and gains no [company]. *)
Theorem get_invoice_swallows_company_failure
  (req nbrTest : value) (invoice : gmap string value)
  (rest : list (gmap string value))
  (replyCompany : store_reply) (w : world) :
  nullish (read_prop (heap w) req "params") = false ->
  to_boolean (read_prop (heap w) nbrTest "numberIsValid") = true ->
  lookup_fails replyCompany = true ->
  exists body w',
    get_invoice req nbrTest (SRows (invoice :: rest)) replyCompany w
      = (SendJson 200 body, w') /\
    match rest with
    | [] =>
        record_at (heap w') (read_prop (heap w') body "invoice")
          = Some invoice /\
        read_prop (heap w') (read_prop (heap w') body "invoice") "comp_code"
          = default VUndefined (invoice !! "comp_code") /\
        props_at (heap w') (read_prop (heap w') body "invoice") !! "company"
          = invoice !! "company"
    | _ =>
        sequence_at (heap w') (read_prop (heap w') body "invoice")
          = Some (invoice :: rest)
    end.
Proof.
  intros Hparams Hvalid Hfails.
  pose proof (read_not_nullish _ _ _ Hparams) as Hreq.
  assert (nullish nbrTest = false) as Hnbr by (by destruct nbrTest).
  unfold get_invoice, handler.
  unfold bind at 1. rewrite get_prop_ok by done.
  unfold bind at 1. rewrite get_prop_ok by done.
  unfold bind at 1. rewrite get_prop_ok by done.
  rewrite Hvalid.
  unfold bind at 1. rewrite get_prop_ok by done.
  unfold bind at 1. cbn [new_array alloc heap issued].
  unfold bind at 1. cbn [new_object alloc heap issued].
  set (h1 := heap w ++ [OArr [read_prop (heap w) nbrTest "validatedNumber"]]).
  set (sd := VRef (length h1)).
  match goal with |- context [World ?h (issued w)] => set (w2 := World h (issued w)) end.
  destruct (dbSelect_run sd (VStr "invoices") (SRows (invoice :: rest)) w2 eq_refl)
    as (env1 & w3 & Hrun1 & Hgrows1 & Hfresh1 & payload & error1 & Hshape).
  unfold bind at 1. rewrite Hrun1. cbn [await].
  assert (live (heap w2) sd = true) as Hsd.
  { unfold live, sd, w2. cbn [heap]. apply bool_decide_eq_true.
    rewrite length_app. simpl. lia. }
  assert (record_at (heap w3) env1 = Some (success_envelope payload error1))
    as Henv1 by (destruct rest; apply Hshape).
  assert (nullish payload = false) as Hn_p.
  { destruct rest; [by eapply record_not_nullish, Hshape|].
    destruct Hshape as (_ & _ & Hp & _). by destruct payload. }
  pose proof (live_not_fresh _ _ _ Hsd Hfresh1) as Hne1.
  pose proof (record_not_nullish _ _ _ Henv1) as Hn1.
  unfold bind at 1. rewrite get_prop_ok by done.
  rewrite (read_prop_record _ _ _ _ Henv1), success_envelope_success.
  cbn [from_option id to_boolean].
  unfold bind at 1. rewrite set_prop_ok by done. cbn [heap issued].
  unfold bind at 1. rewrite get_prop_ok by done. cbn [heap issued].
  rewrite read_prop_updated_other by done.
  rewrite (read_prop_record _ _ _ _ Henv1), success_envelope_payload.
  cbn [from_option id].
  unfold bind at 1. rewrite get_prop_ok by done. cbn [heap issued].
  unfold bind at 1. cbn [new_array alloc heap issued].
  unfold bind at 1. rewrite set_prop_ok by done. cbn [heap issued].
  unfold bind at 1. rewrite set_prop_ok by done. cbn [heap issued].
  match goal with |- context [World ?h (issued w3)] => set (h7 := h) end.
  assert (forall x r, x <> sd -> record_at (heap w3) x = Some r ->
                      record_at h7 x = Some r) as Hkeep.
  { intros x r Hx Hr. unfold h7.
    rewrite !record_at_updated_other by done. apply record_at_app.
    by rewrite record_at_updated_other. }
  assert (forall x rs, fresh_sequence (heap w2) (heap w3) x ->
                       sequence_at (heap w3) x = Some rs ->
                       sequence_at h7 x = Some rs) as Hkeep_seq.
  { intros x rs (_ & xs & Hxs & Hall) Hseq. unfold h7.
    assert (Forall (fun y => y <> sd) xs) as Hall'.
    { eapply Forall_impl; [exact Hall|]. intros y Hy.
      by eapply live_not_fresh. }
    eapply sequence_at_updated_other;
      [by rewrite elems_at_updated; apply elems_at_app;
          rewrite elems_at_updated|done|].
    eapply sequence_at_updated_other;
      [by apply elems_at_app; rewrite elems_at_updated|done|].
    apply sequence_at_app.
    by eapply sequence_at_updated_other. }
  destruct (dbSelect_run sd (VStr "companies") replyCompany
              (World h7 (issued w3)) eq_refl)
    as (env2 & w8 & Hrun2 & Hgrows2 & _ & payload2 & error2 & Henv2).
  cbn [heap] in Hgrows2.
  unfold bind at 1. rewrite Hrun2. cbn [await].
  assert (record_at (heap w8) env2
          = Some (failure_envelope (VStr "") error2)) as Hrec2.
  { destruct replyCompany as [[|row rows]|err]; [|done|]; apply Henv2. }
  pose proof (record_not_nullish _ _ _ Hrec2) as Hn2.
  pose proof (record_at_grows _ _ _ _ Hgrows2 (Hkeep _ _ Hne1 Henv1)) as Henv1'.
  unfold bind at 1. rewrite get_prop_ok by done.
  rewrite (read_prop_record _ _ _ _ Hrec2), failure_envelope_success.
  cbn [from_option id to_boolean].
  unfold bind at 1. cbn [ret].
  unfold bind at 1. rewrite get_prop_ok by done.
  rewrite (read_prop_record _ _ _ _ Henv1'), success_envelope_payload.
  cbn [from_option id].
  unfold bind at 1. cbn [new_object alloc res_json ret heap issued].
  eexists _, _. split; [reflexivity|]. cbn [heap].
  rewrite read_last, lookup_singleton_eq. cbn [from_option id].
  destruct rest as [|row rest].
  - destruct Hshape as (_ & Hrec1 & _ & Hfresh_p).
    pose proof (live_not_fresh _ _ _ Hsd Hfresh_p) as Hne_p.
    pose proof (record_at_app _ [OObj {[ "invoice" := payload ]}] _ _
      (record_at_grows _ _ _ _ Hgrows2 (Hkeep _ _ Hne_p Hrec1))) as Hfinal.
    split_and!.
    + exact Hfinal.
    + by apply read_prop_record.
    + by rewrite (props_at_record _ _ _ Hfinal).
  - destruct Hshape as (_ & Hseq & Hfresh_s).
    apply sequence_at_app. destruct Hgrows2 as [ext ->].
    apply sequence_at_app. by apply Hkeep_seq.
Qed.
(** No binding in sight of the "not found" branch of [PUT /invoices/:id] is
    called [errorSelect]. *)
Lemma errorSelect_unbound
  (errorUpdate verifyNumber optionalKeys resultsPreparation criteria
     resultsUpdate req res_ next_ : value) :
  list_find (fun b : string * value => b.1 = "errorSelect")
    (("errorUpdate", errorUpdate) ::
     [ ("verifyNumber", verifyNumber); ("optionalKeys", optionalKeys);
       ("resultsPreparation", resultsPreparation);
       ("criteria", criteria); ("resultsUpdate", resultsUpdate);
       ("req", req); ("res", res_); ("next", next_) ] ++ module_scope)
  = None.
Proof. vm_compute. reflexivity. Qed.

Lemma elems_at_prop_live (h : list object) (v : value) k xs :
  elems_at h (read_prop h v k) = Some xs -> live h v = true.
Proof.
  intros H. apply (read_not_nullish_live h v k).
  by eapply elems_at_not_nullish.
Qed.

Lemma elems_at_prop_app (h ext : list object) (v : value) k xs :
  elems_at h (read_prop h v k) = Some xs ->
  elems_at (h ++ ext) (read_prop (h ++ ext) v k) = Some xs.
Proof.
  intros H. rewrite read_prop_live_app by (by eapply elems_at_prop_live).
  by apply elems_at_app.
Qed.

(** C8.  In [PUT /invoices/:id], when [dbUpdate] reports "not found", the
    branch that should hand a 404 error to [next] reads the variable
    [errorSelect], which no scope in sight declares: a [ReferenceError] is
    thrown, the promise of the handler is rejected, and no 404 is returned. *)
Theorem put_invoice_not_found_throws
  (req res_ next_ verifyNumber resultsPreparation updateData : value)
  (names nbrs vals : list value) (w : world) :
  nullish (read_prop (heap w) req "params") = false ->
  nullish verifyNumber = false ->
  strict_eq (read_prop (heap w) verifyNumber "numberIsValid") (VBool false)
    = false ->
  strict_eq (read_prop (heap w) resultsPreparation "success") (VBool false)
    = false ->
  read_prop (heap w) resultsPreparation "updateData" = updateData ->
  elems_at (heap w) (read_prop (heap w) updateData "argumentsName")
    = Some names ->
  elems_at (heap w) (read_prop (heap w) updateData "argumentsNbr")
    = Some nbrs ->
  elems_at (heap w) (read_prop (heap w) updateData "argumentsValues")
    = Some vals ->
  exists e w',
    put_invoice req res_ next_ verifyNumber resultsPreparation (SRows []) w
      = (Uncaught e, w') /\
    error_at (heap w') e
      = Some ("ReferenceError",
              {[ "message" := VStr "errorSelect is not defined" ]}).
Proof.
  intros Hparams Hvn Hvalid Hok Hud Hnames Hnbrs Hvals.
  pose proof (read_not_nullish _ _ _ Hparams) as Hreq.
  pose proof (read_not_nullish_live _ _ _ Hparams) as Hreq_live.
  assert (nullish updateData = false) as Hudn
    by (by eapply elems_at_prop_not_nullish).
  assert (live (heap w) resultsPreparation = true) as Hrp_live.
  { apply (read_not_nullish_live _ _ "updateData"). by rewrite Hud. }
  assert (nullish resultsPreparation = false) as Hrp.
  { apply (read_not_nullish (heap w) _ "updateData"). by rewrite Hud. }
  unfold put_invoice, handler.
  unfold bind at 1. rewrite get_prop_ok by done.
  unfold bind at 1. rewrite get_prop_ok by done.
  unfold bind at 1. rewrite get_prop_ok by done.
  rewrite Hvalid.
  unfold bind at 1. cbn [new_array alloc heap issued].
  unfold bind at 1. rewrite get_prop_ok by done. cbn [heap issued].
  unfold bind at 1. rewrite get_prop_ok by done. cbn [heap issued].
  rewrite read_prop_live_app by done. rewrite Hok.
  unfold bind at 1. rewrite get_prop_ok by done. cbn [heap issued].
  unfold bind at 1. cbn [new_object alloc heap issued].
  unfold bind at 1. rewrite get_prop_ok by done. cbn [heap issued].
  rewrite <- app_assoc. rewrite (read_prop_live_app _ _ resultsPreparation) by done.
  rewrite Hud.
  match goal with |- context [World (heap w ++ ?ext) (issued w)] =>
    set (ext2 := ext) end.
  match goal with |- context [dbUpdate ?c updateData] => set (criteria := c) end.
  assert (update_ready (heap w ++ ext2) criteria updateData = true) as Hready.
  { eapply (documented_shape_ready _ criteria updateData); [done|..];
      by apply elems_at_prop_app. }
  destruct (dbUpdate_run criteria updateData (VStr "invoices") (SRows [])
              (World (heap w ++ ext2) (issued w)) Hready)
    as (env & w' & Hrun & _ & [ext3 Hheap] & payload & error & Henv & _).
  cbn [heap] in Hheap.
  unfold bind at 1. rewrite Hrun. cbn [await].
  pose proof Henv as [Hrec Herr]. rewrite failure_envelope_error in Herr.
  cbn [from_option id] in Herr.
  pose proof (record_not_nullish _ _ _ Hrec) as Hn.
  pose proof (record_not_nullish _ _ _ Herr) as Hn_err.
  unfold bind at 1. rewrite get_prop_ok by done.
  rewrite (read_prop_record _ _ _ _ Hrec), failure_envelope_success.
  cbn [from_option id to_boolean].
  unfold bind at 1. rewrite get_prop_ok by done.
  rewrite (read_prop_record _ _ _ _ Hrec), failure_envelope_error.
  cbn [from_option id].
  unfold bind at 1. rewrite get_prop_ok by done.
  rewrite (read_prop_record _ _ _ _ Herr).
  rewrite lookup_singleton_eq. cbn [from_option id strict_eq].
  change (String.eqb "not found" "not found") with true. cbn iota.
  assert (read_prop (heap w') req "params" = read_prop (heap w) req "params")
    as Hsame.
  { rewrite Hheap. unfold update_pushed.
    rewrite read_prop_after; [by apply read_prop_live_app| |done].
    by apply live_app. }
  unfold bind at 1. rewrite get_prop_ok by done.
  unfold bind at 1. rewrite get_prop_ok by (by rewrite Hsame).
  unfold bind at 1. cbn [to_string].
  unfold bind at 1. cbn [new_Error alloc heap issued].
  unfold bind at 1. unfold variable at 1. rewrite errorSelect_unbound.
  cbn [throw_error bind alloc throw heap issued].
  eexists _, _. split; [reflexivity|]. cbn [heap].
  unfold error_at. by rewrite lookup_alloc.
Qed.
(** * More on the data-access functions *)

Lemma grows_keeps (h h' : list object) : grows h h' -> keeps h h'.
Proof. intros [ext ->] l o. apply lookup_app_l_Some. Qed.

(** ** What the lookups and the insert send *)

Lemma dbSelectAll_issued (selectFields table : value) (reply : store_reply)
  (w : world) :
  issued (dbSelectAll selectFields table reply w).2 =
    issued w ++
    [ Statement
        (select_all_sql (text (heap w) selectFields) (text (heap w) table))
        VUndefined None ].
Proof.
  unfold dbSelectAll, async, new_Promise, try_catch, bind.
  cbn [to_string].
  destruct reply as [rows|err].
  - rewrite db_query_rows. driver. reflexivity.
  - rewrite db_query_fail. reflexivity.
Qed.

Lemma dbSelect_issued (selectData table : value) (reply : store_reply)
  (w : world) :
  nullish selectData = false ->
  issued (dbSelect selectData table reply w).2 =
    issued w ++
    [ statement_of (heap w)
        (select_sql (text (heap w) (read_prop (heap w) selectData "selectFields"))
           (text (heap w) table)
           (text (heap w) (read_prop (heap w) selectData "criteria")))
        selectData "criteriaValues" ].
Proof.
  intros Hsel.
  unfold dbSelect, async, new_Promise, try_catch, bind.
  reads selectData.
  destruct reply as [[|row [|row' rows']]|err].
  - rewrite db_query_rows. driver. reflexivity.
  - rewrite db_query_rows. driver.
    change (greater_than (VNum (Z.of_nat (length [row]))) 0) with true.
    cbn iota. driver.
    change (strict_eq (VNum (Z.of_nat (length [row]))) (VNum 1)) with true.
    cbn iota. driver. reflexivity.
  - rewrite db_query_rows. driver.
    replace (greater_than (VNum (Z.of_nat (length (row :: row' :: rows')))) 0)
      with true by (symmetry; apply Z.ltb_lt; simpl length; lia).
    cbn iota. driver.
    replace (strict_eq (VNum (Z.of_nat (length (row :: row' :: rows')))) (VNum 1))
      with false by (symmetry; apply Z.eqb_neq; simpl length; lia).
    cbn iota. driver. reflexivity.
  - rewrite db_query_fail. reflexivity.
Qed.

Lemma dbDelete_issued (deleteData table : value) (reply : store_reply)
  (w : world) :
  nullish deleteData = false ->
  issued (dbDelete deleteData table reply w).2 =
    issued w ++
    [ statement_of (heap w)
        (delete_sql (text (heap w) table)
           (text (heap w) (read_prop (heap w) deleteData "criteria"))
           (text (heap w) (read_prop (heap w) deleteData "argumentsName")))
        deleteData "criteriaValues" ].
Proof.
  intros Hdel.
  unfold dbDelete, async, new_Promise, try_catch, bind.
  reads deleteData.
  destruct reply as [[|row rows]|err].
  - rewrite db_query_rows. driver. reflexivity.
  - rewrite db_query_rows. driver.
    replace (greater_than (VNum (Z.of_nat (length (row :: rows)))) 0)
      with true by (symmetry; apply Z.ltb_lt; simpl length; lia).
    cbn iota. reflexivity.
  - rewrite db_query_fail. reflexivity.
Qed.

(** X1.  [dbSelectAll], [dbSelect] and [dbDelete] each send exactly one
    statement, whatever the store replies.  Its text is built from the
    fragments the caller gave; the criteria values travel beside it, as the
    caller passed them, and select-all passes none. *)
Theorem lookups_send_one_statement
  (selectFields selectData deleteData table : value) (reply : store_reply)
  (w : world) :
  nullish selectData = false ->
  nullish deleteData = false ->
  issued (dbSelectAll selectFields table reply w).2 =
    issued w ++
    [ Statement
        (select_all_sql (text (heap w) selectFields) (text (heap w) table))
        VUndefined None ] /\
  issued (dbSelect selectData table reply w).2 =
    issued w ++
    [ statement_of (heap w)
        (select_sql (text (heap w) (read_prop (heap w) selectData "selectFields"))
           (text (heap w) table)
           (text (heap w) (read_prop (heap w) selectData "criteria")))
        selectData "criteriaValues" ] /\
  issued (dbDelete deleteData table reply w).2 =
    issued w ++
    [ statement_of (heap w)
        (delete_sql (text (heap w) table)
           (text (heap w) (read_prop (heap w) deleteData "criteria"))
           (text (heap w) (read_prop (heap w) deleteData "argumentsName")))
        deleteData "criteriaValues" ].
Proof.
  intros Hsel Hdel. split_and!.
  - apply dbSelectAll_issued.
  - by apply dbSelect_issued.
  - by apply dbDelete_issued.
Qed.

(** X2.  [dbInsert] sends one statement whatever the store replies: the
    text is built from the table, the column names, the placeholders and the
    RETURNING fields, which are [*] when the caller passes none; the values
    are the caller's [argumentsValues], bound and not written into the
    text. *)
Theorem dbInsert_statement (insertData table returnFields : value)
  (reply : store_reply) (w : world) :
  nullish insertData = false ->
  issued (dbInsert insertData table returnFields reply w).2 =
    issued w ++
    [ statement_of (heap w)
        (insert_sql (text (heap w) table)
           (text (heap w) (read_prop (heap w) insertData "argumentsName"))
           (text (heap w) (read_prop (heap w) insertData "argumentsNbr"))
           match returnFields with
           | VUndefined => "*"
           | _ => text (heap w) returnFields
           end)
        insertData "argumentsValues" ].
Proof.
  intros Hins.
  unfold dbInsert, async, new_Promise, try_catch, bind.
  reads insertData.
  destruct reply as [rows|err].
  - rewrite db_query_rows. driver. by destruct returnFields.
  - rewrite db_query_fail. by destruct returnFields.
Qed.


(** ** An argument that is not there *)

Lemma reports_TypeError_intro (w : world) (h' : list object)
  (envelope : value) (ps errps : gmap string value) (e : nat) :
  is_envelope h' envelope ps {[ "message" := VRef e ]} ->
  ps !! "success" = Some (VBool false) ->
  error_at h' (VRef e) = Some ("TypeError", errps) ->
  reports_TypeError w (Ok (Resolved envelope), World h' (issued w)).
Proof.
  intros Henv Hs He. unfold reports_TypeError. cbn [heap issued].
  rewrite (is_envelope_success _ _ _ _ Henv), Hs.
  rewrite (envelope_message _ _ _ _ Henv). eauto.
Qed.

(** X3.  When [dbSelect], [dbInsert] or [dbDelete] is called without its
    data object ([undefined] or [null]), the [TypeError] of the first read is
    caught: the call resolves with a failure envelope whose message is that
    error, and nothing is sent to the store. *)
Theorem missing_data_is_reported
  (data table returnFields : value) (reply : store_reply) (w : world) :
  nullish data = true ->
  reports_TypeError w (dbSelect data table reply w) /\
  reports_TypeError w (dbInsert data table returnFields reply w) /\
  reports_TypeError w (dbDelete data table reply w).
Proof.
  intros Hdata. split_and!.
  - unfold dbSelect, async, new_Promise, try_catch, bind.
    destruct (get_prop_nullish data "selectFields" w Hdata) as [msg ->].
    cbn [new_object alloc resolve ret heap issued].
    eapply reports_TypeError_intro;
      [by apply is_envelope_fresh|done|apply error_at_kept].
  - unfold dbInsert, async, new_Promise, try_catch, bind. cbn [to_string].
    destruct (get_prop_nullish data "argumentsName" w Hdata) as [msg ->].
    cbn [new_object alloc resolve ret heap issued].
    eapply reports_TypeError_intro;
      [by apply is_envelope_fresh|done|apply error_at_kept].
  - unfold dbDelete, async, new_Promise, try_catch, bind. cbn [to_string].
    destruct (get_prop_nullish data "criteria" w Hdata) as [msg ->].
    cbn [new_object alloc resolve ret heap issued].
    eapply reports_TypeError_intro;
      [by apply is_envelope_fresh|done|apply error_at_app, error_at_kept].
Qed.
(** ** What the calls leave alone *)

(** X4.  [dbSelectAll], [dbSelect], [dbInsert] and [dbDelete] modify no
    object of their caller, on any input and any reply of the store: every
    object of the heap is afterwards as it was. *)
Theorem lookups_modify_nothing
  (selectFields selectData insertData returnFields deleteData table : value)
  (reply : store_reply) (w : world) :
  keeps (heap w) (heap (dbSelectAll selectFields table reply w).2) /\
  keeps (heap w) (heap (dbSelect selectData table reply w).2) /\
  keeps (heap w) (heap (dbInsert insertData table returnFields reply w).2) /\
  keeps (heap w) (heap (dbDelete deleteData table reply w).2).
Proof.
  split_and!; apply grows_keeps.
  - by destruct (dbSelectAll_run selectFields table reply w)
      as (envelope & w' & -> & Hgrows & _).
  - destruct (nullish selectData) eqn:Hsel.
    + by destruct (dbSelect_run_nullish selectData table reply w Hsel)
        as (envelope & w' & -> & Hgrows & _).
    + by destruct (dbSelect_run selectData table reply w Hsel)
        as (envelope & w' & -> & Hgrows & _).
  - destruct (nullish insertData) eqn:Hins.
    + by destruct (dbInsert_run_nullish insertData table returnFields reply w Hins)
        as (envelope & w' & -> & Hgrows & _).
    + by destruct (dbInsert_run insertData table returnFields reply w Hins)
        as (envelope & w' & -> & Hgrows & _).
  - destruct (nullish deleteData) eqn:Hdel.
    + by destruct (dbDelete_run_nullish deleteData table reply w Hdel)
        as (envelope & w' & -> & Hgrows & _).
    + by destruct (dbDelete_run deleteData table reply w Hdel)
        as (envelope & w' & -> & Hgrows & _).
Qed.

Lemma pushed_lookup_other (h : list object) (a v : value) (l : nat) :
  VRef l <> a -> pushed h a v !! l = h !! l.
Proof.
  intros Hne. unfold pushed. destruct a as [| | | | | |l']; try done.
  destruct (h !! l') as [[xs|ps|n ps]|]; try done.
  apply list_lookup_insert_ne. congruence.
Qed.

(** X5.  Of its caller's objects, [dbUpdate] modifies the array
    [argumentsValues] and nothing else: [whereCriteria], [updateData] and its
    other two arrays are afterwards as they were. *)
Theorem dbUpdate_modifies_only_values
  (whereCriteria updateData table : value) (reply : store_reply) (w : world) :
  update_ready (heap w) whereCriteria updateData = true ->
  keeps_but (read_prop (heap w) updateData "argumentsValues")
    (heap w) (heap (dbUpdate whereCriteria updateData table reply w).2).
Proof.
  intros Hready.
  destruct (dbUpdate_run whereCriteria updateData table reply w Hready)
    as (envelope & w' & -> & _ & [ext Hheap] & _).
  intros l o Hne Hl. cbn [snd]. rewrite Hheap. apply lookup_app_l_Some.
  unfold update_pushed. by rewrite pushed_lookup_other.
Qed.

(** X6.  When the arguments of [dbUpdate] are not ready, the promise is
    rejected before anything is done: no statement is sent, no object of the
    caller is modified, and the heap gains only the [TypeError]. *)
Theorem dbUpdate_rejected_before_any_effect
  (whereCriteria updateData table : value) (reply : store_reply) (w : world) :
  update_ready (heap w) whereCriteria updateData = false ->
  exists msg,
    dbUpdate whereCriteria updateData table reply w =
      (Ok (Rejected (VRef (length (heap w)))),
       World (heap w ++ [OErr "TypeError" {[ "message" := VStr msg ]}])
             (issued w)).
Proof.
  unfold update_ready. intros Hready.
  unfold dbUpdate, async.
  destruct (nullish whereCriteria) eqn:Hw.
  { unfold bind at 1.
    destruct (get_prop_nullish whereCriteria "pk" w Hw) as [msg ->]. eauto. }
  unfold bind at 1. rewrite get_prop_ok by done.
  unfold bind at 1. cbn [to_string].
  destruct (nullish updateData) eqn:Hu.
  { unfold bind at 1.
    destruct (get_prop_nullish updateData "argumentsName" w Hu) as [msg ->].
    eauto. }
  unfold bind at 1. rewrite get_prop_ok by done.
  destruct (elements_of (heap w) (read_prop (heap w) updateData "argumentsName"))
    as [fields|] eqn:Ef; cycle 1.
  { unfold bind at 1.
    destruct (iterate_throws _ w Ef) as [msg ->]. eauto. }
  unfold bind at 1. unfold iterate. rewrite Ef.
  destruct (nullish (read_prop (heap w) updateData "argumentsNbr")) eqn:Hn.
  { destruct fields as [|f fields].
    - unfold bind at 1. cbn [build_clauses ret].
      unfold bind at 1. rewrite get_prop_ok by done.
      unfold bind at 1. cbn [to_string].
      unfold bind at 1. rewrite get_prop_ok by done.
      unfold bind at 1.
      destruct (get_prop_nullish _ "length" w Hn) as [msg ->]. eauto.
    - unfold bind at 1.
      destruct (build_clauses_throws updateData f fields
        {| setClause := "";
           returningClause := text (heap w) (read_prop (heap w) whereCriteria "pk") +:+ ", ";
           delim := ""; idx := 0 |} w Hu Hn) as [msg ->].
      eauto. }
  unfold bind at 1. rewrite build_clauses_ok by done.
  unfold bind at 1. rewrite get_prop_ok by done.
  unfold bind at 1. cbn [to_string].
  unfold bind at 1. rewrite get_prop_ok by done.
  unfold bind at 1. rewrite get_prop_ok by done.
  unfold bind at 1. cbn [plus_one].
  unfold bind at 1. cbn [to_string].
  unfold bind at 1. rewrite get_prop_ok by done.
  unfold bind at 1. rewrite get_prop_ok by done.
  cbn [negb andb] in Hready.
  unfold bind at 1.
  destruct (array_push_throws _ (read_prop (heap w) whereCriteria "value") w Hready)
    as [msg ->].
  eauto.
Qed.

(** X7.  When the store returns rows for an update, [dbUpdate] resolves with
    a success whose payload is the first of them, a record and not a
    sequence, however many rows there are. *)
Theorem dbUpdate_returns_first_row
  (whereCriteria updateData table : value) (row : gmap string value)
  (rest : list (gmap string value)) (w : world) :
  update_ready (heap w) whereCriteria updateData = true ->
  exists envelope w',
    dbUpdate whereCriteria updateData table (SRows (row :: rest)) w
      = (Ok (Resolved envelope), w') /\
    success_of (heap w') envelope = VBool true /\
    message_of (heap w') envelope = VStr "" /\
    record_at (heap w') (read_prop (heap w') envelope "sqlReturn") = Some row.
Proof.
  intros Hready.
  destruct (dbUpdate_run whereCriteria updateData table (SRows (row :: rest))
              w Hready)
    as (envelope & w' & Hrun & _ & _ & payload & error & H & Hrec).
  exists envelope, w'. split; [done|].
  destruct (success_envelope_fields _ _ _ _ _ H) as [-> ->].
  by rewrite (envelope_message _ _ _ _ H).
Qed.

(** X9.  On an insert the store answers, [dbInsert] resolves with a success
    whose payload is the first returned row, and [undefined] when the store
    returned none.  On an error of the store it resolves with a failure that
    carries the error, with the key [insertReturn] where the other functions
    have [sqlReturn]. *)
Theorem dbInsert_first_row_or_error
  (insertData table returnFields : value) (reply : store_reply) (w : world) :
  nullish insertData = false ->
  exists envelope w',
    dbInsert insertData table returnFields reply w
      = (Ok (Resolved envelope), w') /\
    match reply with
    | SRows [] =>
        success_of (heap w') envelope = VBool true /\
        read_prop (heap w') envelope "sqlReturn" = VUndefined
    | SRows (row :: _) =>
        success_of (heap w') envelope = VBool true /\
        record_at (heap w') (read_prop (heap w') envelope "sqlReturn")
          = Some row
    | SFail err =>
        success_of (heap w') envelope = VBool false /\
        props_at (heap w') envelope !! "sqlReturn" = None /\
        read_prop (heap w') envelope "insertReturn" = VStr "" /\
        exists e, message_of (heap w') envelope = VRef e /\
                  heap w' !! e = Some err
    end.
Proof.
  intros Hins.
  destruct (dbInsert_run insertData table returnFields reply w Hins)
    as (envelope & w' & Hrun & _ & payload & error & H).
  exists envelope, w'. split; [done|].
  destruct reply as [[|row rows]|err].
  - destruct H as [H ->].
    by destruct (success_envelope_fields _ _ _ _ _ H) as [-> ->].
  - destruct H as [H Hrec].
    by destruct (success_envelope_fields _ _ _ _ _ H) as [-> ->].
  - destruct H as (H & e & -> & He).
    rewrite (is_envelope_success _ _ _ _ H).
    rewrite (is_envelope_field _ _ _ _ "insertReturn" H).
    rewrite (props_at_record _ _ _ (proj1 H)).
    rewrite (envelope_message _ _ _ _ H).
    unfold insert_failure. simplify_map_eq. split_and!; eauto.
Qed.

(** ** Arrays of [updateData] that are not aligned *)

Lemma clauses_of_texts (h : list object) (nbrs : value)
  (cols ps : list string) (cl : clauses) :
  length ps = length cols ->
  (forall i p, ps !! i = Some p ->
               text h (read_index h nbrs (idx cl + i)) = p) ->
  setClause (clauses_of h nbrs (VStr <$> cols) cl) =
    setClause cl +:+ separated (delim cl) (zip_with assignment cols ps) /\
  returningClause (clauses_of h nbrs (VStr <$> cols) cl) =
    returningClause cl +:+ separated (delim cl) cols.
Proof.
  revert ps cl. induction cols as [|c cols IH]; intros ps cl Hl Hps.
  - simpl. by rewrite !append_empty_r.
  - destruct ps as [|p ps]; [done|].
    cbn [fmap list_fmap clauses_of].
    pose proof (Hps 0%nat p eq_refl) as Hp. rewrite Nat.add_0_r in Hp.
    rewrite Hp. cbn [text].
    edestruct (IH ps) as [-> ->]; cycle 2.
    + cbn [setClause returningClause delim zip_with separated].
      unfold assignment. by rewrite !append_assoc.
    + simpl in Hl. lia.
    + intros i q Hq. cbn [idx].
      replace (S (idx cl) + i)%nat with (idx cl + S i)%nat by lia.
      by apply Hps.
Qed.

Lemma padded_text (h : list object) (nbrs : value)
  (placeholders : list string) (n i : nat) (p : string) :
  elems_at h nbrs = Some (VStr <$> placeholders) ->
  take n (padded n placeholders) !! i = Some p ->
  text h (read_index h nbrs i) = p.
Proof.
  intros Hn Hp. rewrite (elems_at_read_index _ _ _ _ Hn), list_lookup_fmap.
  apply lookup_take_Some in Hp as [Hp _]. unfold padded in Hp.
  destruct (placeholders !! i) as [q|] eqn:Hq.
  - rewrite (lookup_app_l_Some _ _ _ _ Hq) in Hp. by injection Hp as ->.
  - apply lookup_ge_None in Hq. rewrite lookup_app_r in Hp by done.
    by apply lookup_replicate in Hp as [-> _].
Qed.

Lemma padded_length (n : nat) (placeholders : list string) :
  length (take n (padded n placeholders)) = n.
Proof.
  unfold padded. rewrite length_take, length_app, length_replicate. lia.
Qed.

(** X8.  Whatever the lengths of the arrays of [updateData]: the SET clause
    pairs each column with the placeholder at its index, and with the text
    [undefined] where [argumentsNbr] has none; placeholders beyond the
    columns are left out; and the WHERE clause numbers its placeholder after
    the count of [argumentsNbr], not of the columns. *)
Theorem dbUpdate_statement_any_lengths
  (whereCriteria updateData : value) (table pk : string)
  (cols placeholders : list string) (vals : list value)
  (reply : store_reply) (w : world) :
  read_prop (heap w) whereCriteria "pk" = VStr pk ->
  elems_at (heap w) (read_prop (heap w) updateData "argumentsName")
    = Some (VStr <$> cols) ->
  elems_at (heap w) (read_prop (heap w) updateData "argumentsNbr")
    = Some (VStr <$> placeholders) ->
  elems_at (heap w) (read_prop (heap w) updateData "argumentsValues")
    = Some vals ->
  exists result w',
    dbUpdate whereCriteria updateData (VStr table) reply w = (Ok result, w') /\
    issued w' = issued w ++
      [ Statement
          (update_sql table
             (comma_separated
                (zip_with assignment cols
                   (take (length cols) (padded (length cols) placeholders))))
             (pk +:+ " = $" +:+ pretty (Z.of_nat (length placeholders) + 1))
             (pk +:+ ", " +:+ comma_separated cols))
          (read_prop (heap w) updateData "argumentsValues")
          (Some (vals ++ [read_prop (heap w) whereCriteria "value"])) ].
Proof.
  intros Hpk Hnames Hnbrs Hvals.
  assert (nullish whereCriteria = false) as Hw by (by destruct whereCriteria).
  pose proof (documented_shape_ready _ _ _ _ _ _ Hw Hnames Hnbrs Hvals) as Hready.
  destruct (dbUpdate_run whereCriteria updateData (VStr table) reply w Hready)
    as (envelope & w' & Hrun & Hissued & _).
  exists (Resolved envelope), w'. split; [done|].
  rewrite Hissued. do 2 f_equal.
  unfold update_pushed. rewrite (elems_at_pushed _ _ _ _ Hvals).
  f_equal. cbn [text].
  destruct (clauses_of_texts (heap w)
    (read_prop (heap w) updateData "argumentsNbr") cols
    (take (length cols) (padded (length cols) placeholders))
    {| setClause := "";
       returningClause := text (heap w) (read_prop (heap w) whereCriteria "pk") +:+ ", ";
       delim := ""; idx := 0 |} (padded_length _ _)) as [Hset Hret].
  { intros i p Hp. cbn [idx]. by eapply padded_text. }
  unfold update_clauses, update_fields, update_where.
  rewrite (elems_at_elements_of _ _ _ Hnames). cbn [default from_option id].
  rewrite Hset, Hret. cbn [setClause returningClause delim].
  rewrite (elems_at_read_length _ _ _ Hnbrs), length_fmap, Hpk.
  cbn [text add_one]. by rewrite append_assoc.
Qed.
(** * More on the handlers *)

Lemma updated_last_error (h : list object) name ps k v :
  updated (h ++ [OErr name ps]) (VRef (length h)) k v
  = h ++ [OErr name (<[k := v]> ps)].
Proof.
  unfold updated. rewrite lookup_alloc.
  replace (length h) with (length h + 0)%nat at 1 by lia.
  by rewrite insert_app_r.
Qed.

(** The three lines that end a failing branch:
    [new Error(msg)], [err.status = status], [return next(err)]. *)
Lemma next_error_run (msg : string) (status : Z) (w : world) :
  (err <- new_Error msg ;;
   _ <- set_prop err "status" (VNum status) ;;
   next err) w =
  (Ok (CallNext (VRef (length (heap w)))),
   World (heap w ++ [OErr "Error" (next_error status msg)]) (issued w)).
Proof.
  unfold bind at 1. cbn [new_Error alloc].
  unfold bind at 1. rewrite set_prop_ok by done. cbn [heap issued].
  by rewrite updated_last_error.
Qed.

Lemma next_error_of_run (v : value) (status : Z) (w : world) :
  exists ps,
    (err <- new_Error_of v ;;
     _ <- set_prop err "status" (VNum status) ;;
     next err) w =
    (Ok (CallNext (VRef (length (heap w)))),
     World (heap w ++ [OErr "Error" (<[ "status" := VNum status ]> ps)])
           (issued w)) /\
    (v <> VUndefined -> ps = {[ "message" := VStr (text (heap w) v) ]}).
Proof.
  destruct (decide (v = VUndefined)) as [->|Hv].
  - exists ∅. split; [|done].
    unfold bind at 1. cbn [new_Error_of alloc].
    unfold bind at 1. rewrite set_prop_ok by done. cbn [heap issued].
    by rewrite updated_last_error.
  - exists {[ "message" := VStr (text (heap w) v) ]}. split; [|done].
    assert (new_Error_of v = (msg <- to_string v ;; new_Error msg)) as ->
      by (by destruct v).
    unfold bind at 1. unfold bind at 1. cbn [to_string new_Error alloc].
    unfold bind at 1. rewrite set_prop_ok by done. cbn [heap issued].
    by rewrite updated_last_error.
Qed.

Lemma passes_error_intro (h : list object) (s : list statement)
  (status : Z) (msg : string) :
  passes_error status msg
    (CallNext (VRef (length h)),
     World (h ++ [OErr "Error" (next_error status msg)]) s).
Proof. unfold passes_error, error_at. cbn [heap]. by rewrite lookup_alloc. Qed.

Lemma passes_status_intro (h : list object) (s : list statement)
  (status : Z) (ps : gmap string value) :
  passes_status status
    (CallNext (VRef (length h)),
     World (h ++ [OErr "Error" (<[ "status" := VNum status ]> ps)]) s).
Proof.
  unfold passes_status, error_at. cbn [heap]. rewrite lookup_alloc.
  eexists. split; [done|]. by simplify_map_eq.
Qed.

(** One step of a handler. *)
Ltac step :=
  unfold bind at 1;
  first
    [ rewrite get_prop_ok by done
    | rewrite set_prop_ok by done
    | progress cbn [to_string new_array new_object alloc ret] ];
  cbn [heap issued].

(** X10.  [GET /invoices] answers 200 with the invoices the store returned,
    in order, also when there are none; when the store raises an error it
    hands [next] an error with status 400, never 404. *)
Theorem get_invoices_lists_or_400 (reply : store_reply) (w : world) :
  match reply with
  | SRows rows =>
      sends_json
        (fun h body => sequence_at h (read_prop h body "invoices") = Some rows)
        (get_invoices reply w)
  | SFail err => passes_status 400 (get_invoices reply w)
  end.
Proof.
  unfold get_invoices, handler.
  destruct reply as [rows|err].
  - destruct (dbSelectAll_run (VStr "id, comp_code") (VStr "invoices")
                (SRows rows) w)
      as (env & w' & Hrun & _ & payload & error & [Hrec _] & Hseq).
    unfold bind at 1. rewrite Hrun. cbn [await].
    pose proof (record_not_nullish _ _ _ Hrec) as Hn.
    step. rewrite (read_prop_record _ _ _ _ Hrec), success_envelope_success.
    cbn [from_option id to_boolean].
    step. rewrite (read_prop_record _ _ _ _ Hrec), success_envelope_payload.
    cbn [from_option id].
    step. cbn [res_json ret sends_json heap]. split; [done|].
    rewrite read_last, lookup_singleton_eq. cbn [from_option id].
    by apply sequence_at_app.
  - destruct (dbSelectAll_run (VStr "id, comp_code") (VStr "invoices")
                (SFail err) w)
      as (env & w' & Hrun & _ & payload & error & [Hrec Herr] & e & -> & He).
    unfold bind at 1. rewrite Hrun. cbn [await].
    rewrite failure_envelope_error in Herr. cbn [from_option id] in Herr.
    pose proof (record_not_nullish _ _ _ Hrec) as Hn.
    pose proof (record_not_nullish _ _ _ Herr) as Hne.
    step. rewrite (read_prop_record _ _ _ _ Hrec), failure_envelope_success.
    cbn [from_option id to_boolean].
    step. rewrite (read_prop_record _ _ _ _ Hrec), failure_envelope_error.
    cbn [from_option id].
    step. rewrite (read_prop_record _ _ _ _ Herr), lookup_singleton_eq.
    cbn [from_option id].
    destruct (next_error_of_run (VRef e) 400 w') as (ps & -> & _).
    apply passes_status_intro.
Qed.

Lemma refuses_intro (w : world) (status : Z) (msg : string) :
  refuses status msg w
    (CallNext (VRef (length (heap w))),
     World (heap w ++ [OErr "Error" (next_error status msg)]) (issued w)).
Proof. split; [apply passes_error_intro|done]. Qed.

(** X11.  When [checkNumbers] found the id of the request invalid
    ([numberIsValid] is [false]), [GET], [PUT] and [DELETE /invoices/:id]
    each hand [next] an error with status 400 whose message is
    [Invoice id ] followed by the helper's message, and send the store
    nothing, whatever else the request holds. *)
Theorem invalid_id_is_refused
  (req nbrTest res_ next_ resultsPreparation : value)
  (reply replyCompany : store_reply) (w : world) :
  nullish (read_prop (heap w) req "params") = false ->
  read_prop (heap w) nbrTest "numberIsValid" = VBool false ->
  refuses 400
    ("Invoice id " +:+ text (heap w) (read_prop (heap w) nbrTest "message")) w
    (get_invoice req nbrTest reply replyCompany w) /\
  refuses 400
    ("Invoice id " +:+ text (heap w) (read_prop (heap w) nbrTest "message")) w
    (put_invoice req res_ next_ nbrTest resultsPreparation reply w) /\
  refuses 400
    ("Invoice id " +:+ text (heap w) (read_prop (heap w) nbrTest "message")) w
    (delete_invoice req nbrTest reply w).
Proof.
  intros Hparams Hvalid.
  pose proof (read_not_nullish _ _ _ Hparams) as Hreq.
  assert (nullish nbrTest = false) as Hnbr by (by destruct nbrTest).
  split_and!.
  - unfold get_invoice, handler.
    step. step. step. rewrite Hvalid. cbn [to_boolean].
    step. step. rewrite next_error_run. apply refuses_intro.
  - unfold put_invoice, handler.
    step. step. step. rewrite Hvalid. cbn [strict_eq eqb].
    step. step. rewrite next_error_run. apply refuses_intro.
  - unfold delete_invoice, handler.
    step. step. step. rewrite Hvalid. cbn [to_boolean].
    step. step. rewrite next_error_run. apply refuses_intro.
Qed.

Lemma read_prop_grows (h h' : list object) (v : value) (k : string) :
  grows h h' -> live h v = true -> read_prop h' v k = read_prop h v k.
Proof. intros [ext ->]. apply read_prop_live_app. Qed.

(** The id of the request, read once the heap has grown. *)
Lemma request_id_grows (h h' : list object) (req : value) (id : string) :
  grows h h' ->
  read_prop h (read_prop h req "params") "id" = VStr id ->
  nullish req = false /\
  nullish (read_prop h' req "params") = false /\
  read_prop h' (read_prop h' req "params") "id" = VStr id.
Proof.
  intros Hgrows Hid.
  assert (nullish (read_prop h req "params") = false) as Hparams
    by (by destruct (read_prop h req "params")).
  pose proof (read_not_nullish_live _ _ _ Hparams) as Hlive.
  assert (live h (read_prop h req "params") = true) as Hlive'
    by (apply (read_not_nullish_live _ _ "id"); by rewrite Hid).
  rewrite (read_prop_grows _ _ _ _ Hgrows Hlive).
  rewrite (read_prop_grows _ _ _ _ Hgrows Hlive').
  split_and!; [by eapply read_not_nullish|done|done].
Qed.

Lemma delete_success_success (status deleted error : value) :
  delete_success status deleted error !! "success" = Some (VBool true).
Proof. unfold delete_success. by simplify_map_eq. Qed.

Lemma delete_success_deleted (status deleted error : value) :
  delete_success status deleted error !! "deleted" = Some deleted.
Proof. unfold delete_success. by simplify_map_eq. Qed.

Lemma delete_failure_success (message error : value) :
  delete_failure message error !! "success" = Some (VBool false).
Proof. unfold delete_failure. by simplify_map_eq. Qed.

Lemma delete_failure_error (message error : value) :
  delete_failure message error !! "error" = Some error.
Proof. unfold delete_failure. by simplify_map_eq. Qed.

Lemma grows_from_app (h ext h' : list object) :
  grows (h ++ ext) h' -> grows h h'.
Proof. intros [ext' ->]. rewrite <- app_assoc. apply grows_app_r. Qed.

(** The statement of a lookup by one value, as the handlers set it up. *)
Lemma lookup_statement (h : list object) (n : value)
  (ps : gmap string value) (sql : string) :
  ps !! "criteriaValues" = Some (VRef (length h)) ->
  statement_of ((h ++ [OArr [n]]) ++ [OObj ps]) sql
    (VRef (length (h ++ [OArr [n]]))) "criteriaValues"
  = Statement sql (VRef (length h)) (Some [n]).
Proof.
  intros Hps. unfold statement_of. rewrite read_last, Hps.
  cbn [from_option id]. f_equal.
  apply elems_at_app. unfold elems_at. by rewrite lookup_alloc.
Qed.

(** [DELETE /invoices/:id] with a valid id, to its end: the one statement it
    sends, and what it answers. *)
Lemma delete_invoice_run (req nbrTest : value) (sought : string)
  (reply : store_reply) (w : world) :
  read_prop (heap w) (read_prop (heap w) req "params") "id" = VStr sought ->
  to_boolean (read_prop (heap w) nbrTest "numberIsValid") = true ->
  exists r w' values,
    delete_invoice req nbrTest reply w = (r, w') /\
    issued w' = issued w ++
      [ Statement
          (delete_sql "invoices" "id = $1"
             "id, amt, paid, add_date, paid_date, comp_code")
          values (Some [read_prop (heap w) nbrTest "validatedNumber"]) ] /\
    match reply with
    | SRows [] =>
        passes_error 404 ("Invoice '" +:+ sought +:+ "' was not found.")
          (r, w')
    | SRows rows =>
        sends_json
          (fun h body => sequence_at h (read_prop h body "deleted") = Some rows)
          (r, w')
    | SFail err => passes_status 400 (r, w')
    end.
Proof.
  intros Hid Hvalid.
  destruct (request_id_grows _ _ _ _ (grows_refl (heap w)) Hid)
    as (Hreq & Hparams & _).
  assert (nullish nbrTest = false) as Hnbr by (by destruct nbrTest).
  unfold delete_invoice, handler.
  step. step. step. rewrite Hvalid.
  step. step. step.
  match goal with
  | |- context [bind (dbDelete ?d _ _) _ ?w2] =>
      destruct (dbDelete_run d (VStr "invoices") reply w2 eq_refl)
        as (env & w' & Hrun & Hgrows & status & payload & error & Hshape & _);
      pose proof (dbDelete_issued d (VStr "invoices") reply w2 eq_refl)
        as Hissued
  end.
  rewrite Hrun in Hissued. cbn [snd heap issued text] in Hissued.
  rewrite !read_last in Hissued.
  rewrite lookup_statement in Hissued by (by simplify_map_eq).
  replace (default VUndefined (_ !! "criteria")) with (VStr "id = $1")
    in Hissued by (by simplify_map_eq).
  replace (default VUndefined (_ !! "argumentsName"))
    with (VStr "id, amt, paid, add_date, paid_date, comp_code")
    in Hissued by (by simplify_map_eq).
  cbn [text] in Hissued.
  unfold bind at 1. rewrite Hrun. cbn [await].
  cbn [heap] in Hgrows. apply grows_from_app, grows_from_app in Hgrows.
  destruct (request_id_grows _ _ _ _ Hgrows Hid) as (_ & Hparams' & Hid').
  destruct reply as [[|row rows]|err].
  - destruct Hshape as [Hrec Herr].
    rewrite delete_failure_error in Herr. cbn [from_option id] in Herr.
    pose proof (record_not_nullish _ _ _ Hrec) as Hn.
    pose proof (record_not_nullish _ _ _ Herr) as Hne.
    step. rewrite (read_prop_record _ _ _ _ Hrec), delete_failure_success.
    cbn [from_option id to_boolean].
    step. rewrite (read_prop_record _ _ _ _ Hrec), delete_failure_error.
    cbn [from_option id].
    step. rewrite (read_prop_record _ _ _ _ Herr), lookup_singleton_eq.
    cbn [from_option id].
    change (strict_eq (VStr "not found") (VStr "not found")) with true.
    cbn iota.
    step. step. rewrite Hid'. step.
    rewrite next_error_run.
    eexists _, _, _. split; [reflexivity|]. split; [exact Hissued|].
    apply passes_error_intro.
  - destruct Hshape as [[Hrec _] Hseq].
    pose proof (record_not_nullish _ _ _ Hrec) as Hn.
    step. rewrite (read_prop_record _ _ _ _ Hrec), delete_success_success.
    cbn [from_option id to_boolean].
    step. rewrite (read_prop_record _ _ _ _ Hrec), delete_success_deleted.
    cbn [from_option id].
    step. cbn [res_json ret].
    eexists _, _, _. split; [reflexivity|]. split; [exact Hissued|].
    cbn [sends_json heap]. split; [done|].
    rewrite read_last, lookup_singleton_eq. cbn [from_option id].
    by apply sequence_at_app.
  - destruct Hshape as ([Hrec Herr] & e & -> & He).
    rewrite delete_failure_error in Herr. cbn [from_option id] in Herr.
    pose proof (record_not_nullish _ _ _ Hrec) as Hn.
    pose proof (record_not_nullish _ _ _ Herr) as Hne.
    step. rewrite (read_prop_record _ _ _ _ Hrec), delete_failure_success.
    cbn [from_option id to_boolean].
    step. rewrite (read_prop_record _ _ _ _ Hrec), delete_failure_error.
    cbn [from_option id].
    step. rewrite (read_prop_record _ _ _ _ Herr), lookup_singleton_eq.
    cbn [from_option id strict_eq].
    step. rewrite (read_prop_record _ _ _ _ Hrec), delete_failure_error.
    cbn [from_option id].
    step. rewrite (read_prop_record _ _ _ _ Herr), lookup_singleton_eq.
    cbn [from_option id].
    destruct (next_error_of_run (VRef e) 400 w') as (ps & -> & _).
    eexists _, _, _. split; [reflexivity|]. split; [exact Hissued|].
    apply passes_status_intro.
Qed.

(** X12.  [DELETE /invoices/:id] with a valid id: when the store returns
    one or more rows the answer is 200 with [deleted] the sequence of those
    rows; when it returns none, [next] gets an error with status 404 that
    names the id of the request; when the store raises an error, [next]
    gets one with status 400. *)
Theorem delete_invoice_outcomes (req nbrTest : value) (sought : string)
  (reply : store_reply) (w : world) :
  read_prop (heap w) (read_prop (heap w) req "params") "id" = VStr sought ->
  to_boolean (read_prop (heap w) nbrTest "numberIsValid") = true ->
  match reply with
  | SRows [] =>
      passes_error 404 ("Invoice '" +:+ sought +:+ "' was not found.")
        (delete_invoice req nbrTest reply w)
  | SRows rows =>
      sends_json
        (fun h body => sequence_at h (read_prop h body "deleted") = Some rows)
        (delete_invoice req nbrTest reply w)
  | SFail err => passes_status 400 (delete_invoice req nbrTest reply w)
  end.
Proof.
  intros Hid Hvalid.
  destruct (delete_invoice_run req nbrTest sought reply w Hid Hvalid)
    as (r & w' & values & -> & _ & H).
  exact H.
Qed.

(** [GET /invoices/:id] with a valid id when the lookup of the invoice
    fails, to its end: the one statement it sends, and what it answers. *)
Lemma get_invoice_lost_run (req nbrTest : value) (sought : string)
  (reply replyCompany : store_reply) (w : world) :
  read_prop (heap w) (read_prop (heap w) req "params") "id" = VStr sought ->
  to_boolean (read_prop (heap w) nbrTest "numberIsValid") = true ->
  lookup_fails reply = true ->
  exists r w' values,
    get_invoice req nbrTest reply replyCompany w = (r, w') /\
    issued w' = issued w ++
      [ Statement
          (select_sql "id, amt, paid, add_date, paid_date, comp_code"
             "invoices" "id = $1")
          values (Some [read_prop (heap w) nbrTest "validatedNumber"]) ] /\
    match reply with
    | SRows _ =>
        passes_error 404 ("Invoice '" +:+ sought +:+ "' was not found.")
          (r, w')
    | SFail err => passes_status 400 (r, w')
    end.
Proof.
  intros Hid Hvalid Hfails.
  destruct (request_id_grows _ _ _ _ (grows_refl (heap w)) Hid)
    as (Hreq & Hparams & _).
  assert (nullish nbrTest = false) as Hnbr by (by destruct nbrTest).
  unfold get_invoice, handler.
  step. step. step. rewrite Hvalid.
  step. step. step.
  match goal with
  | |- context [bind (dbSelect ?d _ _) _ ?w2] =>
      destruct (dbSelect_run d (VStr "invoices") reply w2 eq_refl)
        as (env & w' & Hrun & Hgrows & _ & payload & error & Hshape);
      pose proof (dbSelect_issued d (VStr "invoices") reply w2 eq_refl)
        as Hissued
  end.
  rewrite Hrun in Hissued. cbn [snd heap issued text] in Hissued.
  rewrite !read_last in Hissued.
  rewrite lookup_statement in Hissued by (by simplify_map_eq).
  replace (default VUndefined (_ !! "criteria")) with (VStr "id = $1")
    in Hissued by (by simplify_map_eq).
  replace (default VUndefined (_ !! "selectFields"))
    with (VStr "id, amt, paid, add_date, paid_date, comp_code")
    in Hissued by (by simplify_map_eq).
  cbn [text] in Hissued.
  unfold bind at 1. rewrite Hrun. cbn [await].
  cbn [heap] in Hgrows. apply grows_from_app, grows_from_app in Hgrows.
  destruct (request_id_grows _ _ _ _ Hgrows Hid) as (_ & Hparams' & Hid').
  destruct reply as [[|row rows]|err]; [|done|].
  - destruct Hshape as [Hrec Herr].
    rewrite failure_envelope_error in Herr. cbn [from_option id] in Herr.
    pose proof (record_not_nullish _ _ _ Hrec) as Hn.
    pose proof (record_not_nullish _ _ _ Herr) as Hne.
    step. rewrite (read_prop_record _ _ _ _ Hrec), failure_envelope_success.
    cbn [from_option id to_boolean].
    step. rewrite (read_prop_record _ _ _ _ Hrec), failure_envelope_error.
    cbn [from_option id].
    step. rewrite (read_prop_record _ _ _ _ Herr), lookup_singleton_eq.
    cbn [from_option id].
    change (strict_eq (VStr "not found") (VStr "not found")) with true.
    cbn iota.
    step. step. rewrite Hid'. step.
    rewrite next_error_run.
    eexists _, _, _. split; [reflexivity|]. split; [exact Hissued|].
    apply passes_error_intro.
  - destruct Hshape as ([Hrec Herr] & e & -> & He).
    rewrite failure_envelope_error in Herr. cbn [from_option id] in Herr.
    pose proof (record_not_nullish _ _ _ Hrec) as Hn.
    pose proof (record_not_nullish _ _ _ Herr) as Hne.
    step. rewrite (read_prop_record _ _ _ _ Hrec), failure_envelope_success.
    cbn [from_option id to_boolean].
    step. rewrite (read_prop_record _ _ _ _ Hrec), failure_envelope_error.
    cbn [from_option id].
    step. rewrite (read_prop_record _ _ _ _ Herr), lookup_singleton_eq.
    cbn [from_option id strict_eq].
    step. rewrite (read_prop_record _ _ _ _ Hrec), failure_envelope_error.
    cbn [from_option id].
    step. rewrite (read_prop_record _ _ _ _ Herr), lookup_singleton_eq.
    cbn [from_option id].
    destruct (next_error_of_run (VRef e) 400 w') as (ps & -> & _).
    eexists _, _, _. split; [reflexivity|]. split; [exact Hissued|].
    apply passes_status_intro.
Qed.

(** X13.  [GET /invoices/:id] with a valid id: when the store returns no
    invoice, [next] gets an error with status 404 that names the id of the
    request; when the store raises an error, [next] gets one with status
    400.  The reply to a company lookup plays no part. *)
Theorem get_invoice_failures (req nbrTest : value) (sought : string)
  (replyCompany : store_reply) (w : world) :
  read_prop (heap w) (read_prop (heap w) req "params") "id" = VStr sought ->
  to_boolean (read_prop (heap w) nbrTest "numberIsValid") = true ->
  passes_error 404 ("Invoice '" +:+ sought +:+ "' was not found.")
    (get_invoice req nbrTest (SRows []) replyCompany w) /\
  forall err,
    passes_status 400 (get_invoice req nbrTest (SFail err) replyCompany w).
Proof.
  intros Hid Hvalid. split; [|intros err].
  - destruct (get_invoice_lost_run req nbrTest sought (SRows []) replyCompany
                w Hid Hvalid eq_refl) as (r & w' & values & -> & _ & H).
    exact H.
  - destruct (get_invoice_lost_run req nbrTest sought (SFail err) replyCompany
                w Hid Hvalid eq_refl) as (r & w' & values & -> & _ & H).
    exact H.
Qed.

(** X18.  [GET] and [DELETE /invoices/:id] key their statement by the
    number [checkNumbers] validated, not by the raw id of the request.
    [DELETE] sends the one statement that deletes from [invoices] where
    [id = $1], whatever the store replies; [GET], when the invoice is not
    found or the store raises an error, sends the one lookup in [invoices]
    where [id = $1] and never looks a company up. *)
Theorem id_routes_bind_validated_number (req nbrTest : value)
  (sought : string) (reply replyCompany : store_reply) (w : world) :
  read_prop (heap w) (read_prop (heap w) req "params") "id" = VStr sought ->
  to_boolean (read_prop (heap w) nbrTest "numberIsValid") = true ->
  (exists values,
     issued (delete_invoice req nbrTest reply w).2 = issued w ++
       [ Statement
           (delete_sql "invoices" "id = $1"
              "id, amt, paid, add_date, paid_date, comp_code")
           values (Some [read_prop (heap w) nbrTest "validatedNumber"]) ]) /\
  (lookup_fails reply = true ->
   exists values,
     issued (get_invoice req nbrTest reply replyCompany w).2 = issued w ++
       [ Statement
           (select_sql "id, amt, paid, add_date, paid_date, comp_code"
              "invoices" "id = $1")
           values (Some [read_prop (heap w) nbrTest "validatedNumber"]) ]).
Proof.
  intros Hid Hvalid. split; [|intros Hfails].
  - destruct (delete_invoice_run req nbrTest sought reply w Hid Hvalid)
      as (r & w' & values & -> & H & _).
    by exists values.
  - destruct (get_invoice_lost_run req nbrTest sought reply replyCompany
                w Hid Hvalid Hfails) as (r & w' & values & -> & H & _).
    by exists values.
Qed.

Lemma insert_failure_success (error : value) :
  insert_failure error !! "success" = Some (VBool false).
Proof. unfold insert_failure. by simplify_map_eq. Qed.

Lemma insert_failure_error (error : value) :
  insert_failure error !! "error" = Some error.
Proof. unfold insert_failure. by simplify_map_eq. Qed.

(** [POST /invoices] up to the answer of [dbInsert]. *)
Ltac post_prefix Hok Hdata reply :=
  unfold post_invoice, handler;
  step; step; step; step;
  rewrite <- app_assoc, read_prop_live_app by done; rewrite Hok;
  step; rewrite read_prop_live_app by done;
  step;
  match goal with
  | |- context [bind (dbInsert ?d _ ?f _) _ ?w2] =>
      destruct (dbInsert_run d (VStr "invoices") f reply w2 Hdata)
        as (env & w' & Hrun & _ & payload & error & Hshape)
  end;
  unfold bind at 1;
  match goal with
  | H : dbInsert _ _ _ _ _ = _ |- _ => rewrite H
  end;
  cbn [await].

(** X14.  [POST /invoices] once the request body has been prepared: the
    answer is 200 with [invoice] the first row the store returned (and no
    [invoice] at all when it returned none); when the store raises an error,
    [next] gets one with status 400. *)
Theorem post_invoice_outcomes (req resultsPreparation : value)
  (reply : store_reply) (w : world) :
  nullish req = false ->
  strict_eq (read_prop (heap w) resultsPreparation "success") (VBool false)
    = false ->
  nullish (read_prop (heap w) resultsPreparation "insertData") = false ->
  match reply with
  | SRows [] =>
      sends_json (fun h body => read_prop h body "invoice" = VUndefined)
        (post_invoice req resultsPreparation reply w)
  | SRows (row :: _) =>
      sends_json
        (fun h body => record_at h (read_prop h body "invoice") = Some row)
        (post_invoice req resultsPreparation reply w)
  | SFail err => passes_status 400 (post_invoice req resultsPreparation reply w)
  end.
Proof.
  intros Hreq Hok Hdata.
  pose proof (read_not_nullish _ _ _ Hdata) as Hrp.
  pose proof (read_not_nullish_live _ _ _ Hdata) as Hrp_live.
  destruct reply as [[|row rows]|err];
    [post_prefix Hok Hdata (SRows [])
    |post_prefix Hok Hdata (SRows (row :: rows))
    |post_prefix Hok Hdata (SFail err)].
  - destruct Hshape as [[Hrec _] ->].
    pose proof (record_not_nullish _ _ _ Hrec) as Hn.
    step. rewrite (read_prop_record _ _ _ _ Hrec), success_envelope_success.
    cbn [from_option id to_boolean].
    step. rewrite (read_prop_record _ _ _ _ Hrec), success_envelope_payload.
    cbn [from_option id].
    step. cbn [res_json ret sends_json heap]. split; [done|].
    by rewrite read_last, lookup_singleton_eq.
  - destruct Hshape as [[Hrec _] Hrow].
    pose proof (record_not_nullish _ _ _ Hrec) as Hn.
    step. rewrite (read_prop_record _ _ _ _ Hrec), success_envelope_success.
    cbn [from_option id to_boolean].
    step. rewrite (read_prop_record _ _ _ _ Hrec), success_envelope_payload.
    cbn [from_option id].
    step. cbn [res_json ret sends_json heap]. split; [done|].
    rewrite read_last, lookup_singleton_eq. cbn [from_option id].
    by apply record_at_app.
  - destruct Hshape as ([Hrec Herr] & e & -> & He).
    rewrite insert_failure_error in Herr. cbn [from_option id] in Herr.
    pose proof (record_not_nullish _ _ _ Hrec) as Hn.
    pose proof (record_not_nullish _ _ _ Herr) as Hne.
    step. rewrite (read_prop_record _ _ _ _ Hrec), insert_failure_success.
    cbn [from_option id to_boolean].
    step. rewrite (read_prop_record _ _ _ _ Hrec), insert_failure_error.
    cbn [from_option id].
    step. rewrite (read_prop_record _ _ _ _ Herr), lookup_singleton_eq.
    cbn [from_option id].
    destruct (next_error_of_run (VRef e) 400 w') as (ps & -> & _).
    apply passes_status_intro.
Qed.

Lemma next_error_text_run (msg : string) (status : Z) (w : world) :
  (err <- new_Error_of (VStr msg) ;;
   _ <- set_prop err "status" (VNum status) ;;
   next err) w =
  (Ok (CallNext (VRef (length (heap w)))),
   World (heap w ++ [OErr "Error" (next_error status msg)]) (issued w)).
Proof.
  destruct (next_error_of_run (VStr msg) status w) as (ps & -> & Hps).
  by rewrite Hps.
Qed.

(** X15.  When the helper that prepares the request body reports a failure
    ([success] is [false]) with a text as its [error], [POST /invoices] hands
    [next] an error with that text and status 400, and [PUT /invoices/:id]
    one with that text and status 404; neither sends the store anything. *)
Theorem rejected_body_is_refused
  (req res_ next_ verifyNumber resultsPreparation : value) (msg : string)
  (reply : store_reply) (w : world) :
  nullish (read_prop (heap w) req "params") = false ->
  nullish verifyNumber = false ->
  strict_eq (read_prop (heap w) verifyNumber "numberIsValid") (VBool false)
    = false ->
  read_prop (heap w) resultsPreparation "success" = VBool false ->
  read_prop (heap w) resultsPreparation "error" = VStr msg ->
  refuses 400 msg w (post_invoice req resultsPreparation reply w) /\
  refuses 404 msg w
    (put_invoice req res_ next_ verifyNumber resultsPreparation reply w).
Proof.
  intros Hparams Hvn Hvalid Hok Herr.
  pose proof (read_not_nullish _ _ _ Hparams) as Hreq.
  assert (nullish (read_prop (heap w) resultsPreparation "success") = false)
    as Hok' by (by rewrite Hok).
  pose proof (read_not_nullish _ _ _ Hok') as Hrp.
  pose proof (read_not_nullish_live _ _ _ Hok') as Hrp_live.
  split.
  - unfold post_invoice, handler.
    step. step. step. step.
    rewrite <- app_assoc, read_prop_live_app by done. rewrite Hok.
    cbn [strict_eq eqb].
    step. rewrite read_prop_live_app by done. rewrite Herr.
    rewrite next_error_text_run. cbn [heap issued].
    split; [apply passes_error_intro|done].
  - unfold put_invoice, handler.
    step. step. step. rewrite Hvalid.
    step. step. step.
    rewrite read_prop_live_app by done. rewrite Hok.
    cbn [strict_eq eqb].
    step. rewrite read_prop_live_app by done. rewrite Herr.
    rewrite next_error_text_run. cbn [heap issued].
    split; [apply passes_error_intro|done].
Qed.

(** [PUT /invoices/:id] on a valid id and a prepared body, to its end: the
    one statement it sends, and what it answers. *)
Lemma put_invoice_run
  (req res_ next_ verifyNumber resultsPreparation updateData : value)
  (names nbrs vals : list value) (reply : store_reply) (w : world) :
  nullish (read_prop (heap w) req "params") = false ->
  nullish verifyNumber = false ->
  strict_eq (read_prop (heap w) verifyNumber "numberIsValid") (VBool false)
    = false ->
  strict_eq (read_prop (heap w) resultsPreparation "success") (VBool false)
    = false ->
  read_prop (heap w) resultsPreparation "updateData" = updateData ->
  elems_at (heap w) (read_prop (heap w) updateData "argumentsName")
    = Some names ->
  elems_at (heap w) (read_prop (heap w) updateData "argumentsNbr")
    = Some nbrs ->
  elems_at (heap w) (read_prop (heap w) updateData "argumentsValues")
    = Some vals ->
  exists r w' optionalKeys st,
    put_invoice req res_ next_ verifyNumber resultsPreparation reply w
      = (r, w') /\
    issued w' = issued w ++ [st] /\
    bound st =
      Some (vals ++
            [read_prop (heap w ++ [optionalKeys]) verifyNumber
               "validatedNumber"]) /\
    match reply with
    | SRows [] => exists e, r = Uncaught e
    | SRows (row :: _) =>
        exists body,
          r = SendJson 200 body /\
          record_at (heap w') (read_prop (heap w') body "invoice") = Some row
    | SFail err => passes_status 400 (r, w')
    end.
Proof.
  intros Hparams Hvn Hvalid Hok Hud Hnames Hnbrs Hvals.
  pose proof (read_not_nullish _ _ _ Hparams) as Hreq.
  pose proof (read_not_nullish_live _ _ _ Hparams) as Hreq_live.
  assert (nullish updateData = false) as Hudn
    by (by eapply elems_at_prop_not_nullish).
  assert (live (heap w) resultsPreparation = true) as Hrp_live.
  { apply (read_not_nullish_live _ _ "updateData"). by rewrite Hud. }
  assert (nullish resultsPreparation = false) as Hrp.
  { apply (read_not_nullish (heap w) _ "updateData"). by rewrite Hud. }
  unfold put_invoice, handler.
  step. step. step. rewrite Hvalid.
  step. step. step.
  rewrite read_prop_live_app by done. rewrite Hok.
  step. step. step.
  rewrite <- app_assoc.
  rewrite (read_prop_live_app _ _ resultsPreparation) by done.
  rewrite Hud.
  match goal with |- context [World (heap w ++ ?ext) (issued w)] =>
    set (ext2 := ext) end.
  match goal with |- context [dbUpdate ?c updateData] => set (criteria := c) end.
  assert (update_ready (heap w ++ ext2) criteria updateData = true) as Hready.
  { eapply (documented_shape_ready _ criteria updateData); [done|..];
      by apply elems_at_prop_app. }
  destruct (dbUpdate_run criteria updateData (VStr "invoices") reply
              (World (heap w ++ ext2) (issued w)) Hready)
    as (env & w' & Hrun & Hissued & [ext3 Hheap] & payload & error & Hshape).
  cbn [heap issued] in Hheap, Hissued.
  unfold bind at 1. rewrite Hrun. cbn [await].
  assert (bound
            (Statement
               (update_sql
                  (text (update_pushed (heap w ++ ext2) criteria updateData)
                     (VStr "invoices"))
                  (setClause
                     (update_clauses (heap w ++ ext2) criteria updateData))
                  (update_where (heap w ++ ext2) criteria updateData)
                  (returningClause
                     (update_clauses (heap w ++ ext2) criteria updateData)))
               (read_prop (heap w ++ ext2) updateData "argumentsValues")
               (elems_at (update_pushed (heap w ++ ext2) criteria updateData)
                  (read_prop (heap w ++ ext2) updateData "argumentsValues")))
          = Some (vals ++
                  [read_prop
                     (heap w ++
                      [OArr [VStr "comp_code"; VStr "amt"; VStr "paid";
                             VStr "paid_date"]])
                     verifyNumber "validatedNumber"])) as Hbound.
  { cbn [bound]. unfold update_pushed.
    rewrite (elems_at_pushed _ _ _ vals) by (by apply elems_at_prop_app).
    do 3 f_equal. unfold criteria, ext2. rewrite app_assoc, read_last.
    by simplify_map_eq. }
  destruct reply as [[|row rows]|err].
  - destruct Hshape as [[Hrec Herr] _].
    rewrite failure_envelope_error in Herr. cbn [from_option id] in Herr.
    pose proof (record_not_nullish _ _ _ Hrec) as Hn.
    pose proof (record_not_nullish _ _ _ Herr) as Hn_err.
    step. rewrite (read_prop_record _ _ _ _ Hrec), failure_envelope_success.
    cbn [from_option id to_boolean].
    step. rewrite (read_prop_record _ _ _ _ Hrec), failure_envelope_error.
    cbn [from_option id].
    step. rewrite (read_prop_record _ _ _ _ Herr), lookup_singleton_eq.
    cbn [from_option id].
    change (strict_eq (VStr "not found") (VStr "not found")) with true.
    cbn iota.
    assert (read_prop (heap w') req "params" = read_prop (heap w) req "params")
      as Hsame.
    { rewrite Hheap. unfold update_pushed.
      rewrite read_prop_after; [by apply read_prop_live_app| |done].
      by apply live_app. }
    step. unfold bind at 1. rewrite get_prop_ok by (by rewrite Hsame).
    step. unfold bind at 1. cbn [new_Error alloc heap issued].
    unfold bind at 1. unfold variable at 1. rewrite errorSelect_unbound.
    cbn [throw_error bind alloc throw heap issued].
    eexists _, _, _, _. split; [reflexivity|]. cbn [issued].
    split; [exact Hissued|]. split; [exact Hbound|]. by eexists.
  - destruct Hshape as [[Hrec _] Hrow].
    pose proof (record_not_nullish _ _ _ Hrec) as Hn.
    step. rewrite (read_prop_record _ _ _ _ Hrec), success_envelope_success.
    cbn [from_option id to_boolean].
    step. rewrite (read_prop_record _ _ _ _ Hrec), success_envelope_payload.
    cbn [from_option id].
    step. cbn [res_json ret].
    eexists _, _, _, _. split; [reflexivity|]. cbn [issued heap].
    split; [exact Hissued|]. split; [exact Hbound|].
    eexists. split; [done|].
    rewrite read_last, lookup_singleton_eq. cbn [from_option id].
    by apply record_at_app.
  - destruct Hshape as ([Hrec Herr] & e & -> & He).
    rewrite failure_envelope_error in Herr. cbn [from_option id] in Herr.
    pose proof (record_not_nullish _ _ _ Hrec) as Hn.
    pose proof (record_not_nullish _ _ _ Herr) as Hne.
    step. rewrite (read_prop_record _ _ _ _ Hrec), failure_envelope_success.
    cbn [from_option id to_boolean].
    step. rewrite (read_prop_record _ _ _ _ Hrec), failure_envelope_error.
    cbn [from_option id].
    step. rewrite (read_prop_record _ _ _ _ Herr), lookup_singleton_eq.
    cbn [from_option id strict_eq].
    step. rewrite (read_prop_record _ _ _ _ Hrec), failure_envelope_error.
    cbn [from_option id].
    step. rewrite (read_prop_record _ _ _ _ Herr), lookup_singleton_eq.
    cbn [from_option id].
    destruct (next_error_of_run (VRef e) 400 w') as (ps & -> & _).
    eexists _, _, _, _. split; [reflexivity|]. cbn [issued].
    split; [exact Hissued|]. split; [exact Hbound|].
    apply passes_status_intro.
Qed.

(** X16.  [PUT /invoices/:id] on a valid id and a prepared body of the
    documented shape: when the store returns rows, the answer is 200 with
    [invoice] the first of them; when the store raises an error, [next] gets
    an error with status 400. *)
Theorem put_invoice_outcomes
  (req res_ next_ verifyNumber resultsPreparation updateData : value)
  (names nbrs vals : list value) (w : world) :
  nullish (read_prop (heap w) req "params") = false ->
  nullish verifyNumber = false ->
  strict_eq (read_prop (heap w) verifyNumber "numberIsValid") (VBool false)
    = false ->
  strict_eq (read_prop (heap w) resultsPreparation "success") (VBool false)
    = false ->
  read_prop (heap w) resultsPreparation "updateData" = updateData ->
  elems_at (heap w) (read_prop (heap w) updateData "argumentsName")
    = Some names ->
  elems_at (heap w) (read_prop (heap w) updateData "argumentsNbr")
    = Some nbrs ->
  elems_at (heap w) (read_prop (heap w) updateData "argumentsValues")
    = Some vals ->
  (forall row rows,
     sends_json
       (fun h body => record_at h (read_prop h body "invoice") = Some row)
       (put_invoice req res_ next_ verifyNumber resultsPreparation
          (SRows (row :: rows)) w)) /\
  (forall err,
     passes_status 400
       (put_invoice req res_ next_ verifyNumber resultsPreparation
          (SFail err) w)).
Proof.
  intros Hparams Hvn Hvalid Hok Hud Hnames Hnbrs Hvals.
  split.
  - intros row rows.
    destruct (put_invoice_run req res_ next_ verifyNumber resultsPreparation
                updateData names nbrs vals (SRows (row :: rows)) w)
      as (r & w' & _ & _ & -> & _ & _ & body & -> & Hbody); try done.
  - intros err.
    destruct (put_invoice_run req res_ next_ verifyNumber resultsPreparation
                updateData names nbrs vals (SFail err) w)
      as (r & w' & _ & _ & -> & _ & _ & Hstatus); done.
Qed.

(** X17.  Whatever the store replies, [PUT /invoices/:id] sends it exactly
    one statement, and the values bound to it are those of the prepared
    body followed by the number [checkNumbers] validated: the key of the
    update is that number, not the raw id of the request. *)
Theorem put_invoice_binds_validated_number
  (req res_ next_ verifyNumber resultsPreparation updateData : value)
  (names nbrs vals : list value) (reply : store_reply) (w : world) :
  nullish (read_prop (heap w) req "params") = false ->
  read_prop (heap w) verifyNumber "numberIsValid" = VBool true ->
  strict_eq (read_prop (heap w) resultsPreparation "success") (VBool false)
    = false ->
  read_prop (heap w) resultsPreparation "updateData" = updateData ->
  elems_at (heap w) (read_prop (heap w) updateData "argumentsName")
    = Some names ->
  elems_at (heap w) (read_prop (heap w) updateData "argumentsNbr")
    = Some nbrs ->
  elems_at (heap w) (read_prop (heap w) updateData "argumentsValues")
    = Some vals ->
  exists st,
    issued
      (put_invoice req res_ next_ verifyNumber resultsPreparation reply w).2
      = issued w ++ [st] /\
    bound st =
      Some (vals ++ [read_prop (heap w) verifyNumber "validatedNumber"]).
Proof.
  intros Hparams Hvalid Hok Hud Hnames Hnbrs Hvals.
  assert (nullish (read_prop (heap w) verifyNumber "numberIsValid") = false)
    as Hv by (by rewrite Hvalid).
  pose proof (read_not_nullish _ _ _ Hv) as Hvn.
  pose proof (read_not_nullish_live _ _ _ Hv) as Hlive.
  destruct (put_invoice_run req res_ next_ verifyNumber resultsPreparation
              updateData names nbrs vals reply w)
    as (r & w' & keys & st & -> & Hissued & Hbound & _); try done.
  - by rewrite Hvalid.
  - exists st. split; [done|].
    by rewrite Hbound, read_prop_live_app.
Qed.
(** * The invoice and its company *)

(** A lookup that finds one row: the envelope and the row it carries are two
    objects, both new. *)
Lemma dbSelect_one_row (selectData table : value) (row : gmap string value)
  (w : world) :
  nullish selectData = false ->
  exists envelope w' payload error,
    dbSelect selectData table (SRows [row]) w = (Ok (Resolved envelope), w') /\
    grows (heap w) (heap w') /\
    is_envelope (heap w') envelope (success_envelope payload error)
      {[ "message" := VStr "" ]} /\
    record_at (heap w') payload = Some row /\
    live (heap w) envelope = false /\
    live (heap w) payload = false /\
    live (heap w') payload = true /\
    envelope <> payload.
Proof.
  intros Hsel.
  unfold dbSelect, async, new_Promise, try_catch, bind.
  rewrite !(get_prop_ok selectData) by done. cbn [to_string].
  rewrite (get_prop_ok selectData) by done.
  rewrite (get_prop_ok selectData) by done.
  rewrite db_query_rows. driver.
  change (greater_than (VNum (Z.of_nat (length [row]))) 0) with true.
  cbn iota. driver.
  change (strict_eq (VNum (Z.of_nat (length [row]))) (VNum 1)) with true.
  cbn iota. driver.
  cbn [new_object alloc resolve ret heap issued].
  eexists _, _, _, _. split; [reflexivity|]. cbn [heap issued].
  split_and!.
  - auto with heap.
  - by apply is_envelope_fresh.
  - rewrite <- app_assoc. apply record_at_app, driver_record_first.
  - apply fresh_envelope.
  - unfold live. apply bool_decide_eq_false. lia.
  - unfold live. apply bool_decide_eq_true. rewrite !length_app. simpl. lia.
  - intros [= H]. rewrite !length_app in H. simpl in H. lia.
Qed.

Lemma delete_prop_ok (o : value) (k : string) (w : world) :
  nullish o = false ->
  delete_prop o k w = (Ok (), World (removed (heap w) o k) (issued w)).
Proof.
  destruct w as [h s]. unfold delete_prop, removed. cbn [heap issued].
  destruct o as [| | | | | |l]; try done.
  by destruct (h !! l) as [[xs|ps|n ps]|].
Qed.

Lemma length_updated (h : list object) (o : value) k v :
  length (updated h o k v) = length h.
Proof.
  unfold updated. destruct o as [| | | | | |l]; try done.
  destruct (h !! l) as [[xs|ps|n ps]|]; try done; apply length_insert.
Qed.

Lemma live_updated (h : list object) (o x : value) k v :
  live (updated h o k v) x = live h x.
Proof. unfold live. by rewrite length_updated. Qed.

Lemma record_at_updated_same (h : list object) (o : value) k v ps :
  record_at h o = Some ps ->
  record_at (updated h o k v) o = Some (<[k := v]> ps).
Proof.
  unfold record_at, updated. destruct o as [| | | | | |l]; try done.
  destruct (h !! l) as [[xs|qs|n qs]|] eqn:E; try done. intros [= ->].
  by rewrite list_lookup_insert_eq by (by eapply lookup_lt_Some).
Qed.

Lemma record_at_removed_same (h : list object) (o : value) k ps :
  record_at h o = Some ps ->
  record_at (removed h o k) o = Some (delete k ps).
Proof.
  unfold record_at, removed. destruct o as [| | | | | |l]; try done.
  destruct (h !! l) as [[xs|qs|n qs]|] eqn:E; try done. intros [= ->].
  by rewrite list_lookup_insert_eq by (by eapply lookup_lt_Some).
Qed.

Lemma lookup_removed_other (h : list object) (l l' : nat) k :
  l <> l' -> removed h (VRef l) k !! l' = h !! l'.
Proof.
  intros Hne. unfold removed.
  destruct (h !! l) as [[xs|ps|n ps]|]; try done;
    by rewrite list_lookup_insert_ne.
Qed.

Lemma record_at_removed_other (h : list object) (o x : value) k :
  x <> o -> record_at (removed h o k) x = record_at h x.
Proof.
  intros Hne. destruct o as [| | | | | |l]; try done.
  destruct x as [| | | | | |l']; try done. unfold record_at.
  rewrite lookup_removed_other; [done|congruence].
Qed.

Lemma read_prop_removed_other (h : list object) (o x : value) k k' :
  x <> o -> read_prop (removed h o k) x k' = read_prop h x k'.
Proof.
  intros Hne. destruct o as [| | | | | |l]; try done.
  destruct x as [| | | | | |l']; try done. unfold read_prop.
  rewrite lookup_removed_other; [done|congruence].
Qed.

(** [GET /invoices/:id] when both lookups find their row, to its end. *)
Lemma get_invoice_found_run (req nbrTest : value)
  (invoice company : gmap string value) (w : world) :
  nullish (read_prop (heap w) req "params") = false ->
  to_boolean (read_prop (heap w) nbrTest "numberIsValid") = true ->
  exists body w' values1 values2 joined,
    get_invoice req nbrTest (SRows [invoice]) (SRows [company]) w
      = (SendJson 200 body, w') /\
    issued w' = issued w ++
      [ Statement
          (select_sql "id, amt, paid, add_date, paid_date, comp_code"
             "invoices" "id = $1")
          values1 (Some [read_prop (heap w) nbrTest "validatedNumber"]);
        Statement
          (select_sql "code, name, description" "companies" "code = $1")
          values2 (Some [default VUndefined (invoice !! "comp_code")]) ] /\
    record_at (heap w') (read_prop (heap w') body "invoice")
      = Some (<[ "company" := joined ]> (delete "comp_code" invoice)) /\
    record_at (heap w') joined = Some company.
Proof.
  intros Hparams Hvalid.
  pose proof (read_not_nullish _ _ _ Hparams) as Hreq.
  assert (nullish nbrTest = false) as Hnbr by (by destruct nbrTest).
  unfold get_invoice, handler.
  step. step. step. rewrite Hvalid.
  step. step. step.
  set (h1 := heap w ++ [OArr [read_prop (heap w) nbrTest "validatedNumber"]]).
  set (sd := VRef (length h1)).
  match goal with |- context [World ?h (issued w)] =>
    set (w2 := World h (issued w)) end.
  destruct (dbSelect_one_row sd (VStr "invoices") invoice w2 eq_refl)
    as (env1 & w3 & p1 & error1 & Hrun1 & Hgrows1 & [Henv1 _] & Hrec1 &
        Hfresh1 & Hfresh_p & Hlive_p & Hne_ep).
  pose proof (dbSelect_issued sd (VStr "invoices") (SRows [invoice]) w2 eq_refl)
    as Hissued1.
  rewrite Hrun1 in Hissued1. cbn [snd] in Hissued1.
  unfold w2, sd, h1 in Hissued1. cbn [heap issued text] in Hissued1.
  rewrite !read_last in Hissued1.
  rewrite lookup_statement in Hissued1 by (by simplify_map_eq).
  replace (default VUndefined (_ !! "criteria")) with (VStr "id = $1")
    in Hissued1 by (by simplify_map_eq).
  replace (default VUndefined (_ !! "selectFields"))
    with (VStr "id, amt, paid, add_date, paid_date, comp_code")
    in Hissued1 by (by simplify_map_eq).
  cbn [text] in Hissued1.
  unfold bind at 1. rewrite Hrun1. cbn [await].
  assert (live (heap w2) sd = true) as Hsd.
  { unfold live, sd, w2. cbn [heap]. apply bool_decide_eq_true.
    rewrite length_app. simpl. lia. }
  pose proof (live_not_fresh _ _ _ Hsd Hfresh1) as Hne1.
  pose proof (live_not_fresh _ _ _ Hsd Hfresh_p) as Hne_p.
  pose proof (record_not_nullish _ _ _ Henv1) as Hn1.
  pose proof (record_not_nullish _ _ _ Hrec1) as Hn_p.
  step. rewrite (read_prop_record _ _ _ _ Henv1), success_envelope_success.
  cbn [from_option id to_boolean].
  step.
  step. rewrite read_prop_updated_other by done.
  rewrite (read_prop_record _ _ _ _ Henv1), success_envelope_payload.
  cbn [from_option id].
  step. rewrite read_prop_updated_other by done.
  rewrite (read_prop_record _ _ _ _ Hrec1).
  step. step. step.
  set (code := default VUndefined (invoice !! "comp_code")).
  set (a1 := updated (heap w3) sd "criteria" (VStr "code = $1")).
  match goal with |- context [World ?h (issued w3)] => set (h7 := h) end.
  assert (forall x r, x <> sd -> record_at (heap w3) x = Some r ->
                      record_at h7 x = Some r) as Hkeep.
  { intros x r Hx Hr. unfold h7, a1.
    rewrite !record_at_updated_other by done. apply record_at_app.
    by rewrite record_at_updated_other. }
  assert (exists ps, record_at h7 sd = Some ps /\
            ps !! "selectFields" = Some (VStr "code, name, description") /\
            ps !! "criteria" = Some (VStr "code = $1") /\
            ps !! "criteriaValues" = Some (VRef (length a1)))
    as (ps7 & Hsd7 & Hfields & Hcriteria & Hvalues).
  { assert (exists ps, record_at (heap w3) sd = Some ps) as [ps Hps].
    { destruct Hgrows1 as [ext ->]. eexists. apply record_at_app.
      unfold record_at, sd, w2. cbn [heap]. by rewrite lookup_alloc. }
    eexists. split.
    - unfold h7. apply record_at_updated_same, record_at_updated_same.
      apply record_at_app. by apply record_at_updated_same.
    - by simplify_map_eq. }
  assert (elems_at h7 (VRef (length a1)) = Some [code]) as Hbound.
  { unfold h7. rewrite !elems_at_updated. unfold elems_at.
    by rewrite lookup_alloc. }
  assert (live h7 p1 = true) as Hlive7.
  { unfold h7, a1. rewrite !live_updated. apply live_app.
    by rewrite live_updated. }
  destruct (dbSelect_one_row sd (VStr "companies") company
              (World h7 (issued w3)) eq_refl)
    as (env2 & w8 & p2 & error2 & Hrun2 & Hgrows2 & [Henv2 _] & Hrec2 &
        Hfresh2 & Hfresh_p2 & _ & _).
  pose proof (dbSelect_issued sd (VStr "companies") (SRows [company])
                (World h7 (issued w3)) eq_refl) as Hissued2.
  rewrite Hrun2 in Hissued2. cbn [snd heap issued text] in Hissued2.
  unfold statement_of in Hissued2.
  rewrite !(read_prop_record _ _ _ _ Hsd7) in Hissued2.
  rewrite Hfields, Hcriteria, Hvalues in Hissued2.
  cbn [from_option id text] in Hissued2. rewrite Hbound in Hissued2.
  rewrite Hissued1, <- app_assoc in Hissued2.
  cbn [heap] in Hgrows2, Hfresh2, Hfresh_p2.
  unfold bind at 1. rewrite Hrun2. cbn [await].
  pose proof (live_not_fresh _ _ _ Hlive7 Hfresh2) as Hne2.
  pose proof (live_not_fresh _ _ _ Hlive7 Hfresh_p2) as Hne_p2.
  pose proof (record_not_nullish _ _ _ Henv2) as Hn2.
  pose proof (record_at_grows _ _ _ _ Hgrows2 (Hkeep _ _ Hne1 Henv1)) as Henv1'.
  pose proof (record_at_grows _ _ _ _ Hgrows2 (Hkeep _ _ Hne_p Hrec1)) as Hrec1'.
  step. rewrite (read_prop_record _ _ _ _ Henv2), success_envelope_success.
  cbn [from_option id to_boolean].
  assert ((invoice0 <- get_prop env1 "sqlReturn" ;;
           _ <- delete_prop invoice0 "comp_code" ;;
           invoice1 <- get_prop env1 "sqlReturn" ;;
           company0 <- get_prop env2 "sqlReturn" ;;
           set_prop invoice1 "company" company0) w8
          = (Ok (),
             World (updated (removed (heap w8) p1 "comp_code") p1 "company" p2)
                   (issued w8))) as Hjoin.
  { step. rewrite (read_prop_record _ _ _ _ Henv1'), success_envelope_payload.
    cbn [from_option id].
    unfold bind at 1. rewrite delete_prop_ok by done. cbn [heap issued].
    step. rewrite read_prop_removed_other by done.
    rewrite (read_prop_record _ _ _ _ Henv1'), success_envelope_payload.
    cbn [from_option id].
    step. rewrite read_prop_removed_other by done.
    rewrite (read_prop_record _ _ _ _ Henv2), success_envelope_payload.
    cbn [from_option id].
    by rewrite set_prop_ok by done. }
  unfold bind at 1. rewrite Hjoin.
  step. rewrite read_prop_updated_other, read_prop_removed_other by done.
  rewrite (read_prop_record _ _ _ _ Henv1'), success_envelope_payload.
  cbn [from_option id].
  step. cbn [res_json ret].
  eexists _, _, _, _, p2. split; [reflexivity|]. cbn [heap issued].
  split; [exact Hissued2|].
  rewrite read_last, lookup_singleton_eq. cbn [from_option id].
  split.
  - apply record_at_app, record_at_updated_same.
    by apply record_at_removed_same.
  - apply record_at_app.
    rewrite record_at_updated_other, record_at_removed_other by done.
    exact Hrec2.
Qed.

(** X19.  [GET /invoices/:id] when the invoice and then its company are
    found: the answer is 200 with [invoice] the row of the invoice without
    its [comp_code] and with a [company] that is the row of the company.
    Two statements were sent: the lookup of the invoice by the validated
    number, then the lookup of the company by the [comp_code] of the invoice
    that came back. *)
Theorem get_invoice_joins_company (req nbrTest : value)
  (invoice company : gmap string value) (w : world) :
  nullish (read_prop (heap w) req "params") = false ->
  to_boolean (read_prop (heap w) nbrTest "numberIsValid") = true ->
  sends_json
    (fun h body =>
       exists joined,
         record_at h (read_prop h body "invoice")
           = Some (<[ "company" := joined ]> (delete "comp_code" invoice)) /\
         record_at h joined = Some company)
    (get_invoice req nbrTest (SRows [invoice]) (SRows [company]) w) /\
  exists values1 values2,
    issued (get_invoice req nbrTest (SRows [invoice]) (SRows [company]) w).2
    = issued w ++
      [ Statement
          (select_sql "id, amt, paid, add_date, paid_date, comp_code"
             "invoices" "id = $1")
          values1 (Some [read_prop (heap w) nbrTest "validatedNumber"]);
        Statement
          (select_sql "code, name, description" "companies" "code = $1")
          values2 (Some [default VUndefined (invoice !! "comp_code")]) ].
Proof.
  intros Hparams Hvalid.
  destruct (get_invoice_found_run req nbrTest invoice company w Hparams Hvalid)
    as (body & w' & values1 & values2 & joined & -> & Hissued & Hrec & Hjoined).
  split.
  - split; [done|]. by exists joined.
  - by exists values1, values2.
Qed.
End BizTime.

(** * The properties on sample data *)

Lemma dbSelect_shaped_by_cardinality_sample :
  nullish sample_selectData = false /\
  exists envelope w',
    dbSelect plain_text sample_selectData (VStr "invoices")
      (SRows [invoice_1]) sample_world = (Ok (Resolved envelope), w') /\
    success_of (heap w') envelope = VBool true /\
    record_at (heap w') (read_prop (heap w') envelope "sqlReturn")
      = Some invoice_1 /\
    sequence_at (heap w') (read_prop (heap w') envelope "sqlReturn") = None.
Proof.
  split; [reflexivity|].
  exact (dbSelect_shaped_by_cardinality plain_text sample_selectData
           (VStr "invoices") [invoice_1] sample_world eq_refl).
Defined.

Lemma dbUpdate_statement_sample :
  exists result w',
    dbUpdate plain_text sample_criteria sample_updateData (VStr "invoices")
      (SRows [invoice_1]) sample_world = (Ok result, w') /\
    issued w' =
      [ Statement (update_sql "invoices" "amt = $1" "id = $2" "id, amt")
          (VRef 2) (Some [VNum 500; VNum 1]) ].
Proof.
  exact (dbUpdate_statement plain_text sample_criteria sample_updateData
           "invoices" "id" 1 ["amt"] ["$1"] [VNum 500] (SRows [invoice_1])
           sample_world eq_refl eq_refl eq_refl eq_refl eq_refl eq_refl
           eq_refl).
Defined.

Lemma no_rows_reports_not_found_sample :
  nullish sample_selectData = false /\
  update_ready (heap sample_world) sample_criteria sample_updateData = true /\
  reports_not_found
    (dbSelect plain_text sample_selectData (VStr "invoices") (SRows [])
       sample_world) /\
  reports_not_found
    (dbUpdate plain_text sample_criteria sample_updateData (VStr "invoices")
       (SRows []) sample_world) /\
  reports_not_found
    (dbDelete plain_text sample_selectData (VStr "invoices") (SRows [])
       sample_world).
Proof.
  split; [reflexivity|]. split; [reflexivity|].
  exact (no_rows_reports_not_found plain_text sample_selectData
           sample_criteria sample_updateData sample_selectData
           (VStr "invoices") sample_world eq_refl eq_refl eq_refl).
Defined.

Lemma dbDelete_returns_deleted_sample :
  exists envelope w',
    dbDelete plain_text sample_selectData (VStr "invoices")
      (SRows [invoice_1; invoice_2]) sample_world
      = (Ok (Resolved envelope), w') /\
    success_of (heap w') envelope = VBool true /\
    sequence_at (heap w') (read_prop (heap w') envelope "deleted")
      = Some [invoice_1; invoice_2] /\
    read_prop (heap w') (read_prop (heap w') envelope "message") "status"
      = VStr "deleted".
Proof.
  refine (dbDelete_returns_deleted plain_text sample_selectData
            (VStr "invoices") [invoice_1; invoice_2] sample_world eq_refl _).
  discriminate.
Defined.

Lemma dbUpdate_grows_caller_array_sample :
  update_ready (heap sample_world) sample_criteria sample_updateData = true /\
  live (heap sample_world) sample_criteria = true /\
  exists r1 w1 s1 r2 w2 s2,
    dbUpdate plain_text sample_criteria sample_updateData (VStr "invoices")
      (SRows [invoice_1]) sample_world = (Ok r1, w1) /\
    issued w1 = issued sample_world ++ [s1] /\
    dbUpdate plain_text sample_criteria sample_updateData (VStr "invoices")
      (SRows [invoice_1]) w1 = (Ok r2, w2) /\
    issued w2 = issued w1 ++ [s2] /\
    sql_values s1 = VRef 2 /\
    sql_values s2 = VRef 2 /\
    bound s1 = Some [VNum 500; VNum 1] /\
    bound s2 = Some [VNum 500; VNum 1; VNum 1] /\
    elems_at (heap w1) (VRef 2) = Some [VNum 500; VNum 1] /\
    elems_at (heap w2) (VRef 2) = Some [VNum 500; VNum 1; VNum 1].
Proof.
  split; [reflexivity|]. split; [reflexivity|].
  exact (dbUpdate_grows_caller_array plain_text sample_criteria
           sample_updateData (VStr "invoices") [VNum 500]
           (SRows [invoice_1]) (SRows [invoice_1]) sample_world
           eq_refl eq_refl eq_refl).
Defined.

Lemma get_invoice_swallows_company_failure_sample :
  lookup_fails (SRows []) = true /\
  exists body w',
    get_invoice plain_text sample_req sample_number (SRows [invoice_1])
      (SRows []) sample_world = (SendJson 200 body, w') /\
    record_at (heap w') (read_prop (heap w') body "invoice") = Some invoice_1 /\
    read_prop (heap w') (read_prop (heap w') body "invoice") "comp_code"
      = VStr "apple" /\
    props_at (heap w') (read_prop (heap w') body "invoice") !! "company"
      = None.
Proof.
  split; [reflexivity|].
  exact (get_invoice_swallows_company_failure plain_text sample_req
           sample_number invoice_1 [] (SRows []) sample_world
           eq_refl eq_refl eq_refl).
Defined.

Lemma put_invoice_not_found_throws_sample :
  exists e w',
    put_invoice plain_text no_host sample_req VNull VNull sample_number
      sample_preparation (SRows []) sample_world = (Uncaught e, w') /\
    error_at (heap w') e
      = Some ("ReferenceError",
              {[ "message" := VStr "errorSelect is not defined" ]}).
Proof.
  exact (put_invoice_not_found_throws plain_text no_host sample_req VNull VNull
           sample_number sample_preparation sample_updateData
           [VStr "amt"] [VStr "$1"] [VNum 500] sample_world
           eq_refl eq_refl eq_refl eq_refl eq_refl eq_refl eq_refl eq_refl).
Defined.

(** * Where the specification and the code part *)


(** * More properties on sample data *)

Lemma lookups_send_one_statement_sample :
  issued (dbSelectAll plain_text (VStr "id, comp_code") (VStr "invoices")
            (SRows []) sample_world).2 =
    [ Statement (select_all_sql "id, comp_code" "invoices") VUndefined None ] /\
  issued (dbSelect plain_text sample_selectData (VStr "invoices")
            (SRows []) sample_world).2 =
    [ Statement
        (select_sql "id, comp_code, amt, paid" "invoices" "id = $1")
        (VRef 5) (Some [VNum 1]) ] /\
  issued (dbDelete plain_text sample_selectData (VStr "invoices")
            (SRows []) sample_world).2 =
    [ Statement
        (delete_sql "invoices" "id = $1" "id, comp_code, amt, paid")
        (VRef 5) (Some [VNum 1]) ].
Proof.
  exact (lookups_send_one_statement plain_text (VStr "id, comp_code")
           sample_selectData sample_selectData (VStr "invoices") (SRows [])
           sample_world eq_refl eq_refl).
Defined.

Lemma dbInsert_statement_sample :
  issued (dbInsert plain_text sample_insertData (VStr "invoices") VUndefined
            (SRows [invoice_1]) request_world).2 =
    [ Statement (insert_sql "invoices" "comp_code, amt" "$1, $2" "*")
        (VRef 8) (Some [VStr "apple"; VNum 100]) ].
Proof.
  exact (dbInsert_statement plain_text sample_insertData (VStr "invoices")
           VUndefined (SRows [invoice_1]) request_world eq_refl).
Defined.

Lemma missing_data_is_reported_sample :
  reports_TypeError sample_world
    (dbSelect plain_text VUndefined (VStr "invoices") (SRows [invoice_1])
       sample_world) /\
  reports_TypeError sample_world
    (dbInsert plain_text VUndefined (VStr "invoices") VUndefined
       (SRows [invoice_1]) sample_world) /\
  reports_TypeError sample_world
    (dbDelete plain_text VUndefined (VStr "invoices") (SRows [invoice_1])
       sample_world).
Proof.
  exact (missing_data_is_reported plain_text VUndefined (VStr "invoices")
           VUndefined (SRows [invoice_1]) sample_world eq_refl).
Defined.

Lemma dbUpdate_modifies_only_values_sample :
  keeps_but (VRef 2) (heap sample_world)
    (heap (dbUpdate plain_text sample_criteria sample_updateData
             (VStr "invoices") (SRows [invoice_1]) sample_world).2).
Proof.
  exact (dbUpdate_modifies_only_values plain_text sample_criteria
           sample_updateData (VStr "invoices") (SRows [invoice_1])
           sample_world eq_refl).
Defined.

Lemma dbUpdate_rejected_before_any_effect_sample :
  exists msg,
    dbUpdate plain_text (VRef 0) (VRef 1) (VStr "invoices")
      (SRows [invoice_1]) bare_world =
      (Ok (Rejected (VRef 2)),
       World (heap bare_world ++ [OErr "TypeError" {[ "message" := VStr msg ]}])
             []).
Proof.
  exact (dbUpdate_rejected_before_any_effect plain_text (VRef 0) (VRef 1)
           (VStr "invoices") (SRows [invoice_1]) bare_world eq_refl).
Defined.

Lemma dbUpdate_returns_first_row_sample :
  exists envelope w',
    dbUpdate plain_text sample_criteria sample_updateData (VStr "invoices")
      (SRows [invoice_1; invoice_2]) sample_world
      = (Ok (Resolved envelope), w') /\
    success_of (heap w') envelope = VBool true /\
    message_of (heap w') envelope = VStr "" /\
    record_at (heap w') (read_prop (heap w') envelope "sqlReturn")
      = Some invoice_1.
Proof.
  exact (dbUpdate_returns_first_row plain_text sample_criteria
           sample_updateData (VStr "invoices") invoice_1 [invoice_2]
           sample_world eq_refl).
Defined.

Lemma dbUpdate_statement_any_lengths_sample :
  exists result w',
    dbUpdate plain_text (VRef 0) (VRef 4) (VStr "invoices") (SRows [])
      short_world = (Ok result, w') /\
    issued w' =
      [ Statement
          (update_sql "invoices" "amt = $1, paid = undefined" "id = $2"
             "id, amt, paid")
          (VRef 2) (Some [VNum 500; VBool true; VNum 1]) ].
Proof.
  exact (dbUpdate_statement_any_lengths plain_text (VRef 0) (VRef 4)
           "invoices" "id" ["amt"; "paid"] ["$1"] [VNum 500; VBool true]
           (SRows []) short_world eq_refl eq_refl eq_refl eq_refl).
Defined.

Lemma dbInsert_first_row_or_error_sample :
  exists envelope w',
    dbInsert plain_text sample_insertData (VStr "invoices")
      (VStr "comp_code,amt") (SRows []) request_world
      = (Ok (Resolved envelope), w') /\
    success_of (heap w') envelope = VBool true /\
    read_prop (heap w') envelope "sqlReturn" = VUndefined.
Proof.
  exact (dbInsert_first_row_or_error plain_text sample_insertData
           (VStr "invoices") (VStr "comp_code,amt") (SRows []) request_world
           eq_refl).
Defined.

Lemma invalid_id_is_refused_sample :
  refuses 400 "Invoice id is not a number" request_world
    (get_invoice plain_text unnumbered_req unnumbered_check
       (SRows [invoice_1]) (SRows [company_apple]) request_world) /\
  refuses 400 "Invoice id is not a number" request_world
    (put_invoice plain_text no_host unnumbered_req VNull VNull
       unnumbered_check insert_preparation (SRows [invoice_1])
       request_world) /\
  refuses 400 "Invoice id is not a number" request_world
    (delete_invoice plain_text unnumbered_req unnumbered_check
       (SRows [invoice_1]) request_world).
Proof.
  exact (invalid_id_is_refused plain_text no_host unnumbered_req
           unnumbered_check VNull VNull insert_preparation
           (SRows [invoice_1]) (SRows [company_apple]) request_world
           eq_refl eq_refl).
Defined.

Lemma delete_invoice_outcomes_sample :
  passes_error 404 "Invoice '1' was not found."
    (delete_invoice plain_text sample_req sample_number (SRows [])
       sample_world).
Proof.
  exact (delete_invoice_outcomes plain_text sample_req sample_number "1"
           (SRows []) sample_world eq_refl eq_refl).
Defined.

Lemma get_invoice_failures_sample :
  passes_error 404 "Invoice '1' was not found."
    (get_invoice plain_text sample_req sample_number (SRows [])
       (SRows [company_apple]) sample_world) /\
  forall err,
    passes_status 400
      (get_invoice plain_text sample_req sample_number (SFail err)
         (SRows [company_apple]) sample_world).
Proof.
  exact (get_invoice_failures plain_text sample_req sample_number "1"
           (SRows [company_apple]) sample_world eq_refl eq_refl).
Defined.

Lemma id_routes_bind_validated_number_sample :
  (exists values,
     issued (delete_invoice plain_text numbered_req numbered_check
               (SRows []) request_world).2 =
       [ Statement
           (delete_sql "invoices" "id = $1"
              "id, amt, paid, add_date, paid_date, comp_code")
           values (Some [VNum 7]) ]) /\
  (exists values,
     issued (get_invoice plain_text numbered_req numbered_check
               (SRows []) (SRows [company_apple]) request_world).2 =
       [ Statement
           (select_sql "id, amt, paid, add_date, paid_date, comp_code"
              "invoices" "id = $1")
           values (Some [VNum 7]) ]).
Proof.
  split.
  - exact (proj1 (id_routes_bind_validated_number plain_text numbered_req
                    numbered_check "7" (SRows []) (SRows [company_apple])
                    request_world eq_refl eq_refl)).
  - exact (proj2 (id_routes_bind_validated_number plain_text numbered_req
                    numbered_check "7" (SRows []) (SRows [company_apple])
                    request_world eq_refl eq_refl) eq_refl).
Defined.

Lemma post_invoice_outcomes_sample :
  sends_json
    (fun h body => record_at h (read_prop h body "invoice") = Some invoice_1)
    (post_invoice plain_text post_req insert_preparation (SRows [invoice_1])
       request_world).
Proof.
  exact (post_invoice_outcomes plain_text post_req insert_preparation
           (SRows [invoice_1]) request_world eq_refl eq_refl eq_refl).
Defined.

Lemma rejected_body_is_refused_sample :
  refuses 400 "amt is required" request_world
    (post_invoice plain_text numbered_req failed_preparation
       (SRows [invoice_1]) request_world) /\
  refuses 404 "amt is required" request_world
    (put_invoice plain_text no_host numbered_req VNull VNull numbered_check
       failed_preparation (SRows [invoice_1]) request_world).
Proof.
  exact (rejected_body_is_refused plain_text no_host numbered_req VNull VNull
           numbered_check failed_preparation "amt is required"
           (SRows [invoice_1]) request_world
           eq_refl eq_refl eq_refl eq_refl eq_refl).
Defined.

Lemma put_invoice_outcomes_sample :
  (forall row rows,
     sends_json
       (fun h body => record_at h (read_prop h body "invoice") = Some row)
       (put_invoice plain_text no_host sample_req VNull VNull sample_number
          sample_preparation (SRows (row :: rows)) sample_world)) /\
  (forall err,
     passes_status 400
       (put_invoice plain_text no_host sample_req VNull VNull sample_number
          sample_preparation (SFail err) sample_world)).
Proof.
  exact (put_invoice_outcomes plain_text no_host sample_req VNull VNull
           sample_number sample_preparation sample_updateData
           [VStr "amt"] [VStr "$1"] [VNum 500] sample_world
           eq_refl eq_refl eq_refl eq_refl eq_refl eq_refl eq_refl eq_refl).
Defined.

Lemma put_invoice_binds_validated_number_sample :
  exists st,
    issued
      (put_invoice plain_text no_host sample_req VNull VNull sample_number
         sample_preparation (SRows []) sample_world).2 = [st] /\
    bound st = Some [VNum 500; VNum 1].
Proof.
  exact (put_invoice_binds_validated_number plain_text no_host sample_req
           VNull VNull sample_number sample_preparation sample_updateData
           [VStr "amt"] [VStr "$1"] [VNum 500] (SRows []) sample_world
           eq_refl eq_refl eq_refl eq_refl eq_refl eq_refl eq_refl).
Defined.

Lemma get_invoice_joins_company_sample :
  sends_json
    (fun h body =>
       exists joined,
         record_at h (read_prop h body "invoice")
           = Some (<[ "company" := joined ]> (delete "comp_code" invoice_1)) /\
         record_at h joined = Some company_apple)
    (get_invoice plain_text sample_req sample_number (SRows [invoice_1])
       (SRows [company_apple]) sample_world) /\
  exists values1 values2,
    issued (get_invoice plain_text sample_req sample_number
              (SRows [invoice_1]) (SRows [company_apple]) sample_world).2
    = [ Statement
          (select_sql "id, amt, paid, add_date, paid_date, comp_code"
             "invoices" "id = $1")
          values1 (Some [VNum 1]);
        Statement
          (select_sql "code, name, description" "companies" "code = $1")
          values2 (Some [VStr "apple"]) ].
Proof.
  exact (get_invoice_joins_company plain_text sample_req sample_number
           invoice_1 company_apple sample_world eq_refl eq_refl).
Defined.
